(** * file_manager: path sanitisation and file operations

    A shallow embedding of the use-case layer of the file manager
    ([internal/usecases/file_management.go]), of the local storage adapter
    ([internal/adapters/localstorage]) and of the parts of Go's
    [path/filepath], [os] and [strings] packages they call (Unix build),
    followed by the properties of the sanitiser and of the seven engine
    operations; then the HTTP handlers of package [server] and the
    validation of the configuration, with their properties. *)

From Stdlib Require Import List Ascii Bool Arith ZArith Lia.
From Stdlib Require DecimalString.
Import ListNotations.

Set Implicit Arguments.

(** ** Go strings

    A Go [string] is an immutable sequence of bytes; [len] counts bytes.
    It is modelled by [list ascii], with string literals. *)

Definition bytes := list ascii.

Inductive literal := lit_nil | lit_cons (c : ascii) (s : literal).

Fixpoint literal_of_bytes (l : list Byte.byte) : literal :=
  match l with
  | [] => lit_nil
  | b :: l' => lit_cons (ascii_of_byte b) (literal_of_bytes l')
  end.

Fixpoint bytes_of_literal (s : literal) : list Byte.byte :=
  match s with
  | lit_nil => []
  | lit_cons c s' => byte_of_ascii c :: bytes_of_literal s'
  end.

Declare Scope bytes_scope.
Delimit Scope bytes_scope with bytes.
#[warnings="-via-type-mismatch,-via-type-remapping"]
String Notation bytes literal_of_bytes bytes_of_literal
  (via literal mapping [[nil] => lit_nil, [cons] => lit_cons]) : bytes_scope.
Open Scope bytes_scope.
Open Scope list_scope.

Definition bytes_eqb (a b : bytes) : bool :=
  if list_eq_dec ascii_dec a b then true else false.

(** [len(s)] as a Go [int]. *)
Definition len (s : bytes) : Z := Z.of_nat (length s).

Module strings.

(** [strings.HasPrefix(s, prefix)]. *)
Fixpoint HasPrefix (s prefix : bytes) {struct prefix} : bool :=
  match prefix, s with
  | [], _ => true
  | _ :: _, [] => false
  | p :: prefix', c :: s' => Ascii.eqb c p && HasPrefix s' prefix'
  end.

(** [strings.Join(elems, sep)]. *)
Fixpoint Join (elems : list bytes) (sep : bytes) : bytes :=
  match elems with
  | [] => []
  | [e] => e
  | e :: rest => e ++ sep ++ Join rest sep
  end.

(** [strings.Count(s, "/")] for a one-byte separator. *)
Definition Count (s : bytes) (c : ascii) : nat :=
  length (filter (Ascii.eqb c) s).

End strings.

(** ** Errors

    A Go [error] is a sentinel of the [domain] package, an error of the
    operating system carrying its errno, one of the sentinels
    [os.ErrInvalid] and [filepath.SkipDir], a plain [errors.New] message
    or a [fmt.Errorf] with a [%w] verb wrapping a cause. *)

Inductive domain_error :=
| ErrPathTraversal
| ErrPathTooLong
| ErrInvalidName
| ErrFileNotFound
| ErrPermissionDenied
| ErrUnsupportedOperation.

Inductive errno := ENOENT | EACCES | EPERM | ENOTDIR | EISDIR | EEXIST
                 | ENOTEMPTY | EINVAL | EBUSY | EIO.

Inductive fmt_arg := ArgS (s : bytes) | ArgD (n : Z).

Inductive error :=
| Sentinel (e : domain_error)
| Errno (e : errno)
| ErrInvalid
| SkipDir
| New (msg : bytes)
| Errorf (format : bytes) (args : list fmt_arg) (cause : error).

Definition domain_error_eqb (a b : domain_error) : bool :=
  match a, b with
  | ErrPathTraversal, ErrPathTraversal
  | ErrPathTooLong, ErrPathTooLong
  | ErrInvalidName, ErrInvalidName
  | ErrFileNotFound, ErrFileNotFound
  | ErrPermissionDenied, ErrPermissionDenied
  | ErrUnsupportedOperation, ErrUnsupportedOperation => true
  | _, _ => false
  end.

Module errors.

(** [errors.Is(err, target)] for a sentinel target: walks the [%w] chain. *)
Fixpoint Is (err : error) (target : domain_error) : bool :=
  match err with
  | Sentinel e => domain_error_eqb e target
  | Errorf _ _ cause => Is cause target
  | _ => false
  end.

End errors.

(** A Go result [(T, error)]. *)
Inductive Result (A : Type) :=
| Ok (a : A)
| Err (e : error).
Arguments Ok {A} a.
Arguments Err {A} e.

(** ** Go's [path/filepath] (Unix)

    [Separator] is ['/'] and volume names are empty.  [Clean] follows the
    loop of the standard library byte by byte: [path] is the part of the
    input not yet read ([path[r:]]), [out] is the written part of the
    [lazybuf] ([buf[:w]]) with its most recent byte first, so that
    [length out] is [out.w]. *)

Module filepath.

Definition Separator : ascii := "/"%char.

Definition IsPathSeparator (c : ascii) : bool := Ascii.eqb c Separator.

(** The bytes up to the next separator, and what follows them. *)
Fixpoint element (s : bytes) : bytes :=
  match s with
  | [] => []
  | c :: s' => if IsPathSeparator c then [] else c :: element s'
  end.

Fixpoint after_element (s : bytes) : bytes :=
  match s with
  | [] => []
  | c :: s' => if IsPathSeparator c then s else after_element s'
  end.

(** [r == n || IsPathSeparator(path[r])]. *)
Definition at_end_or_sep (s : bytes) : bool :=
  match s with
  | [] => true
  | c :: _ => IsPathSeparator c
  end.

(** [for out.w > dotdot && !IsPathSeparator(out.index(out.w)) { out.w-- }],
    where [c] is [out.index(out.w)]. *)
Fixpoint backtrack (dotdot : nat) (c : ascii) (out : list ascii) : list ascii :=
  match out with
  | [] => []
  | c' :: out' =>
      if (dotdot <? length out) && negb (IsPathSeparator c)
      then backtrack dotdot c' out'
      else out
  end.

Fixpoint clean_loop (fuel : nat) (rooted : bool) (path : bytes)
    (out : list ascii) (dotdot : nat) : list ascii :=
  match fuel, path with
  | S fuel', c :: path1 =>
      if IsPathSeparator c then
        (* empty path element *)
        clean_loop fuel' rooted path1 out dotdot
      else if Ascii.eqb c "." && at_end_or_sep path1 then
        (* . element *)
        clean_loop fuel' rooted path1 out dotdot
      else if Ascii.eqb c "." &&
              match path1 with
              | c1 :: path2 => Ascii.eqb c1 "." && at_end_or_sep path2
              | [] => false
              end then
        (* .. element: remove to last separator *)
        let path2 := tl path1 in
        if dotdot <? length out then
          (* can backtrack *)
          clean_loop fuel' rooted path2
            (match out with c0 :: out' => backtrack dotdot c0 out' | [] => [] end)
            dotdot
        else if negb rooted then
          (* cannot backtrack, but not rooted, so append .. element *)
          let out1 := if 0 <? length out then Separator :: out else out in
          let out2 := "."%char :: "."%char :: out1 in
          clean_loop fuel' rooted path2 out2 (length out2)
        else clean_loop fuel' rooted path2 out dotdot
      else
        (* real path element: add slash if needed, copy element *)
        let out1 :=
          if (rooted && negb (length out =? 1)) || (negb rooted && negb (length out =? 0))
          then Separator :: out else out in
        clean_loop fuel' rooted (after_element path) (rev (element path) ++ out1) dotdot
  | _, _ => out
  end.

Definition Clean (path : bytes) : bytes :=
  match path with
  | [] => "."
  | c :: path1 =>
      let out :=
        if IsPathSeparator c
        then clean_loop (length path) true path1 [Separator] 1
        else clean_loop (length path) false path [] 0 in
      (* Turn empty string into "." *)
      if length out =? 0 then "." else rev out
  end.

Definition IsAbs (path : bytes) : bool := strings.HasPrefix path "/".

(** [Join(elem...)]: the first non-empty element onwards, joined and cleaned. *)
Fixpoint Join (elem : list bytes) : bytes :=
  match elem with
  | [] => []
  | e :: rest =>
      match e with
      | [] => Join rest
      | _ :: _ => Clean (strings.Join elem "/")
      end
  end.

Definition skip_sep (s : bytes) : bytes := tl s.

(** The loop of [Rel] that positions [base[b0:bi]] and [targ[t0:ti]] at the
    first differing elements.  The arguments are [base[b0:]] and
    [targ[t0:]]; the result is [(base[b0:], targ[t0:], base[b0:bi])] at
    the exit of the loop. *)
Fixpoint rel_loop (fuel : nat) (base targ : bytes) : bytes * bytes * bytes :=
  match fuel with
  | 0 => (base, targ, [])
  | S fuel' =>
      match base, targ with
      | _ :: _, _ :: _ =>
          let be := element base in
          let te := element targ in
          if negb (bytes_eqb te be) then (base, targ, be)
          else rel_loop fuel' (skip_sep (after_element base))
                              (skip_sep (after_element targ))
      | _, _ => (base, targ, [])
      end
  end.

Definition slashed (s : bytes) : bool :=
  match s with
  | c :: _ => Ascii.eqb c Separator
  | [] => false
  end.

Definition rel_error (basepath targpath : bytes) : error :=
  New ("Rel: can't make " ++ targpath ++ " relative to " ++ basepath).

Definition Rel (basepath targpath : bytes) : Result bytes :=
  let base := Clean basepath in
  let targ := Clean targpath in
  if bytes_eqb targ base then Ok "." else
  let base := if bytes_eqb base "." then [] else base in
  if negb (Bool.eqb (slashed base) (slashed targ)) then
    Err (rel_error basepath targpath)
  else
    let '(b, t, belem) := rel_loop (length base) base targ in
    if bytes_eqb belem ".." then Err (rel_error basepath targpath)
    else
      match b with
      | _ :: _ =>
          (* Base elements left. Must go up before going down. *)
          let seps := strings.Count b Separator in
          Ok (".." ++ concat (repeat "/.." seps) ++
              match t with [] => [] | _ :: _ => "/" ++ t end)
      | [] => Ok t
      end.

Fixpoint strip_seps (r : list ascii) : list ascii :=
  match r with
  | c :: r' => if IsPathSeparator c then strip_seps r' else r
  | [] => []
  end.

(** [Base(path)]: the last element, trailing separators removed. *)
Definition Base (path : bytes) : bytes :=
  match path with
  | [] => "."
  | _ :: _ =>
      match rev (element (strip_seps (rev path))) with
      | [] => "/"
      | last => last
      end
  end.

(** [Dir(path)]: all but the last element, cleaned. *)
Definition Dir (path : bytes) : bytes :=
  Clean (rev (after_element (rev path))).

(** [Ext(path)]: the suffix of the last element from its last dot. *)
Fixpoint ext_loop (r : list ascii) (acc : bytes) : bytes :=
  match r with
  | [] => []
  | c :: r' =>
      if IsPathSeparator c then []
      else if Ascii.eqb c "." then c :: acc
      else ext_loop r' (c :: acc)
  end.

Definition Ext (path : bytes) : bytes := ext_loop (rev path) [].

End filepath.

(** *** Elements of a path

    The lexical theory of paths used by the proofs: a path is cut into
    its elements at the separators, [Clean] is a fold over the elements
    with a stack, and a cleaned rooted path is ["/"] followed by names
    joined with separators. *)

Module PathTheory.
Import filepath.

Definition sepfree (e : bytes) : bool :=
  forallb (fun c => negb (IsPathSeparator c)) e.

(** An ordinary element: not empty, not ["."], not [".."], no separator. *)
Definition is_name (e : bytes) : bool :=
  negb (bytes_eqb e []) && negb (bytes_eqb e ".") && negb (bytes_eqb e "..")
  && sepfree e.

Fixpoint split (s : bytes) : list bytes :=
  match s with
  | [] => [[]]
  | c :: s' =>
      if IsPathSeparator c then [] :: split s'
      else match split s' with
           | e :: tl => (c :: e) :: tl
           | [] => [[c]]
           end
  end.

(** One element of the input against the stack of elements written so
    far (top first). *)
Definition step (rooted : bool) (st : list bytes) (e : bytes) : list bytes :=
  if bytes_eqb e [] || bytes_eqb e "." then st
  else if bytes_eqb e ".." then
    match st with
    | top :: st' =>
        if bytes_eqb top ".." then (if rooted then st else e :: st) else st'
    | [] => if rooted then [] else [e]
    end
  else e :: st.

Definition norm (rooted : bool) (es : list bytes) (st : list bytes) : list bytes :=
  fold_left (step rooted) es st.

(** The output buffer (most recent byte first) that holds a stack. *)
Fixpoint out_of (rooted : bool) (st : list bytes) : list ascii :=
  match st with
  | [] => if rooted then [Separator] else []
  | e :: st' =>
      rev e ++ match st' with [] => [] | _ :: _ => [Separator] end ++ out_of rooted st'
  end.

Definition abspath (ns : list bytes) : bytes := Separator :: strings.Join ns "/".

Definition names_ok (ns : list bytes) : Prop := Forall (fun e => is_name e = true) ns.

Definition nonsep (c : ascii) : Prop := IsPathSeparator c = false.

(** An element that starts with a byte other than the separator. *)
Definition headok (e : bytes) : Prop :=
  match e with
  | c :: _ => IsPathSeparator c = false
  | [] => False
  end.

(** [k] parent-directory elements. *)
Definition dots (k : nat) : list bytes := repeat ".." k.

(** What is left of two lists of elements after their common prefix. *)
Fixpoint strip_common (bs ts : list bytes) : list bytes * list bytes :=
  match bs, ts with
  | b :: bs', t :: ts' => if bytes_eqb t b then strip_common bs' ts' else (bs, ts)
  | _, _ => (bs, ts)
  end.

End PathTheory.

(** ** The file system

    Go's [os] package over a tree: a node is a regular file with its
    content, a directory with its entries in the order in which
    [ReadDir] and [readDirNames] list them (sorted by name), or an entry
    whose [lstat] fails with an errno (a stale or inaccessible entry).
    There are no symbolic links, so [Stat] and [Lstat] agree, and the
    working directory is the root. *)

Module os.
Import filepath PathTheory.

#[warnings="-register-all"]
Inductive node :=
| File (data : bytes)
| Dir (entries : list (bytes * node))
| Bad (e : errno).

(** The methods of [fs.FileInfo] that the program calls. *)
Record FileInfo := { Name : bytes; IsDir : bool }.

(** A [fs.DirEntry]: its name and the node that [Info] stats. *)
Record DirEntry := { entry_name : bytes; entry_node : node }.

Definition IsNotExist (err : error) : bool :=
  match err with
  | Errno ENOENT => true
  | _ => false
  end.

Definition IsPermission (err : error) : bool :=
  match err with
  | Errno EACCES | Errno EPERM => true
  | _ => false
  end.

Definition is_dir (nd : node) : bool :=
  match nd with
  | Dir _ => true
  | _ => false
  end.

Fixpoint find_child (n : bytes) (es : list (bytes * node)) : option node :=
  match es with
  | [] => None
  | (m, nd) :: es' => if bytes_eqb m n then Some nd else find_child n es'
  end.

Fixpoint bytes_leb (a b : bytes) : bool :=
  match a, b with
  | [], _ => true
  | _ :: _, [] => false
  | x :: a', y :: b' =>
      if (nat_of_ascii x <? nat_of_ascii y)%nat then true
      else if (nat_of_ascii y <? nat_of_ascii x)%nat then false
      else bytes_leb a' b'
  end.

Fixpoint replace_child (n : bytes) (nd : node) (es : list (bytes * node))
  : list (bytes * node) :=
  match es with
  | [] => []
  | (m, c) :: es' =>
      if bytes_eqb m n then (m, nd) :: es' else (m, c) :: replace_child n nd es'
  end.

Fixpoint insert_child (n : bytes) (nd : node) (es : list (bytes * node))
  : list (bytes * node) :=
  match es with
  | [] => [(n, nd)]
  | (m, c) :: es' =>
      if bytes_leb n m then (n, nd) :: es else (m, c) :: insert_child n nd es'
  end.

(** Replaces the entry [n], or adds it at its place in the order of names. *)
Definition set_child (n : bytes) (nd : node) (es : list (bytes * node))
  : list (bytes * node) :=
  match find_child n es with
  | Some _ => replace_child n nd es
  | None => insert_child n nd es
  end.

Definition remove_child (n : bytes) (es : list (bytes * node)) : list (bytes * node) :=
  filter (fun e => negb (bytes_eqb (fst e) n)) es.

(** The names that path resolution follows: empty elements and ["."]
    are skipped. *)
Definition names (path : bytes) : list bytes :=
  filter (fun e => negb (bytes_eqb e [] || bytes_eqb e ".")) (split path).

Fixpoint resolve (nd : node) (cs : list bytes) : node + errno :=
  match nd with
  | Bad e => inr e
  | _ =>
      match cs with
      | [] => inl nd
      | c :: cs' =>
          match nd with
          | Dir es =>
              match find_child c es with
              | Some ch => resolve ch cs'
              | None => inr ENOENT
              end
          | _ => inr ENOTDIR
          end
      end
  end.

Definition lookup (disk : node) (path : bytes) : node + errno :=
  match path with
  | [] => inr ENOENT
  | _ :: _ => resolve disk (names path)
  end.

(** [basename] of package [os]: the name that [Stat] and [Lstat] give
    to their [FileInfo]. *)
Definition basename (name : bytes) : bytes :=
  match rev name with
  | [] => []
  | c :: r =>
      match (if IsPathSeparator c then strip_seps r else rev name) with
      | [] => [c]
      | c' :: r' => rev (c' :: element r')
      end
  end.

Definition Stat (disk : node) (name : bytes) : Result FileInfo :=
  match lookup disk name with
  | inl nd => Ok {| Name := basename name; IsDir := is_dir nd |}
  | inr e => Err (Errno e)
  end.

Definition Lstat := Stat.

Definition ReadDir (disk : node) (name : bytes) : Result (list DirEntry) :=
  match lookup disk name with
  | inl (Dir es) =>
      Ok (map (fun e => {| entry_name := fst e; entry_node := snd e |}) es)
  | inl _ => Err (Errno ENOTDIR)
  | inr e => Err (Errno e)
  end.

(** [DirEntry.Info]. *)
Definition Info (e : DirEntry) : Result FileInfo :=
  match entry_node e with
  | Bad err => Err (Errno err)
  | nd => Ok {| Name := entry_name e; IsDir := is_dir nd |}
  end.

(** [Open(name)]: the node behind the file handle. *)
Definition Open (disk : node) (name : bytes) : Result node :=
  match lookup disk name with
  | inl nd => Ok nd
  | inr e => Err (Errno e)
  end.

(** Reading an open file to its end, as [io.Copy] does. *)
Definition read_all (nd : node) : Result bytes :=
  match nd with
  | File data => Ok data
  | Dir _ => Err (Errno EISDIR)
  | Bad e => Err (Errno e)
  end.

Fixpoint remove_at (cs : list bytes) (nd : node) : option errno * node :=
  match cs with
  | [] =>
      match nd with
      | Dir _ => (Some EBUSY, Dir [])
      | File _ => (Some EBUSY, nd)
      | Bad e => (Some e, nd)
      end
  | c :: cs' =>
      match nd with
      | Dir es =>
          match find_child c es with
          | None => (None, nd)
          | Some ch =>
              match cs' with
              | [] =>
                  match ch with
                  | Bad e => (Some e, nd)
                  | _ => (None, Dir (remove_child c es))
                  end
              | _ :: _ =>
                  match remove_at cs' ch with
                  | (None, ch') => (None, Dir (set_child c ch' es))
                  | (Some e, _) => (Some e, nd)
                  end
              end
          end
      | File _ => (Some ENOTDIR, nd)
      | Bad e => (Some e, nd)
      end
  end.

Definition endsWithDot (path : bytes) : bool :=
  match rev path with
  | [c] => Ascii.eqb c "."
  | c :: c' :: _ => Ascii.eqb c "." && IsPathSeparator c'
  | [] => false
  end.

Definition as_error (r : option errno) : option error := option_map Errno r.

(** [RemoveAll(path)]: [err == nil || IsNotExist(err)] is success, a
    path that does not exist is not an error. *)
Definition RemoveAll (disk : node) (path : bytes) : option error * node :=
  match path with
  | [] => (None, disk)
  | _ :: _ =>
      if endsWithDot path then (Some (Errno EINVAL), disk)
      else
        match remove_at (names path) disk with
        | (Some ENOENT, disk') => (None, disk')
        | (r, disk') => (as_error r, disk')
        end
  end.

Fixpoint mkdir_all (cs : list bytes) (nd : node) : option errno * node :=
  match cs with
  | [] =>
      match nd with
      | Dir _ => (None, nd)
      | File _ => (Some ENOTDIR, nd)
      | Bad e => (Some e, nd)
      end
  | c :: cs' =>
      match nd with
      | Dir es =>
          let ch := match find_child c es with Some ch => ch | None => Dir [] end in
          let (r, ch') := mkdir_all cs' ch in
          (r, Dir (set_child c ch' es))
      | File _ => (Some ENOTDIR, nd)
      | Bad e => (Some e, nd)
      end
  end.

Definition MkdirAll (disk : node) (path : bytes) : option error * node :=
  match path with
  | [] => (Some (Errno ENOENT), disk)
  | _ :: _ => let (r, disk') := mkdir_all (names path) disk in (as_error r, disk')
  end.

(** [Create(name)] followed by copying [data] into the file. *)
Fixpoint create_at (cs : list bytes) (data : bytes) (nd : node) : option errno * node :=
  match cs with
  | [] => (Some EISDIR, nd)
  | c :: cs' =>
      match nd with
      | Dir es =>
          match cs', find_child c es with
          | [], Some (Dir _) => (Some EISDIR, nd)
          | [], Some (Bad e) => (Some e, nd)
          | [], _ => (None, Dir (set_child c (File data) es))
          | _ :: _, Some ch =>
              let (r, ch') := create_at cs' data ch in
              (r, Dir (set_child c ch' es))
          | _ :: _, None => (Some ENOENT, nd)
          end
      | File _ => (Some ENOTDIR, nd)
      | Bad e => (Some e, nd)
      end
  end.

Definition WriteFile (disk : node) (name : bytes) (data : bytes) : option error * node :=
  match name with
  | [] => (Some (Errno ENOENT), disk)
  | _ :: _ => let (r, disk') := create_at (names name) data disk in (as_error r, disk')
  end.

(** Puts [src] at [cs] when the parent directory exists. *)
Fixpoint place_at (cs : list bytes) (src : node) (nd : node) : option errno * node :=
  match cs with
  | [] => (Some EBUSY, nd)
  | c :: cs' =>
      match nd with
      | Dir es =>
          match cs', find_child c es with
          | [], _ => (None, Dir (set_child c src es))
          | _ :: _, Some ch =>
              let (r, ch') := place_at cs' src ch in
              (r, Dir (set_child c ch' es))
          | _ :: _, None => (Some ENOENT, nd)
          end
      | File _ => (Some ENOTDIR, nd)
      | Bad e => (Some e, nd)
      end
  end.

Fixpoint is_prefix (a b : list bytes) : bool :=
  match a, b with
  | [], _ => true
  | _ :: _, [] => false
  | x :: a', y :: b' => bytes_eqb x y && is_prefix a' b'
  end.

(** [rename(2)], the system call under [Rename]. *)
Definition syscall_Rename (disk : node) (oldpath newpath : bytes) : option error * node :=
  let ocs := names oldpath in
  let ncs := names newpath in
  match lookup disk oldpath, newpath with
  | inr e, _ => (Some (Errno e), disk)
  | inl _, [] => (Some (Errno ENOENT), disk)
  | inl src, _ :: _ =>
      match ocs with
      | [] => (Some (Errno EBUSY), disk)
      | _ :: _ =>
          if is_prefix ocs ncs then
            (if is_prefix ncs ocs then None else Some (Errno EINVAL), disk)
          else
            let clash :=
              match resolve disk ncs, src with
              | inl (Dir (_ :: _)), Dir _ => Some ENOTEMPTY
              | inl (Dir _), File _ => Some EISDIR
              | inl (File _), Dir _ => Some ENOTDIR
              | inr ENOENT, _ => None
              | inr e, _ => Some e
              | _, _ => None
              end in
            match clash with
            | Some e => (Some (Errno e), disk)
            | None =>
                match place_at ncs src (snd (remove_at ocs disk)) with
                | (None, disk') => (None, disk')
                | (Some e, _) => (Some (Errno e), disk)
                end
            end
      end
  end.

(** [SameFile] of the two names: in a tree without links, two names are
    of one file when they resolve through the same components. *)
Definition same_file (oldpath newpath : bytes) : bool :=
  is_prefix (names oldpath) (names newpath) && is_prefix (names newpath) (names oldpath).

(** [Rename(oldpath, newpath)]: a new name that is an existing directory
    is refused before the system call (with the error of the old name
    when that one cannot be read, with [EEXIST] otherwise), unless the two
    names differ and are of one file. *)
Definition Rename (disk : node) (oldpath newpath : bytes) : option error * node :=
  match Lstat disk newpath with
  | Ok fi =>
      if IsDir fi then
        match Lstat disk oldpath with
        | Err err => (Some err, disk)
        | Ok _ =>
            if bytes_eqb newpath oldpath || negb (same_file oldpath newpath)
            then (Some (Errno EEXIST), disk)
            else syscall_Rename disk oldpath newpath
        end
      else syscall_Rename disk oldpath newpath
  | Err _ => syscall_Rename disk oldpath newpath
  end.

End os.

(** ** Constants, configuration and the compiled name pattern *)

Module domain.

Definition PathEmpty : bytes := [].
Definition PathCurrent : bytes := ".".
Definition PathRoot : bytes := "/".
Definition PathTraversalPrefix : bytes := "..".
Definition HiddenFilePrefix : bytes := ".".
Definition ExtensionZip : bytes := ".zip".
Definition MIMEOctetStream : bytes := "application/octet-stream".
Definition MIMEZip : bytes := "application/zip".

Record FileData := { Name : bytes; IsDir : bool }.

End domain.

Module config.

Record FileConfig := {
  MaxNameLength : Z;
  DirPermissions : N;
  ForbiddenExtensions : list bytes;
  ValidNameRegex : bytes
}.

Record Config := { File : FileConfig }.

(** [validatePositiveInt(field, value)], the check that [validateConfig]
    runs on [file.max_name_length]. *)
Definition validatePositiveInt (field : bytes) (value : Z) : option error :=
  if (value <=? 0)%Z then Some (New (field ++ ": must be greater than 0")) else None.

End config.

Module regexp.

(** A compiled [*regexp.Regexp], by its method [MatchString]. *)
Record Regexp := { MatchString : bytes -> bool }.

Definition word_byte (c : ascii) : bool :=
  let n := nat_of_ascii c in
  ((48 <=? n) && (n <=? 57)) || ((65 <=? n) && (n <=? 90))
  || ((97 <=? n) && (n <=? 122)) || (n =? 95).

Definition name_byte (c : ascii) : bool :=
  word_byte c || Ascii.eqb c "-" || Ascii.eqb c "." || Ascii.eqb c " ".

(** The pattern [^[\w\-. ]+$] of the tests: one or more bytes, each a
    word character, a hyphen, a dot or a space. *)
Definition word_hyphen_dot_space : Regexp :=
  {| MatchString := fun s => negb (bytes_eqb s []) && forallb name_byte s |}.

(** The pattern [[\w\-. ]+], the same class without the anchors:
    [MatchString] reports a match anywhere in the string, which one byte
    of the class gives. *)
Definition word_hyphen_dot_space_unanchored : Regexp :=
  {| MatchString := fun s => existsb name_byte s |}.

End regexp.

(** ** The world of a request

    The file system, the calls made on the storage interface (a ghost
    trace, one event per call of a method of [domain.FileStorage]), the
    log and the response under construction. *)

Inductive call :=
| CallReadDirectory (relPath : bytes)
| CallWriteFile (relPath : bytes) (file : bytes)
| CallRemove (relPath : bytes)
| CallMove (oldRel newRel : bytes)
| CallCreateDirectory (relPath : bytes)
| CallGetAbsolutePath (relPath : bytes).

Inductive log_arg := LogS (s : bytes) | LogE (e : error).

Record log_entry := { log_format : bytes; log_args : list log_arg }.

Module http.

(** The response: its header, the file handed to [http.ServeFile] and
    the entries (name, content) written through a [zip.Writer]. *)
Record ResponseWriter := {
  Header : list (bytes * bytes);
  served : option bytes;
  archive : list (bytes * bytes)
}.

Fixpoint header_set (k v : bytes) (h : list (bytes * bytes)) : list (bytes * bytes) :=
  match h with
  | [] => [(k, v)]
  | (k', v') :: h' =>
      if bytes_eqb k' k then (k, v) :: h' else (k', v') :: header_set k v h'
  end.

End http.

Record world := {
  disk : os.node;
  calls : list call;
  logs : list log_entry;
  response : http.ResponseWriter
}.

Definition M (A : Type) : Type := world -> A * world.

Definition ret {A : Type} (a : A) : M A := fun w => (a, w).

Definition bind {A B : Type} (m : M A) (k : A -> M B) : M B :=
  fun w => let (a, w') := m w in k a w'.

Notation "x <- m ;; k" := (bind m (fun x => k))
  (at level 61, m at next level, right associativity).
Notation "m ;;; k" := (bind m (fun _ => k))
  (at level 61, right associativity).

Definition record_call (c : call) : M unit :=
  fun w => (tt, {| disk := disk w; calls := calls w ++ [c];
                   logs := logs w; response := response w |}).

Definition log (format : bytes) (args : list log_arg) : M unit :=
  fun w => (tt, {| disk := disk w; calls := calls w;
                   logs := logs w ++ [{| log_format := format; log_args := args |}];
                   response := response w |}).

Definition get_disk : M os.node := fun w => (disk w, w).

Definition put_disk (d : os.node) : M unit :=
  fun w => (tt, {| disk := d; calls := calls w; logs := logs w; response := response w |}).

Definition modify_response (f : http.ResponseWriter -> http.ResponseWriter) : M unit :=
  fun w => (tt, {| disk := disk w; calls := calls w; logs := logs w;
                   response := f (response w) |}).

(** An operation of [os] that changes the file system. *)
Definition os_update (f : os.node -> option error * os.node) : M (option error) :=
  d <- get_disk ;;
  let (r, d') := f d in
  put_disk d' ;;; ret r.

(** ** The storage interface and the local storage *)

Class FileStorage (S : Type) := {
  ReadDirectory : S -> bytes -> M (Result (list os.FileInfo));
  WriteFile : S -> bytes -> bytes -> M (option error);
  Remove : S -> bytes -> M (option error);
  Move : S -> bytes -> bytes -> M (option error);
  CreateDirectory : S -> bytes -> M (option error);
  GetAbsolutePath : S -> bytes -> bytes
}.

Module localstorage.

Record LocalStorageService := { basePath : bytes; dirPerm : N }.

Definition NewLocalStorageService (basePath : bytes) (dirPerm : N) : LocalStorageService :=
  {| basePath := basePath; dirPerm := dirPerm |}.

Definition GetAbsolutePath (s : LocalStorageService) (relPath : bytes) : bytes :=
  filepath.Join [basePath s; relPath].

(** The loop over the entries of [ReadDirectory]: an entry whose [Info]
    fails is logged and skipped. *)
Fixpoint collect_infos (entries : list os.DirEntry) (files : list os.FileInfo)
  : M (list os.FileInfo) :=
  match entries with
  | [] => ret files
  | e :: entries' =>
      match os.Info e with
      | Err infoErr =>
          log "Failed to get info for %s: %v" [LogS (os.entry_name e); LogE infoErr] ;;;
          collect_infos entries' files
      | Ok info => collect_infos entries' (files ++ [info])
      end
  end.

Definition ReadDirectory (s : LocalStorageService) (relPath : bytes)
  : M (Result (list os.FileInfo)) :=
  let fullPath := GetAbsolutePath s relPath in
  d <- get_disk ;;
  match os.ReadDir d fullPath with
  | Err err => ret (Err err)
  | Ok entries =>
      files <- collect_infos entries [] ;;
      ret (Ok files)
  end.

Definition WriteFile (s : LocalStorageService) (relPath : bytes) (file : bytes)
  : M (option error) :=
  let fullPath := GetAbsolutePath s relPath in
  let dir := filepath.Dir fullPath in
  err <- os_update (fun d => os.MkdirAll d dir) ;;
  match err with
  | Some e => ret (Some e)
  | None => os_update (fun d => os.WriteFile d fullPath file)
  end.

Definition Remove (s : LocalStorageService) (relPath : bytes) : M (option error) :=
  os_update (fun d => os.RemoveAll d (GetAbsolutePath s relPath)).

Definition Move (s : LocalStorageService) (oldRel newRel : bytes) : M (option error) :=
  if bytes_eqb newRel [] then ret (Some ErrInvalid)
  else os_update (fun d => os.Rename d (GetAbsolutePath s oldRel) (GetAbsolutePath s newRel)).

Definition CreateDirectory (s : LocalStorageService) (relPath : bytes) : M (option error) :=
  os_update (fun d => os.MkdirAll d (GetAbsolutePath s relPath)).

End localstorage.

#[export] Instance LocalStorage_FileStorage : FileStorage localstorage.LocalStorageService := {
  ReadDirectory := localstorage.ReadDirectory;
  WriteFile := localstorage.WriteFile;
  Remove := localstorage.Remove;
  Move := localstorage.Move;
  CreateDirectory := localstorage.CreateDirectory;
  GetAbsolutePath := localstorage.GetAbsolutePath
}.

(** ** [filepath.Walk]

    The walk of the tree below [root].  [walk] receives the node that
    [lstat] found at [path]; the entries of a directory are visited in
    the order of [readDirNames], and [lstat] of an entry that it has just
    listed is the node of that entry. *)

Definition WalkFunc : Type := bytes -> option os.FileInfo -> option error -> M (option error).

Definition is_SkipDir (e : error) : bool :=
  match e with
  | SkipDir => true
  | _ => false
  end.

(** The loop over the names of [walk]; [rec] is [walk] itself. *)
Definition walk_names (rec : bytes -> os.FileInfo -> os.node -> M (option error))
    (walkFn : WalkFunc) (path : bytes) : list (bytes * os.node) -> M (option error) :=
  fix each (es : list (bytes * os.node)) : M (option error) :=
    match es with
    | [] => ret None
    | (name, child) :: es' =>
        let filename := filepath.Join [path; name] in
        match child with
        | os.Bad e =>
            err <- walkFn filename None (Some (Errno e)) ;;
            match err with
            | Some e' => if is_SkipDir e' then each es' else ret (Some e')
            | None => each es'
            end
        | _ =>
            let fileInfo := {| os.Name := os.basename filename;
                               os.IsDir := os.is_dir child |} in
            err <- rec filename fileInfo child ;;
            match err with
            | Some e' =>
                if negb (os.IsDir fileInfo) || negb (is_SkipDir e')
                then ret (Some e') else each es'
            | None => each es'
            end
        end
    end.

Fixpoint walk (walkFn : WalkFunc) (path : bytes) (info : os.FileInfo) (nd : os.node)
  {struct nd} : M (option error) :=
  match nd with
  | os.Dir entries =>
      (* names, err := readDirNames(path); err1 := walkFn(path, info, err) *)
      err1 <- walkFn path (Some info) None ;;
      match err1 with
      | Some e => ret (Some e)
      | None => walk_names (walk walkFn) walkFn path entries
      end
  | _ => walkFn path (Some info) None
  end.

Definition Walk (root : bytes) (fn : WalkFunc) : M (option error) :=
  d <- get_disk ;;
  err <- match os.Lstat d root, os.lookup d root with
         | Ok info, inl nd => walk fn root info nd
         | Err err, _ => fn root None (Some err)
         | Ok _, inr e => fn root None (Some (Errno e))
         end ;;
  match err with
  | Some e => if is_SkipDir e then ret None else ret (Some e)
  | None => ret None
  end.

Module mime.

(** [mime.TypeByExtension] over the built-in table of the package. *)
Definition builtinTypes : list (bytes * bytes) :=
  [ (".avif", "image/avif"); (".css", "text/css; charset=utf-8");
    (".gif", "image/gif"); (".htm", "text/html; charset=utf-8");
    (".html", "text/html; charset=utf-8"); (".jpeg", "image/jpeg");
    (".jpg", "image/jpeg"); (".js", "text/javascript; charset=utf-8");
    (".json", "application/json"); (".mjs", "text/javascript; charset=utf-8");
    (".pdf", "application/pdf"); (".png", "image/png");
    (".svg", "image/svg+xml"); (".wasm", "application/wasm");
    (".webp", "image/webp"); (".xml", "text/xml; charset=utf-8") ].

Fixpoint assoc (k : bytes) (l : list (bytes * bytes)) : bytes :=
  match l with
  | [] => []
  | (k', v) :: l' => if bytes_eqb k' k then v else assoc k l'
  end.

Definition TypeByExtension (ext : bytes) : bytes := assoc ext builtinTypes.

End mime.

(** ** The use cases *)

Module usecases.
Section UseCase.

Context {S : Type} {storage_impl : FileStorage S}.

Record FileManagementUseCase := {
  storage : S;
  cfg : config.Config;
  validName : regexp.Regexp
}.

(** [MustCompile] is [regexp.MustCompile]. *)
Definition NewFileManagementUseCase (MustCompile : bytes -> regexp.Regexp)
    (storage : S) (cfg : config.Config) : FileManagementUseCase :=
  {| storage := storage; cfg := cfg;
     validName := MustCompile (config.ValidNameRegex (config.File cfg)) |}.

Variable uc : FileManagementUseCase.

(** The calls [uc.storage.M(...)]: each is recorded, then dispatched. *)
Definition storage_GetAbsolutePath (relPath : bytes) : M bytes :=
  record_call (CallGetAbsolutePath relPath) ;;;
  ret (GetAbsolutePath (storage uc) relPath).

Definition storage_ReadDirectory (relPath : bytes) : M (Result (list os.FileInfo)) :=
  record_call (CallReadDirectory relPath) ;;; ReadDirectory (storage uc) relPath.

Definition storage_WriteFile (relPath file : bytes) : M (option error) :=
  record_call (CallWriteFile relPath file) ;;; WriteFile (storage uc) relPath file.

Definition storage_Remove (relPath : bytes) : M (option error) :=
  record_call (CallRemove relPath) ;;; Remove (storage uc) relPath.

Definition storage_Move (oldRel newRel : bytes) : M (option error) :=
  record_call (CallMove oldRel newRel) ;;; Move (storage uc) oldRel newRel.

Definition storage_CreateDirectory (relPath : bytes) : M (option error) :=
  record_call (CallCreateDirectory relPath) ;;; CreateDirectory (storage uc) relPath.

Definition MaxNameLength : Z := config.MaxNameLength (config.File (cfg uc)).

Definition sanitizePath (path : bytes) : M (Result bytes) :=
  let clean := filepath.Clean path in
  if filepath.IsAbs clean then
    ret (Err (Errorf "absolute paths are not allowed: %w" [] (Sentinel ErrPathTraversal)))
  else
    base <- storage_GetAbsolutePath [] ;;
    let basePath := filepath.Clean base in
    let fullPath := filepath.Join [basePath; clean] in
    match filepath.Rel basePath fullPath with
    | Err _ =>
        ret (Err (Errorf "path resolution failed: %w" [] (Sentinel ErrPathTraversal)))
    | Ok rel =>
        if strings.HasPrefix rel domain.PathTraversalPrefix then
          ret (Err (Errorf "path traversal detected: %w" [] (Sentinel ErrPathTraversal)))
        else if (len clean >? MaxNameLength)%Z then
          ret (Err (Errorf "path '%s' too long (%d > %d): %w"
                      [ArgS path; ArgD (len clean); ArgD MaxNameLength]
                      (Sentinel ErrPathTooLong)))
        else
          let base := filepath.Base clean in
          if negb (bytes_eqb base domain.PathCurrent)
             && negb (bytes_eqb base domain.PathEmpty)
             && negb (regexp.MatchString (validName uc) base) then
            ret (Err (Errorf "base name '%s' is invalid: %w" [ArgS base]
                        (Sentinel ErrInvalidName)))
          else ret (Ok clean)
    end.

Definition FileData_of (fi : os.FileInfo) : domain.FileData :=
  {| domain.Name := os.Name fi; domain.IsDir := os.IsDir fi |}.

Definition List (path : bytes) : M (Result (list domain.FileData)) :=
  r <- sanitizePath path ;;
  match r with
  | Err err => ret (Err err)
  | Ok sanitizedPath =>
      r <- storage_ReadDirectory sanitizedPath ;;
      match r with
      | Err err =>
          if os.IsNotExist err then
            ret (Err (Errorf "could not read directory '%s': %w" [ArgS sanitizedPath]
                        (Sentinel ErrFileNotFound)))
          else if os.IsPermission err then
            ret (Err (Errorf "could not read directory '%s': %w" [ArgS sanitizedPath]
                        (Sentinel ErrPermissionDenied)))
          else ret (Err (Errorf "failed to list path '%s': %w" [ArgS sanitizedPath] err))
      | Ok entries => ret (Ok (map FileData_of entries))
      end
  end.

Definition UploadFile (path : bytes) (file : bytes) : M (option error) :=
  r <- sanitizePath path ;;
  match r with
  | Err err => ret (Some err)
  | Ok sanitizedPath =>
      writeErr <- storage_WriteFile sanitizedPath file ;;
      match writeErr with
      | Some e => ret (Some (Errorf "failed to upload file to '%s': %w" [ArgS sanitizedPath] e))
      | None => ret None
      end
  end.

Definition Delete (path : bytes) : M (option error) :=
  r <- sanitizePath path ;;
  match r with
  | Err err => ret (Some err)
  | Ok sanitizedPath =>
      removeErr <- storage_Remove sanitizedPath ;;
      match removeErr with
      | Some e =>
          ret (Some (Errorf "could not delete file/folder '%s': %w" [ArgS sanitizedPath] e))
      | None => ret None
      end
  end.

Definition Rename (oldPath newPath : bytes) : M (option error) :=
  r <- sanitizePath oldPath ;;
  match r with
  | Err err => ret (Some err)
  | Ok sanitizedOldPath =>
      r <- sanitizePath newPath ;;
      match r with
      | Err err => ret (Some err)
      | Ok sanitizedNewPath =>
          moveErr <- storage_Move sanitizedOldPath sanitizedNewPath ;;
          match moveErr with
          | Some e =>
              ret (Some (Errorf "could not rename '%s' to '%s': %w"
                           [ArgS sanitizedOldPath; ArgS sanitizedNewPath] e))
          | None => ret None
          end
      end
  end.

Definition CreateFolder (path : bytes) : M (option error) :=
  r <- sanitizePath path ;;
  match r with
  | Err err => ret (Some err)
  | Ok sanitizedPath =>
      createErr <- storage_CreateDirectory sanitizedPath ;;
      match createErr with
      | Some e => ret (Some (Errorf "could not create folder '%s': %w" [ArgS sanitizedPath] e))
      | None => ret None
      end
  end.

Definition quote : bytes := [ascii_of_nat 34].

Definition attachment (filename : bytes) : bytes :=
  "attachment; filename=" ++ quote ++ filename ++ quote.

(** [ServeFile(w, r, path)]; the request is only passed on to
    [http.ServeFile], which is recorded in the response. *)
Definition ServeFile (path : bytes) : M (option error) :=
  r <- sanitizePath path ;;
  match r with
  | Err err => ret (Some err)
  | Ok sanitizedPath =>
      fullPath <- storage_GetAbsolutePath sanitizedPath ;;
      d <- get_disk ;;
      match os.Stat d fullPath with
      | Err statErr =>
          if os.IsNotExist statErr then
            ret (Some (Errorf "file not found at '%s': %w" [ArgS sanitizedPath]
                         (Sentinel ErrFileNotFound)))
          else ret (Some (Errorf "failed to stat file at '%s': %w" [ArgS sanitizedPath] statErr))
      | Ok _ =>
          let mimeType := mime.TypeByExtension (filepath.Ext fullPath) in
          let mimeType :=
            if bytes_eqb mimeType domain.PathEmpty then domain.MIMEOctetStream else mimeType in
          modify_response (fun w =>
            {| http.Header :=
                 http.header_set "Content-Disposition" (attachment (filepath.Base fullPath))
                   (http.header_set "Content-Type" mimeType (http.Header w));
               http.served := Some fullPath;
               http.archive := http.archive w |}) ;;;
          ret None
      end
  end.

Definition shouldSkipFile (info : os.FileInfo) : bool :=
  strings.HasPrefix (os.Name info) domain.HiddenFilePrefix.

(** [zipWriter.Create(name)] opens a new entry of the archive, and
    [io.Copy(dstFile, srcFile)] writes the content of the entry. *)
Definition zip_Create (name : bytes) : M unit :=
  modify_response (fun w =>
    {| http.Header := http.Header w; http.served := http.served w;
       http.archive := http.archive w ++ [(name, [])] |}).

Definition zip_Write (data : bytes) : M unit :=
  modify_response (fun w =>
    {| http.Header := http.Header w; http.served := http.served w;
       http.archive :=
         match rev (http.archive w) with
         | (name, content) :: r => rev ((name, content ++ data) :: r)
         | [] => []
         end |}).

Definition addFileToZip (fullPath filePath : bytes) : M (option error) :=
  match filepath.Rel fullPath filePath with
  | Err err => ret (Some (Errorf "failed to get relative path: %w" [] err))
  | Ok rel =>
      zip_Create rel ;;;
      d <- get_disk ;;
      match os.Open d filePath with
      | Err openErr => ret (Some (Errorf "failed to open file: %w" [] openErr))
      | Ok srcFile =>
          match os.read_all srcFile with
          | Err copyErr => ret (Some (Errorf "failed to copy file to zip: %w" [] copyErr))
          | Ok data => zip_Write data ;;; ret None
          end
      end
  end.

(** The function that [createZipArchive] hands to [filepath.Walk]. *)
Definition zipWalkFunc (fullPath : bytes) : WalkFunc :=
  fun file info walkErr =>
    match walkErr, info with
    | Some e, _ => ret (Some e)
    | None, None => ret None
    | None, Some info =>
        if shouldSkipFile info then
          if os.IsDir info then ret (Some SkipDir) else ret None
        else if os.IsDir info then ret None
        else addFileToZip fullPath file
    end.

Definition createZipArchive (fullPath : bytes) : M (option error) :=
  Walk fullPath (zipWalkFunc fullPath).

Definition ServeFolderAsZip (path : bytes) : M (option error) :=
  r <- sanitizePath path ;;
  match r with
  | Err err => ret (Some err)
  | Ok sanitizedPath =>
      fullPath <- storage_GetAbsolutePath sanitizedPath ;;
      d <- get_disk ;;
      let notFound :=
        ret (Some (Errorf "could not stat folder '%s': %w" [ArgS sanitizedPath]
                     (Sentinel ErrFileNotFound))) in
      match os.Stat d fullPath with
      | Err _ => notFound
      | Ok info =>
          if negb (os.IsDir info) then notFound
          else
            let zipName := filepath.Base sanitizedPath ++ domain.ExtensionZip in
            modify_response (fun w =>
              {| http.Header :=
                   http.header_set "Content-Disposition" (attachment zipName)
                     (http.header_set "Content-Type" domain.MIMEZip (http.Header w));
                 http.served := http.served w;
                 http.archive := http.archive w |}) ;;;
            archiveErr <- createZipArchive fullPath ;;
            match archiveErr with
            | Some e =>
                ret (Some (Errorf "failed to create zip for folder '%s': %w"
                             [ArgS sanitizedPath] e))
            | None => ret None
            end
      end
  end.

End UseCase.
End usecases.

(** ** Notions used in the statements *)

Module Spec.
Import filepath PathTheory.

Section Checks.

Context {S : Type} {storage_impl : FileStorage S}.
Variable uc : @usecases.FileManagementUseCase S.

(** The base directory as the sanitiser reads it. *)
Definition basePath : bytes := Clean (GetAbsolutePath (usecases.storage uc) []).

(** The three checks of the sanitiser, in their order. *)
Definition traversal_ok (path : bytes) : bool :=
  let clean := Clean path in
  negb (IsAbs clean) &&
  match Rel basePath (Join [basePath; clean]) with
  | Ok rel => negb (strings.HasPrefix rel domain.PathTraversalPrefix)
  | Err _ => false
  end.

Definition length_ok (path : bytes) : bool :=
  (len (Clean path) <=? usecases.MaxNameLength uc)%Z.

Definition name_ok (path : bytes) : bool :=
  let base := Base (Clean path) in
  bytes_eqb base domain.PathCurrent || bytes_eqb base domain.PathEmpty
  || regexp.MatchString (usecases.validName uc) base.

End Checks.

(** The world after the sanitiser has read the base directory. *)
Definition base_read (w : world) : world :=
  {| disk := disk w; calls := calls w ++ [CallGetAbsolutePath []];
     logs := logs w; response := response w |}.

(** What the sanitiser does to the world: nothing but reading the base
    directory through [GetAbsolutePath] of the empty path. *)
Definition sanitizer_only (w w' : world) : Prop :=
  disk w' = disk w /\ logs w' = logs w /\ response w' = response w /\
  exists n, calls w' = calls w ++ repeat (CallGetAbsolutePath []) n.

(** A name that does not start with the hidden-file marker. *)
Definition visible (name : bytes) : bool :=
  negb (strings.HasPrefix name domain.HiddenFilePrefix).

(** A tree all of whose entries can be read, with the names of a real
    directory: ordinary names, no two equal in one directory. *)
Definition wf_entries (rec : os.node -> bool) : list (bytes * os.node) -> bool :=
  fix all (es : list (bytes * os.node)) : bool :=
    match es with
    | [] => true
    | (n, c) :: es' =>
        is_name n && negb (existsb (fun e => bytes_eqb (fst e) n) es') && rec c && all es'
    end.

Fixpoint wf_tree (nd : os.node) : bool :=
  match nd with
  | os.File _ => true
  | os.Bad _ => false
  | os.Dir es => wf_entries wf_tree es
  end.

(** The files below a node at [prefix] that no hidden name hides, with
    their paths, in the order of the walk. *)
Definition files_of_entries (rec : list bytes -> os.node -> list (bytes * bytes))
    (prefix : list bytes) : list (bytes * os.node) -> list (bytes * bytes) :=
  fix each (es : list (bytes * os.node)) : list (bytes * bytes) :=
    match es with
    | [] => []
    | (n, c) :: es' =>
        (if visible n then rec (prefix ++ [n]) c else []) ++ each es'
    end.

Fixpoint visible_files (prefix : list bytes) (nd : os.node) : list (bytes * bytes) :=
  match nd with
  | os.File data => [(strings.Join prefix "/", data)]
  | os.Dir es => files_of_entries visible_files prefix es
  | os.Bad _ => []
  end.

Definition add_entries (l : list (bytes * bytes)) (w : world) : world :=
  {| disk := disk w; calls := calls w; logs := logs w;
     response := {| http.Header := http.Header (response w);
                    http.served := http.served (response w);
                    http.archive := http.archive (response w) ++ l |} |}.

(** What the walk of the archive rooted at [abspath rs] does at a node
    found at [abspath (rs ++ cs)], by the name and the kind of the node:
    the visible files below it are added, a hidden directory is skipped. *)
Definition walked (rs : list bytes) (nd : os.node) : Prop :=
  forall (cs : list bytes) (w : world) (info : os.FileInfo),
    wf_tree nd = true -> names_ok cs ->
    os.resolve (disk w) (rs ++ cs) = inl nd ->
    os.IsDir info = os.is_dir nd ->
    (os.is_dir nd = false -> cs <> []) ->
    walk (usecases.zipWalkFunc (abspath rs)) (abspath (rs ++ cs)) info nd w =
    if visible (os.Name info) then (None, add_entries (visible_files cs nd) w)
    else (if os.is_dir nd then Some SkipDir else None, w).

(** An entry of a listing whose metadata can be read. *)
Definition info_ok (e : bytes * os.node) : Prop :=
  match snd e with
  | os.Bad _ => False
  | _ => True
  end.

(** The [DirEntry] of an entry, and the [FileInfo] that its [Info] gives. *)
Definition entry_of (e : bytes * os.node) : os.DirEntry :=
  {| os.entry_name := fst e; os.entry_node := snd e |}.

Definition info_of_entry (e : bytes * os.node) : os.FileInfo :=
  {| os.Name := fst e; os.IsDir := os.is_dir (snd e) |}.

Definition FileData_of_entry (e : bytes * os.node) : domain.FileData :=
  {| domain.Name := fst e; domain.IsDir := os.is_dir (snd e) |}.

End Spec.

(** ** Concrete configurations and worlds *)

Module Examples.
Import usecases.

Definition local : localstorage.LocalStorageService :=
  localstorage.NewLocalStorageService "/storage" 493.

Definition config_with (max : Z) : config.Config :=
  {| config.File :=
       {| config.MaxNameLength := max;
          config.DirPermissions := 493;
          config.ForbiddenExtensions := [".env"];
          config.ValidNameRegex := "^[\w\-. ]+$" |} |}.

(** The use case of the tests: base ["/storage"], names of word
    characters, hyphens, dots and spaces. *)
Definition uc_with (max : Z) : FileManagementUseCase :=
  NewFileManagementUseCase (fun _ => regexp.word_hyphen_dot_space) local (config_with max).

Definition uc255 : FileManagementUseCase := uc_with 255.

Definition uc4 : FileManagementUseCase := uc_with 4.

(** The same use case with the pattern written without its anchors. *)
Definition config_unanchored : config.Config :=
  {| config.File :=
       {| config.MaxNameLength := 255;
          config.DirPermissions := 493;
          config.ForbiddenExtensions := [".env"];
          config.ValidNameRegex := "[\w\-. ]+" |} |}.

Definition uc_unanchored : FileManagementUseCase :=
  NewFileManagementUseCase (fun _ => regexp.word_hyphen_dot_space_unanchored)
                           local config_unanchored.

Definition no_response : http.ResponseWriter :=
  {| http.Header := []; http.served := None; http.archive := [] |}.

Definition world_of (storage_dir : list (bytes * os.node)) : world :=
  {| disk := os.Dir [("storage", os.Dir storage_dir)];
     calls := []; logs := []; response := no_response |}.

(** A folder with a hidden file, a hidden directory with a file in it,
    two ordinary files, one of them in a directory. *)
Definition project : list (bytes * os.node) :=
  [ (".git", os.Dir [("config", os.File "[core]")]);
    (".hidden", os.File "secret");
    ("a.txt", os.File "A");
    ("sub", os.Dir [(".x", os.File "X"); ("b.txt", os.File "B")]) ].

Definition world_project : world := world_of [("project", os.Dir project)].

(** A listing with an entry whose metadata cannot be read. *)
Definition world_broken : world :=
  world_of [("docs", os.Dir [("a.txt", os.File "A"); ("link", os.Bad ENOENT);
                              ("sub", os.Dir [])])].

Definition world_empty : world := world_of [].

End Examples.

(** ** Notions for the properties of the operations *)

Module Checked.

Section Checked.

Context {S : Type} {storage_impl : FileStorage S}.
Variable uc : @usecases.FileManagementUseCase S.

(** A path as the sanitiser returns it: cleaned, and passing the three
    checks. *)
Definition sanitized (c : bytes) : bool :=
  bytes_eqb (filepath.Clean c) c
  && Spec.traversal_ok uc c && Spec.length_ok uc c && Spec.name_ok uc c.

(** A call of the storage interface on sanitised paths only; the
    sanitiser itself asks for the base directory with the empty path. *)
Definition call_ok (c : call) : bool :=
  match c with
  | CallGetAbsolutePath r => bytes_eqb r [] || sanitized r
  | CallReadDirectory r => sanitized r
  | CallWriteFile r _ => sanitized r
  | CallRemove r => sanitized r
  | CallMove o n => sanitized o && sanitized n
  | CallCreateDirectory r => sanitized r
  end.

(** The calls that a run from [w] to [w'] adds to the trace are calls on
    sanitised paths. *)
Definition traced (w w' : world) : Prop :=
  exists l, calls w' = calls w ++ l /\ forallb call_ok l = true.

End Checked.

(** The world once a call of the storage interface is recorded. *)
Definition called (c : call) (w : world) : world :=
  {| disk := disk w; calls := calls w ++ [c]; logs := logs w; response := response w |}.

(** Two paths, by their names, neither of which leads to the other. *)
Definition apart (a b : list bytes) : bool :=
  negb (os.is_prefix a b) && negb (os.is_prefix b a).

(** The file system, the trace of calls and the log are the same in both
    worlds: only the response may differ. *)
Definition same_store (w w' : world) : Prop :=
  disk w' = disk w /\ calls w' = calls w /\ logs w' = logs w.

End Checked.

(** ** The use cases as the HTTP handlers see them

    [domain.FileManagement]; the response writer and the request that
    [ServeFile] and [ServeFolderAsZip] receive are the response of the
    world. *)

Module management.

Class FileManagement (U : Type) := {
  List : U -> bytes -> M (Result (list domain.FileData));
  UploadFile : U -> bytes -> bytes -> M (option error);
  CreateFolder : U -> bytes -> M (option error);
  Delete : U -> bytes -> M (option error);
  Rename : U -> bytes -> bytes -> M (option error);
  ServeFile : U -> bytes -> M (option error);
  ServeFolderAsZip : U -> bytes -> M (option error)
}.

End management.

#[export] Instance UseCase_FileManagement {S : Type} {storage_impl : FileStorage S}
  : management.FileManagement (@usecases.FileManagementUseCase S) := {
  management.List := usecases.List;
  management.UploadFile := usecases.UploadFile;
  management.CreateFolder := usecases.CreateFolder;
  management.Delete := usecases.Delete;
  management.Rename := usecases.Rename;
  management.ServeFile := usecases.ServeFile;
  management.ServeFolderAsZip := usecases.ServeFolderAsZip
}.

(** ** The HTTP handlers (package [server]) *)

Module server.

Definition OperationUpload : bytes := "upload".
Definition OperationCreateFolder : bytes := "create_folder".
Definition OperationDelete : bytes := "delete".
Definition OperationRename : bytes := "rename".
Definition LogFileUploaded : bytes := "File uploaded".
Definition LogFolderCreated : bytes := "Folder created".
Definition LogFileOrFolderDeleted : bytes := "File or folder deleted".
Definition LogFileOrFolderRenamed : bytes := "File or folder renamed".
Definition QueryParamPath : bytes := "path".
Definition FormParamFile : bytes := "file".
Definition FormParamName : bytes := "name".
Definition FormParamOld : bytes := "old".
Definition FormParamNew : bytes := "new".
Definition FormParamPath : bytes := "path".
Definition RedirectPathTemplate : bytes := "/?path=".

(** The constants of [net/http] that the handlers use. *)
Definition MethodPost : bytes := "POST".
Definition StatusFound : Z := 302.
Definition StatusBadRequest : Z := 400.
Definition StatusForbidden : Z := 403.
Definition StatusNotFound : Z := 404.
Definition StatusInternalServerError : Z := 500.

(** [config.Messages]. *)
Record Messages := {
  CannotListDirectory : bytes;
  TemplateError : bytes;
  RenderError : bytes;
  ForbiddenFile : bytes;
  CannotServe : bytes;
  CannotDelete : bytes;
  InternalError : bytes
}.

(** The fields of a [multipart.FileHeader] that [Upload] reads. *)
Record FileHeader := { Filename : bytes; Size : Z }.

(** A request as the handlers read it: the method, the values of the
    query of the URL, the values that [FormValue] finds, the declared
    length of the body, and what [FormFile] returns for a key once the
    body is read through [http.MaxBytesReader] with a limit: the content
    of the file and its header. *)
Record Request := {
  Method : bytes;
  Query : list (bytes * bytes);
  Form : list (bytes * bytes);
  ContentLength : Z;
  FormFile : Z -> bytes -> Result (bytes * FileHeader)
}.

(** [Values.Get(key)] and [FormValue(key)]: the first value of the key,
    or the empty string. *)
Fixpoint Get (key : bytes) (values : list (bytes * bytes)) : bytes :=
  match values with
  | [] => []
  | (k, v) :: values' => if bytes_eqb k key then v else Get key values'
  end.

(** What a handler itself sends: [http.Error(w, error, code)],
    [http.Redirect(w, r, url, code)], or the output of a template. *)
Inductive written :=
| HttpError (error : bytes) (code : Z)
| HttpRedirect (url : bytes) (code : Z)
| Executed (output : bytes).

(** The lines that a handler logs: [logrus.WithFields(fields).Info(msg)],
    [logrus.Errorf] of [handleError] with its three arguments, and
    [logrus.Infoln(err)]. *)
Inductive log_event :=
| LogInfo (fields : list (bytes * fmt_arg)) (msg : bytes)
| LogError (httpStatus : Z) (clientMessage : bytes) (err : error)
| LogInfoln (err : error).

(** The state of an exchange: the world of the use cases, what the
    handler has sent and what it has logged. *)
Record exchange := {
  inner : world;
  sent : list written;
  journal : list log_event
}.

Definition lift {A : Type} (m : M A) (x : exchange) : A * exchange :=
  let (a, w') := m (inner x) in
  (a, {| inner := w'; sent := sent x; journal := journal x |}).

Definition send (r : written) (x : exchange) : exchange :=
  {| inner := inner x; sent := sent x ++ [r]; journal := journal x |}.

Definition logrus (e : log_event) (x : exchange) : exchange :=
  {| inner := inner x; sent := sent x; journal := journal x ++ [e] |}.

(** [browseData], the data of the template. *)
Record browseData := {
  Path : bytes;
  Parent : bytes;
  Files : list domain.FileData
}.

Inductive errorType :=
| errorTypeBadRequest
| errorTypeForbidden
| errorTypeNotFound
| errorTypeInternal.

(** [strings.ToLower] on a string of ASCII bytes; a string with a byte
    outside ASCII goes through [mapLower], which stands for
    [strings.Map(unicode.ToLower, s)]. *)
Definition lower_byte (c : ascii) : ascii :=
  let n := nat_of_ascii c in
  if (65 <=? n) && (n <=? 90) then ascii_of_nat (n + 32) else c.

Definition ToLower (mapLower : bytes -> bytes) (s : bytes) : bytes :=
  if forallb (fun c => nat_of_ascii c <? 128) s then map lower_byte s else mapLower s.

Section Handler.

Context {U : Type} {uc_impl : management.FileManagement U}.

(** The parts of the libraries that the handlers are given here: the
    lowering of a string that is not ASCII, and the template engine:
    [template.ParseFiles(name)] and [tmpl.Execute(w, data)], which gives
    the output it has written and its error. *)
Variable mapLower : bytes -> bytes.
Variable Template : Type.
Variable ParseFiles : bytes -> M (Result Template).
Variable Execute : Template -> browseData -> bytes * option error.

Record Handler := {
  uc : U;
  staticPath : bytes;
  templateFile : bytes;
  maxUploadSize : Z;
  forbiddenExt : list bytes;
  messages : Messages
}.

Definition NewHandler (uc : U) (staticPath templateFile : bytes)
    (forbidden : list bytes) (maxUploadSize : Z) (messages : Messages) : Handler :=
  {| uc := uc; staticPath := staticPath; templateFile := templateFile;
     maxUploadSize := maxUploadSize; forbiddenExt := forbidden; messages := messages |}.

Variable h : Handler.

Definition getPathFromQuery (r : Request) : bytes := Get QueryParamPath (Query r).

Definition normalizeParentPath (path : bytes) : bytes :=
  let parent := filepath.Dir path in
  if bytes_eqb parent domain.PathCurrent then domain.PathEmpty else parent.

Definition buildFullPath (currentPath name : bytes) : bytes :=
  if negb (bytes_eqb currentPath domain.PathEmpty) then filepath.Join [currentPath; name]
  else name.

Definition normalizePath (path : bytes) : bytes :=
  if bytes_eqb path domain.PathCurrent || bytes_eqb path domain.PathRoot
  then domain.PathEmpty else path.

Definition redirectToPath (path : bytes) (x : exchange) : exchange :=
  send (HttpRedirect (RedirectPathTemplate ++ normalizePath path) StatusFound) x.

(** The loop of [isForbidden] over the forbidden extensions. *)
Definition isForbidden (fileName : bytes) : bool :=
  let ext := ToLower mapLower (filepath.Ext fileName) in
  existsb (fun forbidden => bytes_eqb ext forbidden || strings.HasPrefix fileName forbidden)
          (forbiddenExt h).

Definition getErrorType (err : error) : errorType :=
  if errors.Is err ErrPathTraversal || errors.Is err ErrInvalidName
     || errors.Is err ErrPathTooLong then errorTypeBadRequest
  else if errors.Is err ErrUnsupportedOperation || errors.Is err ErrPermissionDenied
  then errorTypeForbidden
  else if errors.Is err ErrFileNotFound then errorTypeNotFound
  else errorTypeInternal.

Definition handleError (err : error) (message : bytes) (x : exchange) : exchange :=
  let (httpStatus, clientMessage) :=
    match getErrorType err with
    | errorTypeBadRequest => (StatusBadRequest, InternalError (messages h))
    | errorTypeForbidden => (StatusForbidden, ForbiddenFile (messages h))
    | errorTypeNotFound => (StatusNotFound, InternalError (messages h))
    | errorTypeInternal => (StatusInternalServerError, message)
    end in
  send (HttpError clientMessage httpStatus)
       (logrus (LogError httpStatus clientMessage err) x).

Definition handlePost (r : Request) (handler : exchange -> option error * exchange)
    (message : bytes) (x : exchange) : exchange :=
  if negb (bytes_eqb (Method r) MethodPost) then redirectToPath [] x
  else
    match handler x with
    | (Some err, x') => handleError err message x'
    | (None, x') => x'
    end.

Definition renderTemplate (data : browseData) (x : exchange) : exchange :=
  match lift (ParseFiles (filepath.Join [staticPath h; templateFile h])) x with
  | (Err parseErr, x1) =>
      send (HttpError (TemplateError (messages h)) StatusInternalServerError)
           (logrus (LogInfoln parseErr) x1)
  | (Ok tmpl, x1) =>
      let (output, executeErr) := Execute tmpl data in
      let x2 := send (Executed output) x1 in
      match executeErr with
      | Some e =>
          send (HttpError (RenderError (messages h)) StatusInternalServerError)
               (logrus (LogInfoln e) x2)
      | None => x2
      end
  end.

Definition Browse (r : Request) (x : exchange) : exchange :=
  let path := Get QueryParamPath (Query r) in
  match lift (management.List (uc h) path) x with
  | (Err err, x1) => handleError err (CannotListDirectory (messages h)) x1
  | (Ok files, x1) =>
      let parent :=
        if negb (bytes_eqb path domain.PathEmpty) then normalizePath (filepath.Dir path)
        else [] in
      renderTemplate {| Path := path; Parent := parent; Files := files |} x1
  end.

Definition sizeError (size : Z) : error :=
  Errorf "file size %d exceeds maximum %d: %w" [ArgD size; ArgD (maxUploadSize h)]
         (Sentinel ErrUnsupportedOperation).

Definition Upload (r : Request) (x : exchange) : exchange :=
  handlePost r (fun x =>
    if (ContentLength r >? maxUploadSize h)%Z then (Some (sizeError (ContentLength r)), x)
    else
      match FormFile r (maxUploadSize h) FormParamFile with
      | Err err => (Some (Errorf "failed to get form file: %w" [] err), x)
      | Ok (file, header) =>
          if (Size header >? maxUploadSize h)%Z then (Some (sizeError (Size header)), x)
          else if isForbidden (Filename header)
          then (Some (Sentinel ErrUnsupportedOperation), x)
          else
            let currentPath := Get FormParamPath (Form r) in
            let targetPath := buildFullPath currentPath (Filename header) in
            match lift (management.UploadFile (uc h) targetPath file) x with
            | (Some uploadErr, x1) => (Some uploadErr, x1)
            | (None, x1) =>
                (None,
                 redirectToPath currentPath
                   (logrus (LogInfo [("operation", ArgS OperationUpload);
                                      ("path", ArgS targetPath);
                                      ("size", ArgD (Size header))] LogFileUploaded) x1))
            end
      end) (InternalError (messages h)) x.

Definition CreateFolder (r : Request) (x : exchange) : exchange :=
  handlePost r (fun x =>
    let name := Get FormParamName (Form r) in
    let currentPath := Get FormParamPath (Form r) in
    let fullPath := buildFullPath currentPath name in
    match lift (management.CreateFolder (uc h) fullPath) x with
    | (Some err, x1) => (Some err, x1)
    | (None, x1) =>
        (None,
         redirectToPath currentPath
           (logrus (LogInfo [("operation", ArgS OperationCreateFolder);
                              ("path", ArgS fullPath)] LogFolderCreated) x1))
    end) (InternalError (messages h)) x.

Definition Delete (r : Request) (x : exchange) : exchange :=
  let path := getPathFromQuery r in
  match lift (management.Delete (uc h) path) x with
  | (Some err, x1) => handleError err (CannotDelete (messages h)) x1
  | (None, x1) =>
      redirectToPath (normalizeParentPath path)
        (logrus (LogInfo [("operation", ArgS OperationDelete); ("path", ArgS path)]
                         LogFileOrFolderDeleted) x1)
  end.

Definition Rename (r : Request) (x : exchange) : exchange :=
  handlePost r (fun x =>
    let oldPath := Get FormParamOld (Form r) in
    let newName := Get FormParamNew (Form r) in
    let parentPath := normalizeParentPath oldPath in
    let newFullPath := filepath.Join [parentPath; newName] in
    match lift (management.Rename (uc h) oldPath newFullPath) x with
    | (Some err, x1) => (Some err, x1)
    | (None, x1) =>
        (None,
         redirectToPath parentPath
           (logrus (LogInfo [("operation", ArgS OperationRename);
                              ("old_path", ArgS oldPath);
                              ("new_path", ArgS newFullPath)] LogFileOrFolderRenamed) x1))
    end) (InternalError (messages h)) x.

Definition serve (path : bytes) (isFolder : bool) (x : exchange) : exchange :=
  if isForbidden (filepath.Base path)
  then send (HttpError (ForbiddenFile (messages h)) StatusForbidden) x
  else
    match lift (if isFolder then management.ServeFolderAsZip (uc h) path
                else management.ServeFile (uc h) path) x with
    | (Some err, x1) => handleError err (CannotServe (messages h)) x1
    | (None, x1) => x1
    end.

Definition Download (r : Request) (x : exchange) : exchange :=
  serve (getPathFromQuery r) false x.

Definition DownloadFolder (r : Request) (x : exchange) : exchange :=
  serve (getPathFromQuery r) true x.

(** The exchange once the error [err] is answered with [code] and
    [message] in the world [w]: the line of the log and the reply. *)
Definition answered (w : world) (code : Z) (message : bytes) (err : error)
    (x : exchange) : exchange :=
  {| inner := w;
     sent := sent x ++ [HttpError message code];
     journal := journal x ++ [LogError code message err] |}.

End Handler.

End server.

(** A handler over the use case of the tests, with the messages of the
    tests of the handlers. *)
Module ServerExamples.

Definition messages : server.Messages :=
  {| server.CannotListDirectory := "Cannot list";
     server.TemplateError := "Template error";
     server.RenderError := "Render error";
     server.ForbiddenFile := "Forbidden";
     server.CannotServe := "Cannot serve";
     server.CannotDelete := "Cannot delete";
     server.InternalError := "Internal error" |}.

Definition handler : @server.Handler (@usecases.FileManagementUseCase _) :=
  server.NewHandler Examples.uc255 "/static" "index.html" [".env"] 1048576 messages.

(** A request with a method, a query and a form, and no file. *)
Definition request (method : bytes) (query form : list (bytes * bytes)) : server.Request :=
  {| server.Method := method; server.Query := query; server.Form := form;
     server.ContentLength := 0;
     server.FormFile := fun _ _ => Err (New "http: no such file") |}.

(** A request that uploads one file. *)
Definition upload (name content : bytes) (form : list (bytes * bytes)) : server.Request :=
  {| server.Method := "POST"; server.Query := []; server.Form := form;
     server.ContentLength := len content;
     server.FormFile := fun _ _ =>
       Ok (content, {| server.Filename := name; server.Size := len content |}) |}.

Definition start (w : world) : server.exchange :=
  {| server.inner := w; server.sent := []; server.journal := [] |}.

(** No string of the examples leaves ASCII. *)
Definition mapLower (s : bytes) : bytes := s.

End ServerExamples.

(** ** The validation of the configuration (package [config])

    The whole [Config] as [LoadConfigWithError] validates it; the routes
    are not validated. *)

Module validation.

Record ServerConfig := { Port : Z; MaxUploadSize : Z }.

Record StorageConfig := { BasePath : bytes }.

Record StaticConfig := { Path : bytes; TemplateFile : bytes }.

Record Config := {
  Server : ServerConfig;
  Storage : StorageConfig;
  Static : StaticConfig;
  File : config.FileConfig;
  Messages : server.Messages
}.

(** [fmt.Sprintf("%d", n)]. *)
Definition itoa (n : Z) : bytes :=
  String.list_ascii_of_string (DecimalString.NilZero.string_of_int (Z.to_int n)).

(** A [validationError] by its [Error()]: the field, a colon and the
    message. *)
Definition validationError (field msg : bytes) : error := New (field ++ ": " ++ msg).

Definition validateRequiredString (field value : bytes) : option error :=
  if bytes_eqb value [] then Some (validationError field "is required") else None.

Definition validatePositiveInt64 (field : bytes) (value : Z) : option error :=
  if (value <=? 0)%Z then Some (validationError field "must be greater than 0") else None.

Definition validatePort (port : Z) : option error :=
  if (port <=? 0)%Z || (port >? 65535)%Z
  then Some (validationError "server.port"
               ("must be between 1 and 65535, got " ++ itoa port))
  else None.

(** The loop of [validateConfig]: the first error of the validators. *)
Fixpoint first_error (validators : list (unit -> option error)) : option error :=
  match validators with
  | [] => None
  | v :: rest =>
      match v tt with
      | Some err => Some err
      | None => first_error rest
      end
  end.

Definition validateConfig (cfg : Config) : option error :=
  first_error
    [ (fun _ => validateRequiredString "storage.base_path" (BasePath (Storage cfg)));
      (fun _ => validateRequiredString "static.path" (Path (Static cfg)));
      (fun _ => validateRequiredString "static.template_file" (TemplateFile (Static cfg)));
      (fun _ => validateRequiredString "file.valid_name_regex"
                  (config.ValidNameRegex (File cfg)));
      (fun _ => validatePort (Port (Server cfg)));
      (fun _ => validatePositiveInt64 "server.max_upload_size" (MaxUploadSize (Server cfg)));
      (fun _ => config.validatePositiveInt "file.max_name_length"
                  (config.MaxNameLength (File cfg))) ].

End validation.

(** * Properties *)

(** ** Byte strings *)

Lemma bytes_eqb_eq (a b : bytes) : bytes_eqb a b = true <-> a = b.
Proof.
  unfold bytes_eqb. destruct (list_eq_dec ascii_dec a b); split; congruence.
Qed.

Lemma bytes_eqb_neq (a b : bytes) : bytes_eqb a b = false <-> a <> b.
Proof.
  unfold bytes_eqb. destruct (list_eq_dec ascii_dec a b); split; congruence.
Qed.

Lemma bytes_eqb_refl (a : bytes) : bytes_eqb a a = true.
Proof. now apply bytes_eqb_eq. Qed.


(** ** Elements, [Clean] and [Rel] *)

Module PathFacts.
Import filepath PathTheory.

Lemma sep_true (c : ascii) : IsPathSeparator c = true <-> c = Separator.
Proof. unfold IsPathSeparator. apply Ascii.eqb_eq. Qed.

Lemma element_after (s : bytes) : element s ++ after_element s = s.
Proof.
  induction s as [|c s IH]; simpl; [reflexivity|].
  destruct (IsPathSeparator c); simpl; [reflexivity | now rewrite IH].
Qed.

Lemma element_sepfree (s : bytes) : sepfree (element s) = true.
Proof.
  induction s as [|c s IH]; simpl; [reflexivity|].
  destruct (IsPathSeparator c) eqn:E; simpl; [reflexivity|].
  now rewrite E, IH.
Qed.

Lemma after_element_boundary (s : bytes) : at_end_or_sep (after_element s) = true.
Proof.
  induction s as [|c s IH]; simpl; [reflexivity|].
  destruct (IsPathSeparator c) eqn:E; simpl; [exact E | exact IH].
Qed.

Lemma after_element_length (s : bytes) : length (after_element s) <= length s.
Proof.
  induction s as [|c s IH]; simpl; [lia|].
  destruct (IsPathSeparator c); simpl; lia.
Qed.

Lemma element_nil_iff (s : bytes) : element s = [] <-> at_end_or_sep s = true.
Proof.
  destruct s as [|c s]; simpl; [tauto|].
  destruct (IsPathSeparator c); split; congruence.
Qed.

Lemma element_app (e r : bytes) :
  sepfree e = true -> at_end_or_sep r = true ->
  element (e ++ r) = e /\ after_element (e ++ r) = r.
Proof.
  induction e as [|c e IH]; simpl; intros He Hr.
  - destruct r as [|c r]; simpl in *; [auto|]. now rewrite Hr.
  - apply andb_prop in He as [Hc He]. apply negb_true_iff in Hc. rewrite Hc.
    destruct (IH He Hr) as [-> ->]. auto.
Qed.

Lemma split_unfold (s : bytes) :
  split s = element s :: match after_element s with [] => [] | _ :: r => split r end.
Proof.
  induction s as [|c s IH]; simpl; [reflexivity|].
  destruct (IsPathSeparator c); [reflexivity|]. now rewrite IH.
Qed.

Lemma split_app (a b : bytes) : split (a ++ Separator :: b) = split a ++ split b.
Proof.
  induction a as [|c a IH]; simpl; [reflexivity|].
  destruct (IsPathSeparator c); simpl; [now rewrite IH|].
  rewrite IH. rewrite (split_unfold a). reflexivity.
Qed.

Lemma split_sepfree (s : bytes) : Forall (fun e => sepfree e = true) (split s).
Proof.
  induction s as [|c s IH]; simpl; [repeat constructor|].
  destruct (IsPathSeparator c) eqn:E; [constructor; [reflexivity | exact IH]|].
  destruct (split s) as [|e tl]; [repeat constructor; simpl; now rewrite E|].
  inversion IH; subst. constructor; [simpl; rewrite E; assumption | assumption].
Qed.

(** *** Names *)

Lemma is_name_inv (e : bytes) :
  is_name e = true -> e <> [] /\ e <> "." /\ e <> ".." /\ sepfree e = true.
Proof.
  unfold is_name. intros H.
  apply andb_prop in H as [H H4]. apply andb_prop in H as [H H3].
  apply andb_prop in H as [H1 H2].
  apply negb_true_iff, bytes_eqb_neq in H1, H2, H3. auto.
Qed.

Lemma is_name_intro (e : bytes) :
  e <> [] -> e <> "." -> e <> ".." -> sepfree e = true -> is_name e = true.
Proof.
  intros H1 H2 H3 H4. unfold is_name.
  apply bytes_eqb_neq in H1, H2, H3. now rewrite H1, H2, H3, H4.
Qed.

Lemma step_name (rooted : bool) (st : list bytes) (e : bytes) :
  is_name e = true -> step rooted st e = e :: st.
Proof.
  intros H. destruct (is_name_inv _ H) as (H1 & H2 & H3 & _).
  apply bytes_eqb_neq in H1, H2, H3. unfold step. now rewrite H1, H2, H3.
Qed.

Lemma step_empty (rooted : bool) (st : list bytes) : step rooted st [] = st.
Proof. reflexivity. Qed.

Lemma step_dot (rooted : bool) (st : list bytes) : step rooted st "." = st.
Proof. reflexivity. Qed.

Lemma norm_names (rooted : bool) (ns st : list bytes) :
  names_ok ns -> norm rooted ns st = rev ns ++ st.
Proof.
  unfold norm. revert st. induction ns as [|n ns IH]; intros st H; simpl; [reflexivity|].
  inversion H; subst. rewrite step_name by assumption. rewrite IH by assumption.
  now rewrite <- app_assoc.
Qed.

Lemma norm_app (rooted : bool) (a b st : list bytes) :
  norm rooted (a ++ b) st = norm rooted b (norm rooted a st).
Proof. unfold norm. apply fold_left_app. Qed.

(** *** The output buffer *)

Lemma out_of_cons_length (rooted : bool) (e : bytes) (st : list bytes) :
  length (out_of rooted (e :: st)) >= length e + length (out_of rooted st).
Proof.
  simpl. rewrite !length_app, length_rev. lia.
Qed.

Lemma out_of_app_length (rooted : bool) (a b : list bytes) :
  length (out_of rooted b) <= length (out_of rooted (a ++ b)).
Proof.
  induction a as [|e a IH]; [simpl; lia|].
  change ((e :: a) ++ b) with (e :: (a ++ b)).
  pose proof (out_of_cons_length rooted e (a ++ b)). lia.
Qed.

Lemma out_of_nil_length (rooted : bool) :
  length (out_of rooted []) = if rooted then 1 else 0.
Proof. now destruct rooted. Qed.

Lemma out_of_grow (rooted : bool) (e : bytes) (a b : list bytes) :
  e <> [] -> length (out_of rooted b) < length (out_of rooted (e :: a ++ b)).
Proof.
  intros He. pose proof (out_of_cons_length rooted e (a ++ b)).
  pose proof (out_of_app_length rooted a b).
  destruct e; [congruence|]. simpl length in *. lia.
Qed.

(** *** The loop of [Clean] computes the fold over the elements *)

Lemma sepfree_Forall (e : bytes) : sepfree e = true <-> Forall nonsep e.
Proof.
  unfold sepfree, nonsep. rewrite forallb_forall, Forall_forall.
  split; intros H c Hc; specialize (H c Hc).
  - now apply negb_true_iff in H.
  - now apply negb_true_iff.
Qed.

Lemma backtrack_sep (dotdot : nat) (cs base : list ascii) (c : ascii) :
  Forall nonsep (c :: cs) -> dotdot <= length base ->
  backtrack dotdot c (cs ++ Separator :: base) = base.
Proof.
  revert c. induction cs as [|c2 cs IH]; intros c Hc Hd; inversion Hc; subst.
  - simpl app. cbn [backtrack].
    replace (dotdot <? length (Separator :: base)) with true
      by (symmetry; apply Nat.ltb_lt; simpl; lia).
    unfold nonsep in *. rewrite H1. simpl.
    destruct base as [|c' base']; [reflexivity|].
    cbn [backtrack]. rewrite andb_false_r. reflexivity.
  - simpl app. cbn [backtrack].
    replace (dotdot <? length (c2 :: cs ++ Separator :: base)) with true
      by (symmetry; apply Nat.ltb_lt; simpl; rewrite length_app; simpl; lia).
    unfold nonsep in H1. rewrite H1. simpl. apply IH; assumption.
Qed.

Lemma backtrack_stop (cs base : list ascii) (c : ascii) :
  Forall nonsep (c :: cs) ->
  backtrack (length base) c (cs ++ base) = base.
Proof.
  revert c. induction cs as [|c2 cs IH]; intros c Hc; inversion Hc; subst.
  - simpl app. destruct base as [|c' base']; [reflexivity|].
    cbn [backtrack]. rewrite Nat.ltb_irrefl. reflexivity.
  - simpl app. cbn [backtrack].
    replace (length base <? length (c2 :: cs ++ base)) with true
      by (symmetry; apply Nat.ltb_lt; simpl; rewrite length_app; lia).
    unfold nonsep in H1. rewrite H1. simpl. apply IH; assumption.
Qed.

(** Popping the top name of the stack is what [backtrack] does to the buffer. *)
Lemma backtrack_pop (rooted : bool) (n : bytes) (ns : list bytes) (k : nat) :
  is_name n = true -> (rooted = true -> k = 0) ->
  match out_of rooted (n :: ns ++ dots k) with
  | c0 :: out' => backtrack (length (out_of rooted (dots k))) c0 out'
  | [] => []
  end = out_of rooted (ns ++ dots k).
Proof.
  intros Hn Hk. destruct (is_name_inv _ Hn) as (Hne & _ & _ & Hsf).
  apply sepfree_Forall in Hsf.
  assert (Hrev : Forall nonsep (rev n)) by now apply Forall_rev.
  cbn [out_of]. destruct (rev n) as [|c0 cs] eqn:Er.
  { apply (f_equal (@rev ascii)) in Er. rewrite rev_involutive in Er. now subst. }
  simpl app. destruct (ns ++ dots k) as [|e st'] eqn:Est.
  - simpl app.
    assert (k = 0) as -> by (destruct ns; [destruct k|]; unfold dots in Est; simpl in Est; congruence).
    apply backtrack_stop. assumption.
  - rewrite <- Est. simpl app. apply backtrack_sep; [assumption|].
    apply out_of_app_length.
Qed.

Lemma out_of_dots_push (k : nat) :
  ("."%char :: "."%char ::
     (if 0 <? length (out_of false (dots k)) then Separator :: out_of false (dots k)
      else out_of false (dots k)))
  = out_of false (dots (S k)).
Proof.
  destruct k as [|k]; [reflexivity|].
  change (dots (S (S k))) with (".." :: dots (S k)).
  cbn [out_of]. change (dots (S k)) with (".." :: dots k).
  replace (0 <? length (out_of false (".." :: dots k))) with true; [reflexivity|].
  symmetry. apply Nat.ltb_lt. cbn [out_of]. rewrite length_app. simpl. lia.
Qed.

Lemma out_of_push (rooted : bool) (e : bytes) (ns : list bytes) (k : nat) :
  names_ok ns ->
  rev e ++
    (if (rooted && negb (length (out_of rooted (ns ++ dots k)) =? 1))
        || (negb rooted && negb (length (out_of rooted (ns ++ dots k)) =? 0))
     then Separator :: out_of rooted (ns ++ dots k)
     else out_of rooted (ns ++ dots k))
  = out_of rooted (e :: ns ++ dots k).
Proof.
  intros Hns. cbn [out_of]. f_equal.
  destruct (ns ++ dots k) as [|e' st'] eqn:Est.
  - destruct rooted; reflexivity.
  - assert (He' : e' <> []).
    { destruct ns as [|n ns'].
      - destruct k; unfold dots in Est; simpl in Est; [congruence|]. injection Est as <- _. discriminate.
      - injection Est as <- _. inversion Hns; subst.
        now destruct (is_name_inv _ H1). }
    pose proof (out_of_cons_length rooted e' st') as Hl.
    assert (length (out_of rooted st') >= if rooted then 1 else 0).
    { pose proof (out_of_app_length rooted st' []) as H0.
      rewrite app_nil_r, out_of_nil_length in H0. exact H0. }
    assert (length e' > 0) by (destruct e'; [congruence | simpl; lia]).
    remember (out_of rooted (e' :: st')) as X eqn:EX in *. clear EX.
    destruct rooted; cbn [andb orb negb].
    + rewrite orb_false_r.
      destruct (Nat.eqb_spec (length X) 1); [lia | reflexivity].
    + destruct (Nat.eqb_spec (length X) 0); [lia | reflexivity].
Qed.

Lemma norm_split_boundary (rooted : bool) (p : bytes) (st : list bytes) :
  at_end_or_sep p = true ->
  norm rooted (split p) st
  = norm rooted (match p with [] => [] | _ :: r => split r end) st.
Proof.
  destruct p as [|c r]; simpl; intros H; [reflexivity|]. now rewrite H.
Qed.

(** The fold consumes the first element and goes on after it. *)
Lemma norm_split_cons (rooted : bool) (path : bytes) (st : list bytes) :
  norm rooted (split path) st
  = norm rooted (split (after_element path)) (step rooted st (element path)).
Proof.
  rewrite (split_unfold path).
  rewrite (norm_split_boundary rooted _ _ (after_element_boundary path)).
  reflexivity.
Qed.

Lemma clean_loop_nil (fuel : nat) (rooted : bool) (out : list ascii) (dotdot : nat) :
  clean_loop fuel rooted [] out dotdot = out.
Proof. now destruct fuel. Qed.

Lemma step_dotdot_dots (k : nat) : step false (dots k) ".." = dots (S k).
Proof. destruct k; reflexivity. Qed.

Lemma step_dotdot_pop (rooted : bool) (n : bytes) (st : list bytes) :
  is_name n = true -> step rooted (n :: st) ".." = st.
Proof.
  intros H. destruct (is_name_inv _ H) as (_ & _ & H3 & _).
  apply bytes_eqb_neq in H3. unfold step. simpl. now rewrite H3.
Qed.

Lemma clean_loop_norm (rooted : bool) (fuel : nat) :
  forall (path : bytes) (ns : list bytes) (k : nat),
    length path <= fuel -> names_ok ns -> (rooted = true -> k = 0) ->
    exists ns' k',
      names_ok ns' /\ (rooted = true -> k' = 0) /\
      norm rooted (split path) (ns ++ dots k) = ns' ++ dots k' /\
      clean_loop fuel rooted path (out_of rooted (ns ++ dots k))
                 (length (out_of rooted (dots k)))
      = out_of rooted (ns' ++ dots k').
Proof.
  induction fuel as [|fuel IH]; intros path ns k Hlen Hns Hk.
  { destruct path; [|simpl in Hlen; lia]. exists ns, k. repeat split; auto. }
  destruct path as [|c path1].
  { exists ns, k. repeat split; auto. }
  simpl in Hlen. cbn [clean_loop].
  destruct (IsPathSeparator c) eqn:Ec.
  { (* empty path element *)
    destruct (IH path1 ns k) as (ns' & k' & H1 & H2 & H3 & H4); [lia|auto|auto|].
    exists ns', k'. repeat split; auto.
    simpl split. rewrite Ec. exact H3. }
  destruct (Ascii.eqb c "." && at_end_or_sep path1) eqn:Edot.
  { (* . element *)
    apply andb_prop in Edot as [Hc Hp]. apply Ascii.eqb_eq in Hc. subst c.
    destruct (IH path1 ns k) as (ns' & k' & H1 & H2 & H3 & H4); [lia|auto|auto|].
    exists ns', k'. repeat split; auto.
    rewrite norm_split_cons.
    assert (He : element ("."%char :: path1) = ".").
    { simpl. now apply element_nil_iff in Hp as ->. }
    assert (Ha : after_element ("."%char :: path1) = path1).
    { simpl. destruct path1 as [|c1 p]; simpl in *; [reflexivity | now rewrite Hp]. }
    rewrite He, Ha, step_dot. exact H3. }
  destruct (Ascii.eqb c "." &&
            match path1 with
            | c1 :: path2 => Ascii.eqb c1 "." && at_end_or_sep path2
            | [] => false
            end) eqn:Edd.
  { (* .. element *)
    apply andb_prop in Edd as [Hc Hp]. apply Ascii.eqb_eq in Hc. subst c.
    destruct path1 as [|c1 path2]; [discriminate|].
    apply andb_prop in Hp as [Hc1 Hp]. apply Ascii.eqb_eq in Hc1. subst c1.
    cbn [tl]. simpl in Hlen.
    assert (He : element ("."%char :: "."%char :: path2) = "..").
    { simpl. now apply element_nil_iff in Hp as ->. }
    assert (Ha : after_element ("."%char :: "."%char :: path2) = path2).
    { simpl. destruct path2 as [|c2 p]; simpl in *; [reflexivity | now rewrite Hp]. }
    rewrite norm_split_cons, He, Ha.
    destruct ns as [|n ns0].
    - (* cannot backtrack *)
      simpl app. rewrite Nat.ltb_irrefl.
      destruct rooted.
      + rewrite (Hk eq_refl) in *. cbn [negb].
        destruct (IH path2 [] 0) as (ns' & k' & H1 & H2 & H3 & H4); [lia|auto|auto|].
        exists ns', k'. repeat split; auto.
      + cbn [negb]. rewrite out_of_dots_push, step_dotdot_dots.
        destruct (IH path2 [] (S k)) as (ns' & k' & H1 & H2 & H3 & H4);
          [lia|constructor|discriminate|].
        exists ns', k'. repeat split; auto.
    - (* can backtrack *)
      inversion Hns as [|? ? Hn Hns0]; subst.
      replace (length (out_of rooted (dots k))
               <? length (out_of rooted ((n :: ns0) ++ dots k))) with true.
      2:{ symmetry. apply Nat.ltb_lt. apply out_of_grow.
          now destruct (is_name_inv _ Hn). }
      change ((n :: ns0) ++ dots k) with (n :: ns0 ++ dots k).
      rewrite backtrack_pop, step_dotdot_pop by assumption.
      destruct (IH path2 ns0 k) as (ns' & k' & H1 & H2 & H3 & H4); [lia|auto|auto|].
      exists ns', k'. repeat split; auto. }
  (* real path element *)
  set (path := c :: path1) in *.
  assert (Hname : is_name (element path) = true).
  { apply is_name_intro.
    - subst path. simpl. rewrite Ec. discriminate.
    - subst path. simpl. rewrite Ec. intros E. injection E as -> E.
      apply element_nil_iff in E. simpl in Edot. congruence.
    - subst path. simpl. rewrite Ec. intros E. injection E as -> E.
      destruct path1 as [|c1 path2]; [discriminate|]. simpl in E.
      destruct (IsPathSeparator c1) eqn:Ec1; [discriminate|].
      injection E as -> E. apply element_nil_iff in E.
      simpl in Edd. congruence.
    - apply element_sepfree. }
  rewrite out_of_push by assumption.
  rewrite norm_split_cons, step_name by assumption.
  destruct (IH (after_element path) (element path :: ns) k)
    as (ns' & k' & H1 & H2 & H3 & H4); [| constructor; assumption | auto |].
  { pose proof (after_element_length path1). subst path. simpl. rewrite Ec. lia. }
  exists ns', k'. repeat split; auto.
Qed.

(** *** [Clean] as a fold *)

Lemma Join_snoc (l : list bytes) (e s : bytes) :
  l <> [] -> strings.Join (l ++ [e]) s = strings.Join l s ++ s ++ e.
Proof.
  induction l as [|a l IH]; intros Hl; [congruence|].
  destruct l as [|b l]; [reflexivity|].
  change (strings.Join ((a :: b :: l) ++ [e]) s)
    with (a ++ s ++ strings.Join ((b :: l) ++ [e]) s).
  rewrite IH by discriminate.
  change (strings.Join (a :: b :: l) s) with (a ++ s ++ strings.Join (b :: l) s).
  now rewrite <- !app_assoc.
Qed.

Lemma Join_cons (a : bytes) (l : list bytes) (s : bytes) :
  l <> [] -> strings.Join (a :: l) s = a ++ s ++ strings.Join l s.
Proof. destruct l; [congruence | reflexivity]. Qed.

Lemma rev_out_of (rooted : bool) (st : list bytes) :
  rev (out_of rooted st)
  = (if rooted then [Separator] else []) ++ strings.Join (rev st) "/".
Proof.
  induction st as [|e st IH]; [destruct rooted; reflexivity|].
  cbn [out_of]. rewrite !rev_app_distr, rev_involutive, IH.
  destruct st as [|e' st'].
  - simpl. destruct rooted; reflexivity.
  - cbn [rev]. rewrite (@Join_snoc (rev st' ++ [e'])).
    + simpl. now rewrite <- !app_assoc.
    + destruct (rev st'); discriminate.
Qed.

Lemma Clean_norm (path : bytes) :
  exists ns k,
    names_ok ns /\ (slashed path = true -> k = 0) /\
    norm (slashed path) (split path) [] = ns ++ dots k /\
    Clean path = if length (out_of (slashed path) (ns ++ dots k)) =? 0 then "."
                 else rev (out_of (slashed path) (ns ++ dots k)).
Proof.
  destruct path as [|c path1].
  { exists [], 0. repeat split; auto. constructor. }
  unfold Clean. cbn [slashed]. fold (IsPathSeparator c).
  destruct (IsPathSeparator c) eqn:Ec.
  - destruct (@clean_loop_norm true (length (c :: path1)) path1 [] 0)
      as (ns & k & H1 & H2 & H3 & H4); [simpl; lia | constructor | auto |].
    exists ns, k. repeat split; auto.
    + simpl split. rewrite Ec. exact H3.
    + simpl app in H4. simpl out_of in H4. simpl length in H4 at 2.
      now rewrite H4.
  - destruct (@clean_loop_norm false (length (c :: path1)) (c :: path1) [] 0)
      as (ns & k & H1 & H2 & H3 & H4); [lia | constructor | auto |].
    exists ns, k. repeat split; auto.
    simpl app in H4. simpl out_of in H4. simpl length in H4 at 2.
    now rewrite H4.
Qed.

Lemma out_of_rooted_length (st : list bytes) : length (out_of true st) <> 0.
Proof.
  pose proof (out_of_app_length true st []) as H.
  rewrite app_nil_r in H. simpl in H. lia.
Qed.

(** A cleaned rooted path is the separator followed by names. *)
Lemma Clean_rooted (p : bytes) :
  slashed p = true ->
  exists ns, names_ok ns /\ norm true (split p) [] = rev ns /\ Clean p = abspath ns.
Proof.
  intros Hp. destruct (Clean_norm p) as (ns & k & H1 & H2 & H3 & H4).
  rewrite Hp in *. rewrite (H2 eq_refl) in *. simpl dots in *. rewrite app_nil_r in *.
  exists (rev ns). split; [now apply Forall_rev|].
  rewrite rev_involutive. split; [assumption|].
  rewrite H4. destruct (Nat.eqb_spec (length (out_of true ns)) 0) as [E|_].
  - now apply out_of_rooted_length in E.
  - now rewrite rev_out_of.
Qed.

Lemma names_sepfree (ns : list bytes) :
  names_ok ns -> Forall (fun e => sepfree e = true) ns.
Proof.
  intros H. eapply Forall_impl; [|exact H]. intros e He.
  now destruct (is_name_inv _ He) as (_ & _ & _ & ?).
Qed.

Lemma split_sepfree_id (e : bytes) : sepfree e = true -> split e = [e].
Proof.
  induction e as [|c e IH]; simpl; intros H; [reflexivity|].
  apply andb_prop in H as [Hc He]. apply negb_true_iff in Hc.
  rewrite Hc, (IH He). reflexivity.
Qed.

Lemma split_Join (ns : list bytes) :
  ns <> [] -> Forall (fun e => sepfree e = true) ns ->
  split (strings.Join ns "/") = ns.
Proof.
  induction ns as [|n ns IH]; intros Hne Hs; [congruence|].
  inversion Hs; subst. destruct ns as [|m ns]; [now apply split_sepfree_id|].
  rewrite Join_cons by discriminate.
  change (n ++ "/" ++ strings.Join (m :: ns) "/")
    with (n ++ Separator :: strings.Join (m :: ns) "/").
  rewrite split_app, IH by (assumption || discriminate).
  now rewrite split_sepfree_id.
Qed.

Lemma norm_abspath (ns : list bytes) :
  names_ok ns -> norm true (split (abspath ns)) [] = rev ns.
Proof.
  intros H. unfold abspath. simpl split.
  destruct ns as [|n ns]; [reflexivity|].
  rewrite split_Join by (discriminate || now apply names_sepfree).
  change (norm true ([] :: n :: ns) []) with (norm true (n :: ns) []).
  rewrite norm_names by assumption. apply app_nil_r.
Qed.

Lemma abspath_slashed (ns : list bytes) : slashed (abspath ns) = true.
Proof. reflexivity. Qed.

(** [Clean] is the identity on cleaned rooted paths. *)
Lemma Clean_abspath (ns : list bytes) :
  names_ok ns -> Clean (abspath ns) = abspath ns.
Proof.
  intros H. destruct (Clean_rooted (abspath ns) eq_refl) as (ms & _ & Hn & ->).
  rewrite norm_abspath in Hn by assumption.
  apply (f_equal (@rev bytes)) in Hn. rewrite !rev_involutive in Hn. now subst.
Qed.

Lemma norm_shape (q : bytes) : forall st,
  names_ok st -> names_ok (norm true (split q) st).
Proof.
  intros st Hst.
  assert (G : forall es st, Forall (fun e => sepfree e = true) es ->
                     names_ok st -> names_ok (norm true es st)).
  { clear. induction es as [|e es IH]; intros st Hes Hst; [exact Hst|].
    inversion Hes; subst. apply IH; [assumption|].
    unfold step.
    destruct (bytes_eqb e []) eqn:E1; [exact Hst|].
    destruct (bytes_eqb e ".") eqn:E2; [exact Hst|]. cbn [orb].
    destruct (bytes_eqb e "..") eqn:E3.
    - destruct st as [|top st']; [constructor|].
      inversion Hst; subst.
      destruct (bytes_eqb top ".."); [exact Hst | assumption].
    - constructor; [|exact Hst].
      apply bytes_eqb_neq in E1, E2, E3. now apply is_name_intro. }
  apply G; [apply split_sepfree | exact Hst].
Qed.

(** Cleaning a cleaned rooted path extended by [q]. *)
Lemma Clean_abspath_app (ns : list bytes) (q : bytes) :
  names_ok ns ->
  exists ms, names_ok ms /\ norm true (split q) (rev ns) = rev ms /\
             Clean (abspath ns ++ Separator :: q) = abspath ms.
Proof.
  intros H.
  destruct (Clean_rooted (abspath ns ++ Separator :: q) eq_refl) as (ms & Hms & Hn & Hc).
  exists ms. repeat split; try assumption.
  rewrite split_app, norm_app, norm_abspath in Hn by assumption. exact Hn.
Qed.

Lemma Clean_abspath_name (ns : list bytes) (n : bytes) :
  names_ok ns -> is_name n = true ->
  Clean (abspath ns ++ Separator :: n) = abspath (ns ++ [n]).
Proof.
  intros H Hn. destruct (Clean_abspath_app n H) as (ms & _ & Hm & ->).
  destruct (is_name_inv _ Hn) as (_ & _ & _ & Hs).
  rewrite split_sepfree_id in Hm by assumption.
  unfold norm in Hm. simpl in Hm. rewrite step_name in Hm by assumption.
  apply (f_equal (@rev bytes)) in Hm. rewrite rev_involutive in Hm.
  simpl in Hm. rewrite rev_involutive in Hm. now subst.
Qed.

Lemma Clean_abspath_dot (ns : list bytes) :
  names_ok ns -> Clean (abspath ns ++ Separator :: ".") = abspath ns.
Proof.
  intros H. destruct (Clean_abspath_app "." H) as (ms & _ & Hm & ->).
  change (norm true (split ".") (rev ns)) with (rev ns) in Hm.
  apply (f_equal (@rev bytes)) in Hm. rewrite !rev_involutive in Hm. now subst.
Qed.

(** Cleaning the base first does not change the result of a join. *)
Lemma Clean_app_Clean (a q : bytes) :
  slashed a = true ->
  Clean (a ++ Separator :: q) = Clean (Clean a ++ Separator :: q).
Proof.
  intros Ha. destruct (Clean_rooted a Ha) as (ns & Hns & Hn & ->).
  destruct (Clean_abspath_app q Hns) as (ms & _ & Hm & ->).
  assert (Hs : slashed (a ++ Separator :: q) = true)
    by (destruct a; [discriminate | exact Ha]).
  destruct (Clean_rooted _ Hs) as (ms' & _ & Hn' & ->).
  rewrite split_app, norm_app, Hn, Hm in Hn'.
  apply (f_equal (@rev bytes)) in Hn'. rewrite !rev_involutive in Hn'. now subst.
Qed.

Lemma IsAbs_slashed (p : bytes) : IsAbs p = slashed p.
Proof.
  destruct p as [|c p]; [reflexivity|]. unfold IsAbs. cbn [strings.HasPrefix slashed].
  apply andb_true_r.
Qed.

Lemma Join_not_slashed (l : list bytes) :
  Forall headok l -> slashed (strings.Join l "/") = false.
Proof.
  intros H. destruct l as [|e l]; [reflexivity|]. inversion H; subst.
  destruct e as [|c e]; [contradiction|].
  destruct l; simpl; assumption.
Qed.

Lemma name_headok (e : bytes) : is_name e = true -> headok e.
Proof.
  intros H. destruct (is_name_inv _ H) as (H1 & _ & _ & H4).
  destruct e as [|c e]; [congruence|]. simpl in *.
  apply andb_prop in H4 as [H4 _]. now apply negb_true_iff in H4.
Qed.

(** [Clean] keeps a path absolute or relative. *)
Lemma IsAbs_Clean (p : bytes) : IsAbs (Clean p) = IsAbs p.
Proof.
  rewrite !IsAbs_slashed. destruct (slashed p) eqn:Hp.
  - now destruct (Clean_rooted p Hp) as (ns & _ & _ & ->).
  - destruct (Clean_norm p) as (ns & k & H1 & _ & _ & ->). rewrite Hp.
    destruct (length (out_of false (ns ++ dots k)) =? 0); [reflexivity|].
    rewrite rev_out_of. simpl app. apply Join_not_slashed.
    apply Forall_rev, Forall_app. split.
    + eapply Forall_impl; [|exact H1]. apply name_headok.
    + unfold dots. apply Forall_forall. intros e He.
      apply repeat_spec in He. subst e. reflexivity.
Qed.

Lemma Clean_not_nil (p : bytes) : Clean p <> [].
Proof.
  destruct (Clean_norm p) as (ns & k & _ & _ & _ & ->).
  destruct (Nat.eqb_spec (length (out_of (slashed p) (ns ++ dots k))) 0) as [E|E];
    [discriminate|].
  intros H. apply E. apply (f_equal (@length ascii)) in H.
  now rewrite length_rev in H.
Qed.

(** *** [Rel] on cleaned rooted paths *)

Lemma Join_element (b : bytes) (l : list bytes) :
  sepfree b = true ->
  element (strings.Join (b :: l) "/") = b /\
  skip_sep (after_element (strings.Join (b :: l) "/")) = strings.Join l "/".
Proof.
  intros Hb. destruct l as [|m l].
  - simpl strings.Join. destruct (@element_app b [] Hb eq_refl) as [H1 H2].
    rewrite app_nil_r in *. now rewrite H1, H2.
  - rewrite (@Join_cons b (m :: l)) by discriminate.
    destruct (@element_app b ("/" ++ strings.Join (m :: l) "/") Hb eq_refl) as [H1 H2].
    now rewrite H1, H2.
Qed.

Lemma Join_length (b : bytes) (l : list bytes) :
  length b + length (strings.Join l "/") <= length (strings.Join (b :: l) "/").
Proof.
  destruct l as [|m l]; [simpl; lia|].
  rewrite (@Join_cons b (m :: l)) by discriminate. rewrite !length_app. lia.
Qed.

Lemma Join_names_nil (l : list bytes) :
  names_ok l -> strings.Join l "/" = [] -> l = [].
Proof.
  intros H E. destruct l as [|b l]; [reflexivity|]. inversion H; subst.
  destruct (is_name_inv _ H2) as (Hb & _). pose proof (Join_length b l) as Hl.
  rewrite E in Hl. destruct b; [congruence | simpl in Hl; lia].
Qed.

Lemma rel_loop_Join (bs : list bytes) : forall (ts : list bytes) (fuel : nat),
  names_ok bs -> names_ok ts -> length (strings.Join bs "/") <= fuel ->
  exists e, e <> ".." /\
    rel_loop fuel (strings.Join bs "/") (strings.Join ts "/")
    = (strings.Join (fst (strip_common bs ts)) "/",
       strings.Join (snd (strip_common bs ts)) "/", e).
Proof.
  induction bs as [|b bs IH]; intros ts fuel Hbs Hts Hf.
  { exists []. split; [discriminate|]. destruct fuel; reflexivity. }
  inversion Hbs as [|? ? Hb Hbs']; subst.
  destruct (is_name_inv _ Hb) as (Hb1 & _ & Hb3 & Hb4).
  pose proof (Join_length b bs) as Hl.
  assert (Hbl : length b > 0) by (destruct b; [congruence | simpl; lia]).
  destruct fuel as [|fuel]; [lia|].
  destruct (strings.Join (b :: bs) "/") as [|cb base'] eqn:Eb; [simpl in Hl; lia|].
  destruct ts as [|t ts].
  { exists []. split; [discriminate|]. cbn [strip_common fst snd]. rewrite Eb. reflexivity. }
  inversion Hts as [|? ? Ht Hts']; subst.
  destruct (is_name_inv _ Ht) as (Ht1 & _ & _ & Ht4).
  pose proof (Join_length t ts) as Hlt.
  assert (Htl : length t > 0) by (destruct t; [congruence | simpl; lia]).
  destruct (strings.Join (t :: ts) "/") as [|ct targ'] eqn:Et; [simpl in Hlt; lia|].
  cbn [rel_loop]. rewrite <- Eb, <- Et.
  destruct (@Join_element b bs Hb4) as [-> ->].
  destruct (@Join_element t ts Ht4) as [-> ->].
  cbn [strip_common].
  destruct (bytes_eqb t b) eqn:E; cbn [negb].
  - apply IH; try assumption. simpl in Hl, Hf. lia.
  - exists b. split; [assumption | reflexivity].
Qed.

Lemma strip_common_app (bs ms : list bytes) : strip_common bs (bs ++ ms) = ([], ms).
Proof.
  induction bs as [|b bs IH]; [now destruct ms|].
  simpl. now rewrite bytes_eqb_refl.
Qed.

Lemma strip_common_prefix (bs ts : list bytes) :
  fst (strip_common bs ts) = [] -> ts = bs ++ snd (strip_common bs ts).
Proof.
  revert ts. induction bs as [|b bs IH]; intros ts H; [now destruct ts|].
  destruct ts as [|t ts]; [discriminate|]. simpl in *.
  destruct (bytes_eqb t b) eqn:E; [|discriminate].
  apply bytes_eqb_eq in E. subst. f_equal. now apply IH.
Qed.

Lemma abspath_inj (a b : list bytes) :
  names_ok a -> names_ok b -> abspath a = abspath b -> a = b.
Proof.
  intros Ha Hb E. pose proof (norm_abspath Ha) as H1. rewrite E in H1.
  rewrite (norm_abspath Hb) in H1.
  apply (f_equal (@rev bytes)) in H1. now rewrite !rev_involutive in H1.
Qed.

(** The result of [Rel] between two cleaned rooted paths. *)
Lemma Rel_abspath (bs ts : list bytes) :
  names_ok bs -> names_ok ts ->
  exists r, Rel (abspath bs) (abspath ts) = Ok r /\
    match fst (strip_common bs ts), snd (strip_common bs ts) with
    | [], [] => r = "."
    | [], ms => r = strings.Join ms "/"
    | _ :: _, _ => strings.HasPrefix r ".." = true
    end.
Proof.
  intros Hbs Hts. unfold Rel. rewrite !Clean_abspath by assumption.
  destruct (bytes_eqb (abspath ts) (abspath bs)) eqn:E.
  { apply bytes_eqb_eq in E. apply abspath_inj in E; try assumption. subst.
    exists ".". split; [reflexivity|].
    match goal with
    | |- context [strip_common ?x ?x] =>
        pose proof (strip_common_app x []) as Hs; rewrite app_nil_r in Hs; rewrite Hs
    end. reflexivity. }
  change (bytes_eqb (abspath bs) ".") with false. cbv iota.
  change (slashed (abspath bs)) with true. change (slashed (abspath ts)) with true.
  cbn [Bool.eqb negb].
  change (length (abspath bs)) with (S (length (strings.Join bs "/"))).
  unfold abspath at 1 2. cbn [rel_loop element after_element skip_sep tl].
  change (IsPathSeparator Separator) with true. cbv iota.
  cbn [negb bytes_eqb]. rewrite bytes_eqb_refl. cbn [negb tl].
  unfold skip_sep. cbn [tl].
  destruct (@rel_loop_Join bs ts (length (strings.Join bs "/")) Hbs Hts (le_n _))
    as (e & He & ->).
  apply bytes_eqb_neq in He. rewrite He.
  assert (Hcs : exists c, bs = c ++ fst (strip_common bs ts) /\
                          ts = c ++ snd (strip_common bs ts)).
  { clear. revert ts. induction bs as [|b bs IH]; intros ts.
    - exists []. now destruct ts.
    - destruct ts as [|t ts]; [now exists []|]. simpl.
      destruct (bytes_eqb t b) eqn:E; [|now exists []].
      apply bytes_eqb_eq in E. subst. destruct (IH ts) as (c & H1 & H2).
      exists (b :: c). simpl. now rewrite <- H1, <- H2. }
  destruct Hcs as (c & Hc1 & Hc2).
  destruct (fst (strip_common bs ts)) as [|b' bs'] eqn:Ef.
  - simpl strings.Join at 1. cbv iota.
    destruct (snd (strip_common bs ts)) as [|m ms] eqn:Es.
    + exfalso. apply bytes_eqb_neq in E. apply E.
      rewrite Hc1, Hc2. reflexivity.
    + eexists. split; reflexivity.
  - assert (Hn : names_ok (b' :: bs')).
    { rewrite Hc1 in Hbs. now apply Forall_app in Hbs as [_ ?]. }
    destruct (strings.Join (b' :: bs') "/") as [|x xs] eqn:EJ.
    { apply Join_names_nil in EJ; [discriminate | assumption]. }
    eexists. split; reflexivity.
Qed.

(** *** Cleaning twice *)

Lemma rev_dots (k : nat) : rev (dots k) = dots k.
Proof.
  unfold dots. induction k as [|k IH]; [reflexivity|].
  simpl. rewrite IH. symmetry. apply repeat_cons.
Qed.

Lemma norm_dots (k : nat) : forall j, norm false (dots k) (dots j) = dots (k + j).
Proof.
  induction k as [|k IH]; intros j; [reflexivity|].
  change (dots (S k)) with (".." :: dots k). unfold norm. cbn [fold_left].
  rewrite step_dotdot_dots. fold (norm false (dots k) (dots (S j))).
  rewrite IH. f_equal. lia.
Qed.

Lemma dots_sepfree (k : nat) : Forall (fun e => sepfree e = true) (dots k).
Proof.
  unfold dots. apply Forall_forall. intros e He. apply repeat_spec in He. now subst.
Qed.

(** The fold over a cleaned path gives back the stack it was made from. *)
Lemma norm_render (rooted : bool) (ns : list bytes) (k : nat) :
  names_ok ns -> (rooted = true -> k = 0) ->
  length (out_of rooted (ns ++ dots k)) <> 0 ->
  norm rooted (split (rev (out_of rooted (ns ++ dots k)))) [] = ns ++ dots k.
Proof.
  intros Hns Hk Hlen. rewrite rev_out_of. destruct rooted.
  - rewrite (Hk eq_refl). simpl dots. rewrite app_nil_r.
    change ([Separator] ++ strings.Join (rev ns) "/") with (abspath (rev ns)).
    rewrite norm_abspath by now apply Forall_rev. apply rev_involutive.
  - simpl app at 1.
    assert (Hne : rev (ns ++ dots k) <> []).
    { intros E. apply Hlen. apply (f_equal (@rev bytes)) in E.
      rewrite rev_involutive in E. now rewrite E. }
    rewrite split_Join.
    + rewrite rev_app_distr, rev_dots, norm_app.
      change (@nil bytes) with (dots 0) at 1. rewrite norm_dots, Nat.add_0_r.
      rewrite norm_names by now apply Forall_rev. now rewrite rev_involutive.
    + exact Hne.
    + apply Forall_rev, Forall_app. split; [now apply names_sepfree | apply dots_sepfree].
Qed.

Lemma dots_headok (k : nat) : Forall headok (dots k).
Proof.
  unfold dots. apply Forall_forall. intros e He. apply repeat_spec in He. now subst.
Qed.

Lemma render_slashed (rooted : bool) (ns : list bytes) (k : nat) :
  names_ok ns -> slashed (rev (out_of rooted (ns ++ dots k))) = rooted.
Proof.
  intros Hns. rewrite rev_out_of. destruct rooted; [reflexivity|].
  simpl app. apply Join_not_slashed. apply Forall_rev, Forall_app. split.
  - eapply Forall_impl; [|exact Hns]. apply name_headok.
  - apply dots_headok.
Qed.

Lemma slashed_app (a b : bytes) : a <> [] -> slashed (a ++ b) = slashed a.
Proof. destruct a; [congruence | reflexivity]. Qed.

(** Joining ["."] to a cleaned path gives the path back. *)
Lemma Clean_dot_suffix (b : bytes) : Clean (Clean b ++ Separator :: ".") = Clean b.
Proof.
  destruct (Clean_norm b) as (ns & k & Hns & Hk & Hnorm & Hc).
  destruct (Nat.eqb_spec (length (out_of (slashed b) (ns ++ dots k))) 0) as [E|E].
  { rewrite Hc. reflexivity. }
  assert (Hcne : Clean b <> []) by apply Clean_not_nil.
  assert (Hs : slashed (Clean b ++ Separator :: ".") = slashed b).
  { rewrite slashed_app by assumption. rewrite Hc. now apply render_slashed. }
  destruct (Clean_norm (Clean b ++ Separator :: ".")) as (ns' & k' & _ & _ & Hnorm' & Hc').
  rewrite Hs in Hnorm', Hc'.
  rewrite split_app, norm_app in Hnorm'. rewrite Hc in Hnorm' at 1.
  rewrite norm_render in Hnorm' by assumption.
  change (norm (slashed b) (split ".") (ns ++ dots k)) with (ns ++ dots k) in Hnorm'.
  rewrite Hc', <- Hnorm'.
  destruct (Nat.eqb_spec (length (out_of (slashed b) (ns ++ dots k))) 0); [contradiction|].
  now rewrite Hc.
Qed.

Lemma Rel_same (p : bytes) : Rel p p = Ok ".".
Proof. unfold Rel. now rewrite bytes_eqb_refl. Qed.

End PathFacts.

(** ** The sanitiser *)

Module SanitizeFacts.
Import filepath PathTheory usecases Spec.

Section Sanitize.

Context {S : Type} {storage_impl : FileStorage S}.
Variable uc : @FileManagementUseCase S.

Lemma sanitizePath_unfold (path : bytes) (w : world) :
  sanitizePath uc path w =
  if IsAbs (Clean path) then
    (Err (Errorf "absolute paths are not allowed: %w" [] (Sentinel ErrPathTraversal)), w)
  else
    (match Rel (basePath uc) (Join [basePath uc; Clean path]) with
     | Err _ => Err (Errorf "path resolution failed: %w" [] (Sentinel ErrPathTraversal))
     | Ok rel =>
         if strings.HasPrefix rel domain.PathTraversalPrefix then
           Err (Errorf "path traversal detected: %w" [] (Sentinel ErrPathTraversal))
         else if (len (Clean path) >? MaxNameLength uc)%Z then
           Err (Errorf "path '%s' too long (%d > %d): %w"
                  [ArgS path; ArgD (len (Clean path)); ArgD (MaxNameLength uc)]
                  (Sentinel ErrPathTooLong))
         else if negb (bytes_eqb (Base (Clean path)) domain.PathCurrent)
                 && negb (bytes_eqb (Base (Clean path)) domain.PathEmpty)
                 && negb (regexp.MatchString (validName uc) (Base (Clean path))) then
           Err (Errorf "base name '%s' is invalid: %w" [ArgS (Base (Clean path))]
                  (Sentinel ErrInvalidName))
         else Ok (Clean path)
     end, base_read w).
Proof.
  unfold sanitizePath. destruct (IsAbs (Clean path)); [reflexivity|].
  unfold storage_GetAbsolutePath, record_call, ret, bind, base_read, basePath.
  cbv beta iota zeta.
  destruct (Rel _ _) as [rel|e]; [|reflexivity].
  destruct (strings.HasPrefix rel domain.PathTraversalPrefix); [reflexivity|].
  destruct (len (Clean path) >? MaxNameLength uc)%Z; [reflexivity|].
  destruct (negb _ && negb _ && negb _); reflexivity.
Qed.

Lemma sanitizer_only_refl (w : world) : sanitizer_only w w.
Proof.
  repeat split. exists 0. simpl. now rewrite app_nil_r.
Qed.

Lemma sanitizer_only_base_read (w : world) : sanitizer_only w (base_read w).
Proof. repeat split. now exists 1. Qed.

Lemma sanitizer_only_trans (w1 w2 w3 : world) :
  sanitizer_only w1 w2 -> sanitizer_only w2 w3 -> sanitizer_only w1 w3.
Proof.
  intros (Hd & Hl & Hr & n & Hc) (Hd' & Hl' & Hr' & m & Hc').
  repeat split; try congruence.
  exists (n + m). rewrite Hc', Hc, repeat_app. now rewrite app_assoc.
Qed.

(** The sanitiser changes nothing in the world but the trace of its
    own reading of the base directory. *)
Lemma sanitizePath_world (path : bytes) (w : world) :
  sanitizer_only w (snd (sanitizePath uc path w)).
Proof.
  rewrite sanitizePath_unfold. destruct (IsAbs (Clean path)); simpl.
  - apply sanitizer_only_refl.
  - apply sanitizer_only_base_read.
Qed.

Lemma sanitizePath_world' (path : bytes) (w w' : world) (r : Result bytes) :
  sanitizePath uc path w = (r, w') -> sanitizer_only w w'.
Proof.
  intros H. pose proof (sanitizePath_world path w) as Hw. now rewrite H in Hw.
Qed.

Lemma gtb_leb (a b : Z) : (a >? b)%Z = negb (a <=? b)%Z.
Proof. rewrite Z.gtb_ltb. apply Z.ltb_antisym. Qed.

(** The result of the sanitiser by its three checks. *)
Lemma sanitizePath_result (path : bytes) (w : world) :
  fst (sanitizePath uc path w) =
  if negb (traversal_ok uc path) then
    if IsAbs (Clean path) then
      Err (Errorf "absolute paths are not allowed: %w" [] (Sentinel ErrPathTraversal))
    else
      match Rel (basePath uc) (Join [basePath uc; Clean path]) with
      | Err _ => Err (Errorf "path resolution failed: %w" [] (Sentinel ErrPathTraversal))
      | Ok _ => Err (Errorf "path traversal detected: %w" [] (Sentinel ErrPathTraversal))
      end
  else if negb (length_ok uc path) then
    Err (Errorf "path '%s' too long (%d > %d): %w"
           [ArgS path; ArgD (len (Clean path)); ArgD (MaxNameLength uc)]
           (Sentinel ErrPathTooLong))
  else if negb (name_ok uc path) then
    Err (Errorf "base name '%s' is invalid: %w" [ArgS (Base (Clean path))]
           (Sentinel ErrInvalidName))
  else Ok (Clean path).
Proof.
  rewrite sanitizePath_unfold. unfold traversal_ok, length_ok, name_ok.
  cbv zeta. rewrite gtb_leb.
  destruct (IsAbs (Clean path)); [reflexivity|]. cbn [fst negb andb].
  destruct (Rel _ _) as [rel|e]; [|reflexivity].
  destruct (strings.HasPrefix rel domain.PathTraversalPrefix); [reflexivity|].
  cbn [negb]. destruct (len (Clean path) <=? MaxNameLength uc)%Z; [|reflexivity].
  cbn [negb].
  destruct (bytes_eqb (Base (Clean path)) domain.PathCurrent); [reflexivity|].
  destruct (bytes_eqb (Base (Clean path)) domain.PathEmpty); [reflexivity|].
  destruct (regexp.MatchString _ _); reflexivity.
Qed.

Lemma traversal_error (path : bytes) (w : world) :
  traversal_ok uc path = false ->
  exists e, fst (sanitizePath uc path w) = Err e /\ errors.Is e ErrPathTraversal = true.
Proof.
  intros H. rewrite sanitizePath_result, H. cbn [negb].
  destruct (IsAbs (Clean path)); [eexists; split; reflexivity|].
  destruct (Rel _ _); eexists; split; reflexivity.
Qed.

Lemma sanitizePath_Ok_inv (path : bytes) (w w' : world) (clean : bytes) :
  sanitizePath uc path w = (Ok clean, w') ->
  clean = Clean path /\ traversal_ok uc path = true /\
  length_ok uc path = true /\ name_ok uc path = true.
Proof.
  intros H. pose proof (sanitizePath_result path w) as Hr. rewrite H in Hr.
  cbn [fst] in Hr.
  destruct (traversal_ok uc path); cbn [negb] in Hr.
  2:{ destruct (IsAbs (Clean path)); [discriminate|]. destruct (Rel _ _); discriminate. }
  destruct (length_ok uc path); cbn [negb] in Hr; [|discriminate].
  destruct (name_ok uc path); cbn [negb] in Hr; [|discriminate].
  injection Hr as ->. auto.
Qed.

End Sanitize.

End SanitizeFacts.

(** ** The file system *)

Module OsFacts.
Import filepath PathTheory PathFacts.

Lemma set_child_same (n : bytes) (ch : os.node) (es : list (bytes * os.node)) :
  os.find_child n es = Some ch -> os.set_child n ch es = es.
Proof.
  intros H. unfold os.set_child. rewrite H.
  induction es as [|[m c] es IH]; [discriminate|].
  simpl in *. destruct (bytes_eqb m n) eqn:E.
  - injection H as ->. reflexivity.
  - now rewrite IH.
Qed.

(** Removing what does not exist changes nothing. *)
Lemma remove_at_absent (cs : list bytes) : forall (nd : os.node),
  os.resolve nd cs = inr ENOENT ->
  os.remove_at cs nd = (None, nd) \/ os.remove_at cs nd = (Some ENOENT, nd).
Proof.
  induction cs as [|c cs IH]; intros nd H.
  - destruct nd; simpl in *; try discriminate. injection H as ->. now right.
  - destruct nd as [data|es|e]; simpl in *; try discriminate.
    + destruct (os.find_child c es) as [ch|] eqn:Ec; [|now left].
      destruct cs as [|c' cs'].
      * destruct ch; simpl in H; try discriminate. injection H as ->. now right.
      * destruct (IH ch H) as [-> | ->]; [left | now right].
        now rewrite set_child_same.
    + injection H as ->. now right.
Qed.

Lemma names_filter_names (ns : list bytes) :
  names_ok ns ->
  filter (fun e => negb (bytes_eqb e [] || bytes_eqb e ".")) ns = ns.
Proof.
  induction 1 as [|n ns Hn _ IH]; [reflexivity|]. simpl.
  destruct (is_name_inv _ Hn) as (H1 & H2 & _).
  apply bytes_eqb_neq in H1, H2. rewrite H1, H2, IH. reflexivity.
Qed.

(** Path resolution follows the names of a cleaned rooted path. *)
Lemma names_abspath (ns : list bytes) : names_ok ns -> os.names (abspath ns) = ns.
Proof.
  intros H. unfold os.names, abspath. simpl split.
  destruct ns as [|n ns]; [reflexivity|].
  rewrite split_Join by (discriminate || now apply names_sepfree).
  exact (names_filter_names H).
Qed.

Lemma lookup_abspath (d : os.node) (ns : list bytes) :
  names_ok ns -> os.lookup d (abspath ns) = os.resolve d ns.
Proof. intros H. unfold os.lookup, abspath. fold (abspath ns). now rewrite names_abspath. Qed.

Lemma abspath_snoc (ms : list bytes) (n : bytes) :
  abspath (ms ++ [n]) = match ms with [] => [] | _ :: _ => abspath ms end ++ Separator :: n.
Proof.
  unfold abspath. destruct ms as [|m ms]; [reflexivity|].
  rewrite (@Join_snoc (m :: ms)) by discriminate. reflexivity.
Qed.

Lemma names_ok_snoc (ns : list bytes) :
  names_ok ns -> ns = [] \/ exists ms n, ns = ms ++ [n] /\ names_ok ms /\ is_name n = true.
Proof.
  intros H. destruct (rev ns) as [|n r] eqn:E.
  - left. apply (f_equal (@rev bytes)) in E. now rewrite rev_involutive in E.
  - right. exists (rev r), n.
    assert (Hns : ns = rev r ++ [n]).
    { apply (f_equal (@rev bytes)) in E. now rewrite rev_involutive in E. }
    rewrite Hns in H. apply Forall_app in H as [H1 H2]. inversion H2; subst. auto.
Qed.

Lemma last_byte_name (n : bytes) :
  is_name n = true ->
  exists c r, rev n = c :: r /\ IsPathSeparator c = false /\
              Forall nonsep r /\ (r = [] -> c <> "."%char).
Proof.
  intros H. destruct (is_name_inv _ H) as (H1 & H2 & _ & H4).
  apply sepfree_Forall in H4. apply Forall_rev in H4.
  destruct (rev n) as [|c r] eqn:E.
  { apply (f_equal (@rev ascii)) in E. rewrite rev_involutive in E. now subst. }
  inversion H4; subst. exists c, r. repeat split; auto.
  intros -> ->. apply H2. apply (f_equal (@rev ascii)) in E.
  now rewrite rev_involutive in E.
Qed.

Lemma endsWithDot_abspath (ns : list bytes) :
  names_ok ns -> os.endsWithDot (abspath ns) = false.
Proof.
  intros H. destruct (names_ok_snoc H) as [-> | (ms & n & -> & _ & Hn)]; [reflexivity|].
  rewrite abspath_snoc. unfold os.endsWithDot.
  destruct (last_byte_name _ Hn) as (c & r & Hr & Hc & Hrs & Hdot).
  rewrite rev_app_distr. simpl rev at 1. rewrite Hr. rewrite <- app_assoc. simpl.
  destruct r as [|c' r']; simpl.
  - apply andb_false_intro1. apply Ascii.eqb_neq. now apply Hdot.
  - inversion Hrs; subst. unfold nonsep in *. rewrite H2. apply andb_false_r.
Qed.

(** The name that [Lstat] gives to the last element of a path. *)
Lemma strip_seps_nonsep (c : ascii) (r : list ascii) :
  IsPathSeparator c = false -> strip_seps (c :: r) = c :: r.
Proof. intros H. simpl. now rewrite H. Qed.

Lemma basename_abspath_snoc (ms : list bytes) (n : bytes) :
  is_name n = true -> os.basename (abspath (ms ++ [n])) = n.
Proof.
  intros Hn. rewrite abspath_snoc. unfold os.basename.
  destruct (last_byte_name _ Hn) as (c & r & Hr & Hc & Hrs & _).
  set (pre := match ms with [] => [] | _ :: _ => abspath ms end).
  assert (Hrev : rev (pre ++ Separator :: n) = c :: r ++ Separator :: rev pre).
  { rewrite rev_app_distr. simpl rev at 1. now rewrite <- app_assoc, Hr. }
  rewrite !Hrev. cbv iota beta. rewrite Hc.
  assert (He : element (r ++ Separator :: rev pre) = r).
  { apply element_app; [now apply sepfree_Forall | reflexivity]. }
  rewrite He, <- Hr. apply rev_involutive.
Qed.

Lemma resolve_app (cs1 cs2 : list bytes) : forall (d nd : os.node),
  os.resolve d cs1 = inl nd -> os.resolve d (cs1 ++ cs2) = os.resolve nd cs2.
Proof.
  induction cs1 as [|c cs1 IH]; intros d nd H.
  - destruct d; simpl in H; try discriminate; injection H as <-; reflexivity.
  - destruct d as [data|es|e]; simpl in *; try discriminate.
    destruct (os.find_child c es) as [ch|]; [|discriminate]. now apply IH.
Qed.

Lemma resolve_not_Bad (cs : list bytes) (d nd : os.node) :
  os.resolve d cs = inl nd -> forall e, nd <> os.Bad e.
Proof.
  revert d. induction cs as [|c cs IH]; intros d H e.
  - destruct d; simpl in H; try discriminate; injection H as <-; discriminate.
  - destruct d as [data|es|e']; simpl in *; try discriminate.
    destruct (os.find_child c es) as [ch|]; [|discriminate]. now apply (IH ch).
Qed.

End OsFacts.

(** ** The local storage *)

Module LocalFacts.
Import filepath PathTheory PathFacts usecases Spec SanitizeFacts OsFacts.

Lemma Join_pair (b q : bytes) : b <> [] -> Join [b; q] = Clean (b ++ Separator :: q).
Proof. destruct b; [congruence | reflexivity]. Qed.

Lemma IsAbs_not_nil (b : bytes) : IsAbs b = true -> b <> [].
Proof. destruct b; [discriminate | discriminate]. Qed.

(** With an absolute base the local storage resolves every path to a
    cleaned rooted path. *)
Lemma local_abspath (ls : localstorage.LocalStorageService) (rel : bytes) :
  IsAbs (localstorage.basePath ls) = true ->
  exists ns, names_ok ns /\ localstorage.GetAbsolutePath ls rel = abspath ns.
Proof.
  intros H. unfold localstorage.GetAbsolutePath.
  rewrite Join_pair by now apply IsAbs_not_nil.
  rewrite IsAbs_slashed in H.
  destruct (@Clean_rooted (localstorage.basePath ls ++ Separator :: rel)) as (ns & H1 & _ & H2).
  - destruct (localstorage.basePath ls); [discriminate | exact H].
  - now exists ns.
Qed.

Lemma info_ok_Info (e : bytes * os.node) :
  info_ok e -> os.Info (entry_of e) = Ok (info_of_entry e).
Proof. destruct e as [n [d|es|err]]; simpl; intros H; [reflexivity | reflexivity | contradiction]. Qed.

Lemma collect_infos_ok (l : list (bytes * os.node)) :
  forall (files : list os.FileInfo) (w : world),
    Forall info_ok l ->
    forall rest, localstorage.collect_infos (map entry_of l ++ rest) files w
                 = localstorage.collect_infos rest (files ++ map info_of_entry l) w.
Proof.
  induction l as [|e l IH]; intros files w H rest.
  - simpl. now rewrite app_nil_r.
  - inversion H; subst. simpl map. simpl app. cbn [localstorage.collect_infos].
    rewrite info_ok_Info by assumption. rewrite IH by assumption.
    now rewrite <- app_assoc.
Qed.

End LocalFacts.

(** ** The walk of the archive *)

Module WalkFacts.
Import filepath PathTheory PathFacts usecases Spec OsFacts LocalFacts.

(** Induction on a tree, with the property for the entries of a directory. *)
Lemma node_ind2 (P : os.node -> Prop) :
  (forall data, P (os.File data)) ->
  (forall e, P (os.Bad e)) ->
  (forall es, Forall (fun e => P (snd e)) es -> P (os.Dir es)) ->
  forall nd, P nd.
Proof.
  intros HF HB HD. fix IH 1. intros [data|es|e].
  - apply HF.
  - apply HD. induction es as [|[n c] es IHes]; constructor.
    + apply IH.
    + exact IHes.
  - apply HB.
Qed.

Lemma add_entries_nil (w : world) : add_entries [] w = w.
Proof.
  destruct w as [d c l [h s a]]. unfold add_entries. simpl. now rewrite app_nil_r.
Qed.

Lemma add_entries_app (l1 l2 : list (bytes * bytes)) (w : world) :
  add_entries l2 (add_entries l1 w) = add_entries (l1 ++ l2) w.
Proof. unfold add_entries. simpl. now rewrite app_assoc. Qed.

Lemma add_entries_disk (l : list (bytes * bytes)) (w : world) :
  disk (add_entries l w) = disk w.
Proof. reflexivity. Qed.

Section Archive.

Variable rs : list bytes.
Hypothesis rs_ok : names_ok rs.

Lemma Rel_below (cs : list bytes) :
  names_ok cs -> cs <> [] ->
  Rel (abspath rs) (abspath (rs ++ cs)) = Ok (strings.Join cs "/").
Proof.
  intros Hcs Hne.
  destruct (@Rel_abspath rs (rs ++ cs) rs_ok) as (r & Hr & Hcase).
  { apply Forall_app. now split. }
  rewrite strip_common_app in Hcase. cbn [fst snd] in Hcase.
  destruct cs; [congruence|]. now rewrite Hr, Hcase.
Qed.

Lemma addFileToZip_file (cs : list bytes) (data : bytes) (w : world) :
  names_ok cs -> cs <> [] ->
  os.resolve (disk w) (rs ++ cs) = inl (os.File data) ->
  addFileToZip (abspath rs) (abspath (rs ++ cs)) w
  = (None, add_entries [(strings.Join cs "/", data)] w).
Proof.
  intros Hcs Hne Hres. unfold addFileToZip.
  rewrite Rel_below by assumption.
  unfold bind, zip_Create, zip_Write, modify_response, get_disk, ret, os.Open.
  cbv beta iota zeta. cbn [disk response http.archive http.Header http.served].
  rewrite lookup_abspath by (apply Forall_app; now split).
  rewrite Hres. cbn [os.read_all].
  unfold add_entries.
  cbn [disk calls logs response http.archive http.Header http.served].
  rewrite rev_app_distr. cbn [rev app]. rewrite rev_involutive.
  reflexivity.
Qed.

Lemma Join_child (cs : list bytes) (n : bytes) :
  names_ok cs -> is_name n = true ->
  Join [abspath (rs ++ cs); n] = abspath (rs ++ cs ++ [n]).
Proof.
  intros Hcs Hn. rewrite Join_pair by discriminate.
  rewrite Clean_abspath_name; [now rewrite <- app_assoc | | assumption].
  apply Forall_app. now split.
Qed.

Lemma basename_child (cs : list bytes) (n : bytes) :
  is_name n = true -> os.basename (abspath (rs ++ cs ++ [n])) = n.
Proof. intros Hn. rewrite app_assoc. now apply basename_abspath_snoc. Qed.

Local Abbreviation walked := (Spec.walked rs).

Lemma walked_File (data : bytes) : walked (os.File data).
Proof.
  intros cs w info _ Hcs Hres Hdir Hne. cbn [walk os.is_dir] in *.
  unfold zipWalkFunc, shouldSkipFile, visible. rewrite Hdir.
  destruct (strings.HasPrefix (os.Name info) domain.HiddenFilePrefix); cbn [negb].
  - reflexivity.
  - now rewrite (@addFileToZip_file cs data w) by auto.
Qed.

Lemma walk_names_entries (es : list (bytes * os.node)) (cs : list bytes) :
  names_ok cs ->
  forall (l : list (bytes * os.node)) (w : world),
    Forall (fun e => is_name (fst e) = true /\ wf_tree (snd e) = true /\
                     os.find_child (fst e) es = Some (snd e) /\ walked (snd e)) l ->
    os.resolve (disk w) (rs ++ cs) = inl (os.Dir es) ->
    walk_names (walk (zipWalkFunc (abspath rs))) (zipWalkFunc (abspath rs))
               (abspath (rs ++ cs)) l w
    = (None, add_entries (files_of_entries visible_files cs l) w).
Proof.
  intros Hcs. induction l as [|[n c] l IH]; intros w Hl Hres.
  - simpl. now rewrite add_entries_nil.
  - inversion Hl as [|? ? (Hn & Hwf & Hfind & Hwalked) Hl']; subst. cbn [fst snd] in *.
    cbn [walk_names files_of_entries].
    rewrite Join_child, basename_child by assumption.
    assert (Hc : os.resolve (disk w) (rs ++ cs ++ [n]) = inl c).
    { rewrite app_assoc. rewrite (resolve_app _ [n] _ Hres). simpl. rewrite Hfind.
      destruct c; try reflexivity. discriminate. }
    assert (Hcs' : names_ok (cs ++ [n])) by (apply Forall_app; split; [assumption | now constructor]).
    assert (Hrun := Hwalked (cs ++ [n]) w
                      {| os.Name := n; os.IsDir := os.is_dir c |} Hwf Hcs').
    specialize (Hrun Hc eq_refl).
    assert (Hne : os.is_dir c = false -> cs ++ [n] <> []) by (intros _; now destruct cs).
    specialize (Hrun Hne). cbn [os.Name] in Hrun.
    destruct c as [data|es'|e]; [| |discriminate].
    + unfold bind. rewrite Hrun. cbn [os.is_dir os.IsDir].
      destruct (visible n).
      * rewrite IH by (assumption || (rewrite add_entries_disk; assumption)).
        now rewrite add_entries_app.
      * now rewrite IH by assumption.
    + unfold bind. rewrite Hrun. cbn [os.is_dir os.IsDir].
      destruct (visible n).
      * rewrite IH by (assumption || (rewrite add_entries_disk; assumption)).
        now rewrite add_entries_app.
      * cbn [negb orb is_SkipDir]. now rewrite IH by assumption.
Qed.

Lemma wf_entries_distinct (rec : os.node -> bool) (es : list (bytes * os.node)) :
  wf_entries rec es = true ->
  Forall (fun e => is_name (fst e) = true /\ rec (snd e) = true /\
                   os.find_child (fst e) es = Some (snd e)) es.
Proof.
  induction es as [|[n c] es IH]; intros H; [constructor|].
  cbn [wf_entries] in H. fold (wf_entries rec es) in H.
  apply andb_prop in H as [H Hes]. apply andb_prop in H as [H Hc].
  apply andb_prop in H as [Hn Hfresh]. apply negb_true_iff in Hfresh.
  constructor.
  - cbn [fst snd os.find_child]. now rewrite bytes_eqb_refl.
  - specialize (IH Hes). rewrite Forall_forall in *. intros [m c'] Hin.
    destruct (IH _ Hin) as (H1 & H2 & H3). cbn [fst snd] in *.
    repeat split; try assumption.
    cbn [os.find_child]. destruct (bytes_eqb n m) eqn:E; [|assumption].
    exfalso. apply bytes_eqb_eq in E. subst m.
    assert (existsb (fun e => bytes_eqb (fst e) n) es = true); [|congruence].
    apply existsb_exists. exists (n, c'). split; [assumption | apply bytes_eqb_refl].
Qed.

Lemma walked_all : forall nd, walked nd.
Proof.
  apply node_ind2.
  - apply walked_File.
  - intros e cs w info Hwf. discriminate.
  - intros es IHes cs w info Hwf Hcs Hres Hdir _.
    cbn [walk os.is_dir] in *. unfold bind.
    unfold zipWalkFunc at 1. unfold shouldSkipFile, visible. rewrite Hdir.
    destruct (strings.HasPrefix (os.Name info) domain.HiddenFilePrefix); cbn [negb].
    + reflexivity.
    + unfold ret at 1. cbv beta iota.
      apply (@walk_names_entries es); try assumption.
      cbn [wf_tree] in Hwf. apply wf_entries_distinct in Hwf.
      rewrite Forall_forall in *. intros e He.
      destruct (Hwf e He) as (H1 & H2 & H3). auto.
Qed.

End Archive.

(** *** The visible files of a tree *)





End WalkFacts.

(** * The claims *)

Import filepath PathTheory usecases Spec PathFacts SanitizeFacts.

(** ** Sanitisation failures abort the operations *)

Section Abort.

Context {S : Type} {storage_impl : FileStorage S}.
Variable uc : @FileManagementUseCase S.

Lemma abort_List (path : bytes) (w w1 : world) (e : error) :
  sanitizePath uc path w = (Err e, w1) -> List uc path w = (Err e, w1).
Proof. intros H. unfold List, bind. now rewrite H. Qed.

Lemma abort_UploadFile (path file : bytes) (w w1 : world) (e : error) :
  sanitizePath uc path w = (Err e, w1) -> UploadFile uc path file w = (Some e, w1).
Proof. intros H. unfold UploadFile, bind. now rewrite H. Qed.

Lemma abort_Delete (path : bytes) (w w1 : world) (e : error) :
  sanitizePath uc path w = (Err e, w1) -> Delete uc path w = (Some e, w1).
Proof. intros H. unfold Delete, bind. now rewrite H. Qed.

Lemma abort_Rename_old (path other : bytes) (w w1 : world) (e : error) :
  sanitizePath uc path w = (Err e, w1) -> Rename uc path other w = (Some e, w1).
Proof. intros H. unfold Rename, bind. now rewrite H. Qed.

Lemma abort_Rename_new (path other sp : bytes) (w0 w w1 : world) (e : error) :
  sanitizePath uc other w0 = (Ok sp, w) ->
  sanitizePath uc path w = (Err e, w1) -> Rename uc other path w0 = (Some e, w1).
Proof. intros H0 H. unfold Rename, bind. now rewrite H0, H. Qed.

Lemma abort_CreateFolder (path : bytes) (w w1 : world) (e : error) :
  sanitizePath uc path w = (Err e, w1) -> CreateFolder uc path w = (Some e, w1).
Proof. intros H. unfold CreateFolder, bind. now rewrite H. Qed.

Lemma abort_ServeFile (path : bytes) (w w1 : world) (e : error) :
  sanitizePath uc path w = (Err e, w1) -> ServeFile uc path w = (Some e, w1).
Proof. intros H. unfold ServeFile, bind. now rewrite H. Qed.

Lemma abort_ServeFolderAsZip (path : bytes) (w w1 : world) (e : error) :
  sanitizePath uc path w = (Err e, w1) -> ServeFolderAsZip uc path w = (Some e, w1).
Proof. intros H. unfold ServeFolderAsZip, bind. now rewrite H. Qed.

End Abort.

(** C2, as stated, fails: on the input ["../x"] the sanitiser rejects the
    path, [List] returns that error, and the operation has called the
    storage once, through [GetAbsolutePath] of the empty path. *)
Lemma C2_storage_call_counterexample :
  (exists e, fst (sanitizePath Examples.uc255 "../x" Examples.world_empty) = Err e /\
             fst (List Examples.uc255 "../x" Examples.world_empty) = Err e) /\
  calls Examples.world_empty = [] /\
  calls (snd (List Examples.uc255 "../x" Examples.world_empty)) = [CallGetAbsolutePath []].
Proof.
  split; [eexists; split; vm_compute; reflexivity|].
  split; vm_compute; reflexivity.
Qed.

(** C2 (amended).  For each of the seven operations and every path on
    which sanitisation fails, the operation returns exactly the error of
    the sanitiser and leaves the world as the sanitiser left it: the file
    system, the log and the response are unchanged, and the only storage
    calls are the sanitiser's own [GetAbsolutePath] of the empty path; for [Rename] this
    holds for a failure on the old path and for a failure on the new path
    after the old one was accepted. *)
Theorem C2_sanitize_failure_aborts :
  forall (S : Type) (storage_impl : FileStorage S) (uc : @FileManagementUseCase S)
         (path other file old sp : bytes) (w w1 v0 v v1 : world) (e e' : error),
    sanitizePath uc path w = (Err e, w1) ->
    sanitizePath uc old v0 = (Ok sp, v) ->
    sanitizePath uc path v = (Err e', v1) ->
    List uc path w = (Err e, w1) /\
    UploadFile uc path file w = (Some e, w1) /\
    Delete uc path w = (Some e, w1) /\
    Rename uc path other w = (Some e, w1) /\
    CreateFolder uc path w = (Some e, w1) /\
    ServeFile uc path w = (Some e, w1) /\
    ServeFolderAsZip uc path w = (Some e, w1) /\
    sanitizer_only w w1 /\
    Rename uc old path v0 = (Some e', v1) /\
    sanitizer_only v0 v1.
Proof.
  intros S impl uc path other file old sp w w1 v0 v v1 e e' H Hold Hnew.
  pose proof (sanitizePath_world' _ _ _ H) as Hw.
  pose proof (sanitizePath_world' _ _ _ Hold) as Hv0.
  pose proof (sanitizePath_world' _ _ _ Hnew) as Hv.
  split; [now apply abort_List|].
  split; [now apply abort_UploadFile|].
  split; [now apply abort_Delete|].
  split; [now apply abort_Rename_old|].
  split; [now apply abort_CreateFolder|].
  split; [now apply abort_ServeFile|].
  split; [now apply abort_ServeFolderAsZip|].
  split; [exact Hw|].
  split; [now apply (@abort_Rename_new _ _ uc path old sp v0 v v1 e' Hold)|].
  eapply sanitizer_only_trans; eassumption.
Qed.

Lemma C2_sanitize_failure_aborts_witness :
  exists e w1 v1,
    UploadFile Examples.uc255 "../../etc/passwd" "evil" Examples.world_empty = (Some e, w1) /\
    errors.Is e ErrPathTraversal = true /\
    Rename Examples.uc255 "old.txt" "../../etc/passwd" Examples.world_empty = (Some e, v1) /\
    disk w1 = disk Examples.world_empty /\ disk v1 = disk Examples.world_empty.
Proof.
  assert (H : sanitizePath Examples.uc255 "../../etc/passwd" Examples.world_empty
              = (Err (Errorf "path traversal detected: %w" [] (Sentinel ErrPathTraversal)),
                 base_read Examples.world_empty)) by (vm_compute; reflexivity).
  assert (Hold : sanitizePath Examples.uc255 "old.txt" Examples.world_empty
                 = (Ok "old.txt", base_read Examples.world_empty)) by (vm_compute; reflexivity).
  assert (Hnew : sanitizePath Examples.uc255 "../../etc/passwd" (base_read Examples.world_empty)
                 = (Err (Errorf "path traversal detected: %w" [] (Sentinel ErrPathTraversal)),
                    base_read (base_read Examples.world_empty))) by (vm_compute; reflexivity).
  pose proof (@C2_sanitize_failure_aborts _ _ Examples.uc255 "../../etc/passwd" "new.txt"
                "evil" "old.txt" _ _ _ _ _ _ _ _ H Hold Hnew)
    as (_ & HU & _ & _ & _ & _ & _ & _ & HR & _).
  eexists. eexists. eexists.
  split; [exact HU|]. split; [reflexivity|]. split; [exact HR|]. split; reflexivity.
Defined.

(** ** The checks of the sanitiser *)

Section Checks.

Context {S : Type} {storage_impl : FileStorage S}.
Variable uc : @FileManagementUseCase S.

Lemma sanitizePath_pair (path : bytes) (w : world) :
  exists w', sanitizePath uc path w = (fst (sanitizePath uc path w), w').
Proof. exists (snd (sanitizePath uc path w)). apply surjective_pairing. Qed.

Lemma sanitizePath_accepts (path : bytes) (w : world) :
  traversal_ok uc path = true -> length_ok uc path = true -> name_ok uc path = true ->
  exists w', sanitizePath uc path w = (Ok (Clean path), w').
Proof.
  intros Ht Hl Hn. destruct (sanitizePath_pair path w) as (w' & H).
  exists w'. rewrite H. f_equal. rewrite sanitizePath_result, Ht, Hl, Hn. reflexivity.
Qed.

Lemma sanitizePath_too_long (path : bytes) (w : world) :
  traversal_ok uc path = true -> length_ok uc path = false ->
  exists e w', sanitizePath uc path w = (Err e, w') /\ errors.Is e ErrPathTooLong = true.
Proof.
  intros Ht Hl. destruct (sanitizePath_pair path w) as (w' & H).
  rewrite sanitizePath_result, Ht, Hl in H. cbn [negb] in H.
  eexists. exists w'. split; [exact H | reflexivity].
Qed.

Lemma sanitizePath_invalid_name (path : bytes) (w : world) :
  traversal_ok uc path = true -> length_ok uc path = true -> name_ok uc path = false ->
  exists e w', sanitizePath uc path w = (Err e, w') /\ errors.Is e ErrInvalidName = true.
Proof.
  intros Ht Hl Hn. destruct (sanitizePath_pair path w) as (w' & H).
  rewrite sanitizePath_result, Ht, Hl, Hn in H. cbn [negb] in H.
  eexists. exists w'. split; [exact H | reflexivity].
Qed.

Lemma name_ok_match (path : bytes) :
  Base (Clean path) <> domain.PathEmpty -> Base (Clean path) <> domain.PathCurrent ->
  name_ok uc path = regexp.MatchString (validName uc) (Base (Clean path)).
Proof.
  intros H1 H2. unfold name_ok. cbv zeta.
  apply bytes_eqb_neq in H1, H2. now rewrite H1, H2.
Qed.

End Checks.

(** C4, as stated, fails: with [MaxNameLength = 4] the input ["/abcd"] has
    a normalised form of five bytes, one more than the maximum, and the
    sanitiser rejects it with [PathTraversal], not [PathTooLong]: the
    traversal check comes first. *)
Lemma C4_too_long_counterexample :
  len (Clean "/abcd") = (MaxNameLength Examples.uc4 + 1)%Z /\
  exists e, fst (sanitizePath Examples.uc4 "/abcd" Examples.world_empty) = Err e /\
            errors.Is e ErrPathTooLong = false /\ errors.Is e ErrPathTraversal = true.
Proof.
  split; [reflexivity|]. eexists. split; [vm_compute; reflexivity|]. split; reflexivity.
Qed.

(** C4 (amended).  An input [p] whose normalised form has exactly
    [MaxNameLength] bytes and which passes the traversal and name checks
    is accepted; an input [q] which passes the traversal check and whose
    normalised form is one byte longer than [MaxNameLength] is rejected
    with [PathTooLong]. *)
Theorem C4_length_boundary :
  forall (S : Type) (storage_impl : FileStorage S) (uc : @FileManagementUseCase S)
         (p q : bytes) (w : world),
    traversal_ok uc p = true -> name_ok uc p = true ->
    len (Clean p) = MaxNameLength uc ->
    traversal_ok uc q = true ->
    len (Clean q) = (MaxNameLength uc + 1)%Z ->
    (exists w', sanitizePath uc p w = (Ok (Clean p), w')) /\
    (exists e w', sanitizePath uc q w = (Err e, w') /\ errors.Is e ErrPathTooLong = true).
Proof.
  intros S impl uc p q w Htp Hnp Hlp Htq Hlq. split.
  - apply sanitizePath_accepts; try assumption.
    unfold length_ok. apply Z.leb_le. lia.
  - apply sanitizePath_too_long; try assumption.
    unfold length_ok. apply Z.leb_gt. lia.
Qed.

Lemma C4_length_boundary_witness :
  (exists w', sanitizePath Examples.uc4 "abcd" Examples.world_empty = (Ok "abcd", w')) /\
  (exists e w', sanitizePath Examples.uc4 "abcde" Examples.world_empty = (Err e, w') /\
                errors.Is e ErrPathTooLong = true).
Proof.
  apply (@C4_length_boundary _ _ Examples.uc4 "abcd" "abcde" Examples.world_empty);
    vm_compute; reflexivity.
Defined.

(** C5, as stated, fails: the sanitiser asks [MatchString], which looks
    for a match anywhere in the basename.  With the pattern [[\w\-. ]+],
    a non-empty pattern without anchors, the input ["docs/a<b.txt"] passes
    the traversal and length checks and is accepted, although its
    basename holds ['<'], a byte outside the pattern, and is not matched
    as a whole (the anchored pattern does not match it). *)
Lemma C5_partial_match_counterexample :
  validation.validateRequiredString "file.valid_name_regex"
    (config.ValidNameRegex (config.File (cfg Examples.uc_unanchored))) = None /\
  traversal_ok Examples.uc_unanchored "docs/a<b.txt" = true /\
  length_ok Examples.uc_unanchored "docs/a<b.txt" = true /\
  Base (Clean "docs/a<b.txt") = "a<b.txt" /\
  (In "<"%char (Base (Clean "docs/a<b.txt")) /\ regexp.name_byte "<" = false) /\
  regexp.MatchString regexp.word_hyphen_dot_space (Base (Clean "docs/a<b.txt")) = false /\
  fst (sanitizePath Examples.uc_unanchored "docs/a<b.txt" Examples.world_empty)
  = Ok "docs/a<b.txt".
Proof.
  repeat split; try (vm_compute; reflexivity).
  vm_compute. tauto.
Qed.

(** C5 (amended).  For an input that passes the traversal and length
    checks and whose basename is neither empty nor ["."], the sanitiser
    succeeds exactly when [MatchString] of the compiled name pattern
    reports a match on the basename (for a pattern without anchors, a
    match of a part of it), and fails with [InvalidName] otherwise; with
    the anchored pattern of word characters, hyphens, dots and spaces, a
    basename of allowed bytes only is accepted and a basename with a byte
    outside them (['<'], ['>']) is rejected with [InvalidName]. *)
Theorem C5_name_pattern :
  forall (S : Type) (storage_impl : FileStorage S) (uc : @FileManagementUseCase S)
         (path : bytes) (w : world),
    traversal_ok uc path = true -> length_ok uc path = true ->
    Base (Clean path) <> domain.PathEmpty -> Base (Clean path) <> domain.PathCurrent ->
    ((exists clean w', sanitizePath uc path w = (Ok clean, w'))
     <-> regexp.MatchString (validName uc) (Base (Clean path)) = true) /\
    (regexp.MatchString (validName uc) (Base (Clean path)) = false ->
     exists e w', sanitizePath uc path w = (Err e, w') /\ errors.Is e ErrInvalidName = true) /\
    (validName uc = regexp.word_hyphen_dot_space ->
     (forallb regexp.name_byte (Base (Clean path)) = true ->
      exists w', sanitizePath uc path w = (Ok (Clean path), w')) /\
     ((exists c, In c (Base (Clean path)) /\ regexp.name_byte c = false) ->
      exists e w', sanitizePath uc path w = (Err e, w') /\ errors.Is e ErrInvalidName = true) /\
     regexp.name_byte "<" = false /\ regexp.name_byte ">" = false).
Proof.
  intros S impl uc path w Ht Hl H1 H2.
  pose proof (name_ok_match uc path H1 H2) as Hn.
  split; [split|split].
  - intros (clean & w' & H). apply sanitizePath_Ok_inv in H as (_ & _ & _ & H).
    now rewrite <- Hn.
  - intros Hm. exists (Clean path). apply sanitizePath_accepts; congruence.
  - intros Hm. apply sanitizePath_invalid_name; congruence.
  - intros Hv. rewrite Hv in Hn. cbn [regexp.MatchString regexp.word_hyphen_dot_space] in Hn.
    apply bytes_eqb_neq in H1. unfold domain.PathEmpty in H1. rewrite H1 in Hn.
    cbn [negb andb] in Hn.
    split; [|split; [|split; reflexivity]].
    + intros Hall. apply sanitizePath_accepts; congruence.
    + intros (c & Hc & Hb). apply sanitizePath_invalid_name; try assumption.
      rewrite Hn. destruct (forallb regexp.name_byte (Base (Clean path))) eqn:E; [|reflexivity].
      rewrite forallb_forall in E. specialize (E c Hc). congruence.
Qed.

Lemma C5_name_pattern_witness :
  (exists e w', sanitizePath Examples.uc255 "docs/file<script>.txt" Examples.world_empty
                = (Err e, w') /\ errors.Is e ErrInvalidName = true) /\
  (exists w', sanitizePath Examples.uc255 "docs/my file-1.txt" Examples.world_empty
              = (Ok "docs/my file-1.txt", w')).
Proof.
  split.
  - assert (Ht : traversal_ok Examples.uc255 "docs/file<script>.txt" = true) by (vm_compute; reflexivity).
    assert (Hl : length_ok Examples.uc255 "docs/file<script>.txt" = true) by (vm_compute; reflexivity).
    assert (H1 : Base (Clean "docs/file<script>.txt") <> domain.PathEmpty) by (vm_compute; discriminate).
    assert (H2 : Base (Clean "docs/file<script>.txt") <> domain.PathCurrent) by (vm_compute; discriminate).
    destruct (@C5_name_pattern _ _ Examples.uc255 "docs/file<script>.txt" Examples.world_empty
                Ht Hl H1 H2) as (_ & _ & H).
    destruct (H eq_refl) as (_ & Hbad & _).
    apply Hbad. exists "<"%char. split; [vm_compute; tauto | reflexivity].
  - assert (Ht : traversal_ok Examples.uc255 "docs/my file-1.txt" = true) by (vm_compute; reflexivity).
    assert (Hl : length_ok Examples.uc255 "docs/my file-1.txt" = true) by (vm_compute; reflexivity).
    assert (H1 : Base (Clean "docs/my file-1.txt") <> domain.PathEmpty) by (vm_compute; discriminate).
    assert (H2 : Base (Clean "docs/my file-1.txt") <> domain.PathCurrent) by (vm_compute; discriminate).
    destruct (@C5_name_pattern _ _ Examples.uc255 "docs/my file-1.txt" Examples.world_empty
                Ht Hl H1 H2) as (_ & _ & H).
    destruct (H eq_refl) as (Hgood & _).
    apply Hgood. vm_compute. reflexivity.
Defined.

(** ** Serving a folder *)

Section Folder.

Context {S : Type} {storage_impl : FileStorage S}.
Variable uc : @FileManagementUseCase S.

(** [ServeFolderAsZip] after the sanitiser has accepted the path. *)
Lemma ServeFolderAsZip_accepted (path sp : bytes) (w w1 : world) :
  sanitizePath uc path w = (Ok sp, w1) ->
  ServeFolderAsZip uc path w =
  let fullPath := GetAbsolutePath (storage uc) sp in
  let w2 := {| disk := disk w1; calls := calls w1 ++ [CallGetAbsolutePath sp];
               logs := logs w1; response := response w1 |} in
  let notFound := Some (Errorf "could not stat folder '%s': %w" [ArgS sp]
                          (Sentinel ErrFileNotFound)) in
  match os.Stat (disk w) fullPath with
  | Err _ => (notFound, w2)
  | Ok info =>
      if negb (os.IsDir info) then (notFound, w2)
      else
        let w3 :=
          {| disk := disk w1; calls := calls w2; logs := logs w1;
             response :=
               {| http.Header :=
                    http.header_set "Content-Disposition"
                      (attachment (Base sp ++ domain.ExtensionZip))
                      (http.header_set "Content-Type" domain.MIMEZip
                         (http.Header (response w1)));
                  http.served := http.served (response w1);
                  http.archive := http.archive (response w1) |} |} in
        let (archiveErr, w4) := createZipArchive fullPath w3 in
        match archiveErr with
        | Some e =>
            (Some (Errorf "failed to create zip for folder '%s': %w" [ArgS sp] e), w4)
        | None => (None, w4)
        end
  end.
Proof.
  intros H. destruct (sanitizePath_world' _ _ _ H) as (Hd & _).
  unfold ServeFolderAsZip, bind. rewrite H.
  unfold storage_GetAbsolutePath, record_call, get_disk, modify_response, ret, bind.
  cbv beta iota zeta. cbn [disk calls logs response]. rewrite Hd.
  destruct (os.Stat (disk w) (GetAbsolutePath (storage uc) sp)) as [info|e]; [|reflexivity].
  destruct (negb (os.IsDir info)); [reflexivity|].
  destruct (createZipArchive _ _) as [[e|] w4]; reflexivity.
Qed.

End Folder.

(** C9.  For a path that the sanitiser accepts, when [Stat] of the
    resolved path fails, whatever the error (not found, permission denied
    or any other), or finds something that is not a directory,
    [ServeFolderAsZip] returns [FileNotFound]: the error wraps the
    sentinel [ErrFileNotFound] and nothing else, so it is neither
    [PermissionDenied] nor a wrapped stat error; nothing is written. *)
Theorem C9_stat_failure_is_not_found :
  forall (S : Type) (storage_impl : FileStorage S) (uc : @FileManagementUseCase S)
         (path sp : bytes) (w w1 : world),
    sanitizePath uc path w = (Ok sp, w1) ->
    (exists statErr, os.Stat (disk w) (GetAbsolutePath (storage uc) sp) = Err statErr) \/
    (exists info, os.Stat (disk w) (GetAbsolutePath (storage uc) sp) = Ok info /\
                  os.IsDir info = false) ->
    exists err w',
      ServeFolderAsZip uc path w = (Some err, w') /\
      err = Errorf "could not stat folder '%s': %w" [ArgS sp] (Sentinel ErrFileNotFound) /\
      errors.Is err ErrFileNotFound = true /\
      errors.Is err ErrPermissionDenied = false /\
      disk w' = disk w /\ response w' = response w.
Proof.
  intros S impl uc path sp w w1 H Hstat.
  destruct (sanitizePath_world' _ _ _ H) as (Hd & _ & Hr & _).
  rewrite (@ServeFolderAsZip_accepted _ _ uc path sp w w1 H). cbv zeta.
  destruct Hstat as [(e & ->) | (info & -> & ->)]; cbn [negb];
    eexists; eexists; (split; [reflexivity|]); auto.
Qed.

Lemma C9_stat_failure_is_not_found_witness :
  os.Stat (disk (Examples.world_of [("locked", os.Bad EACCES)])) "/storage/locked"
  = Err (Errno EACCES) /\
  exists w',
    ServeFolderAsZip Examples.uc255 "locked" (Examples.world_of [("locked", os.Bad EACCES)])
    = (Some (Errorf "could not stat folder '%s': %w" [ArgS "locked"]
               (Sentinel ErrFileNotFound)), w').
Proof.
  split; [reflexivity|].
  assert (H0 : sanitizePath Examples.uc255 "locked" (Examples.world_of [("locked", os.Bad EACCES)])
               = (Ok "locked", base_read (Examples.world_of [("locked", os.Bad EACCES)])))
    by (vm_compute; reflexivity).
  destruct (@C9_stat_failure_is_not_found _ _ Examples.uc255 "locked" "locked" _ _ H0)
    as (err & w' & Hrun & -> & _).
  - left. exists (Errno EACCES). reflexivity.
  - exists w'. exact Hrun.
Defined.



(** ** Listing and deleting on the local storage *)

Import OsFacts LocalFacts.

Section Local.

Variable uc : @FileManagementUseCase localstorage.LocalStorageService.

(** [List] after the sanitiser has accepted the path, on a directory. *)
Lemma List_directory (path sp : bytes) (w w1 : world) (es : list (bytes * os.node)) :
  sanitizePath uc path w = (Ok sp, w1) ->
  os.lookup (disk w) (localstorage.GetAbsolutePath (storage uc) sp) = inl (os.Dir es) ->
  List uc path w =
  let (files, w') :=
    localstorage.collect_infos (map entry_of es) []
      {| disk := disk w1; calls := calls w1 ++ [CallReadDirectory sp];
         logs := logs w1; response := response w1 |} in
  (Ok (map FileData_of files), w').
Proof.
  intros H Hl. destruct (sanitizePath_world' _ _ _ H) as (Hd & _).
  unfold List, bind. rewrite H.
  unfold storage_ReadDirectory, record_call, bind. cbv beta iota zeta.
  cbn [ReadDirectory LocalStorage_FileStorage].
  unfold localstorage.ReadDirectory, bind, get_disk, os.ReadDir.
  cbv beta iota zeta. cbn [disk]. rewrite Hd, Hl.
  unfold ret, bind.
  destruct (localstorage.collect_infos _ _ _) as [files w']. reflexivity.
Qed.

Lemma collect_infos_disk (l : list os.DirEntry) :
  forall files w, disk (snd (localstorage.collect_infos l files w)) = disk w.
Proof.
  induction l as [|e l IH]; intros files w; [reflexivity|].
  cbn [localstorage.collect_infos]. destruct (os.Info e); [apply IH|].
  unfold bind, log. cbv beta iota zeta. now rewrite IH.
Qed.

End Local.

(** C8.  A listing of a directory in which the metadata lookup of exactly
    one entry fails: [List] succeeds and returns the other entries, in
    their order, as [FileData] with the name and the directory flag of
    each; the failing entry is left out, and the file system is unchanged. *)
Theorem C8_listing_skips_unreadable_entry :
  forall (uc : @FileManagementUseCase localstorage.LocalStorageService)
         (path sp : bytes) (w w1 : world)
         (before after : list (bytes * os.node)) (name : bytes) (e : errno),
    sanitizePath uc path w = (Ok sp, w1) ->
    os.lookup (disk w) (localstorage.GetAbsolutePath (storage uc) sp)
    = inl (os.Dir (before ++ (name, os.Bad e) :: after)) ->
    Forall info_ok before -> Forall info_ok after ->
    exists w',
      List uc path w = (Ok (map FileData_of_entry (before ++ after)), w') /\
      disk w' = disk w.
Proof.
  intros uc path sp w w1 before after name e H Hl Hb Ha.
  destruct (sanitizePath_world' _ _ _ H) as (Hd & _).
  rewrite (@List_directory uc path sp w w1 _ H Hl).
  match goal with
  | |- context [localstorage.collect_infos ?l ?f ?w0] =>
      pose proof (collect_infos_disk l f w0) as Hdisk;
      assert (Hfiles : fst (localstorage.collect_infos l f w0)
                       = map info_of_entry (before ++ after));
      [|destruct (localstorage.collect_infos l f w0) as [files w']]
  end.
  - rewrite map_app. simpl map. rewrite collect_infos_ok by assumption.
    cbn [localstorage.collect_infos entry_of os.Info os.entry_node snd].
    unfold bind, log. cbv beta iota zeta.
    rewrite <- (app_nil_r (map entry_of after)).
    rewrite collect_infos_ok by assumption.
    cbn [localstorage.collect_infos ret fst]. now rewrite map_app.
  - cbn [fst snd] in *. subst files. exists w'. split.
    + f_equal. rewrite map_map. reflexivity.
    + rewrite Hdisk. exact Hd.
Qed.

Lemma C8_listing_skips_unreadable_entry_witness :
  exists w',
    List Examples.uc255 "docs" Examples.world_broken
    = (Ok [ {| domain.Name := "a.txt"; domain.IsDir := false |};
            {| domain.Name := "sub"; domain.IsDir := true |} ], w').
Proof.
  assert (H0 : sanitizePath Examples.uc255 "docs" Examples.world_broken
               = (Ok "docs", base_read Examples.world_broken)) by (vm_compute; reflexivity).
  destruct (@C8_listing_skips_unreadable_entry Examples.uc255 "docs" "docs" _ _
              [("a.txt", os.File "A")] [("sub", os.Dir [])] "link" ENOENT H0)
    as (w' & Hrun & _).
  - reflexivity.
  - repeat constructor.
  - repeat constructor.
  - exists w'. exact Hrun.
Defined.

(** C6, as stated, fails: ["docs/a.txt/child"] is accepted by the
    sanitiser and nothing exists at it, since ["docs/a.txt"] is a regular
    file ([Stat] fails with [ENOTDIR], for which [os.IsNotExist] does not
    hold); [Delete] returns that error, wrapped. *)
Lemma C6_below_file_counterexample :
  fst (sanitizePath Examples.uc255 "docs/a.txt/child" Examples.world_broken)
  = Ok "docs/a.txt/child" /\
  os.lookup (disk Examples.world_broken) "/storage/docs/a.txt" = inl (os.File "A") /\
  os.Stat (disk Examples.world_broken)
          (GetAbsolutePath (storage Examples.uc255) "docs/a.txt/child")
  = Err (Errno ENOTDIR) /\
  os.IsNotExist (Errno ENOTDIR) = false /\
  fst (Delete Examples.uc255 "docs/a.txt/child" Examples.world_broken)
  = Some (Errorf "could not delete file/folder '%s': %w"
                 [ArgS "docs/a.txt/child"] (Errno ENOTDIR)).
Proof.
  repeat split; vm_compute; reflexivity.
Qed.

(** C6 (amended).  On the local storage with an absolute base directory,
    for a path that the sanitiser accepts and whose target is missing in
    the sense of [os.IsNotExist] ([Stat] of the resolved path fails with
    an error for which [os.IsNotExist] holds: the last name, or a
    directory on the way to it, is not there), [Delete] returns no error
    at all and the file system is unchanged. *)
Theorem C6_delete_absent_is_success :
  forall (uc : @FileManagementUseCase localstorage.LocalStorageService)
         (path sp : bytes) (w w1 : world) (statErr : error),
    IsAbs (localstorage.basePath (storage uc)) = true ->
    sanitizePath uc path w = (Ok sp, w1) ->
    os.Stat (disk w) (localstorage.GetAbsolutePath (storage uc) sp) = Err statErr ->
    os.IsNotExist statErr = true ->
    exists w', Delete uc path w = (None, w') /\ disk w' = disk w.
Proof.
  intros uc path sp w w1 statErr Habs H Hstat Hnot.
  destruct (sanitizePath_world' _ _ _ H) as (Hd & _).
  destruct (@local_abspath (storage uc) sp Habs) as (ns & Hns & Hfull).
  assert (Hres : os.resolve (disk w) ns = inr ENOENT).
  { unfold os.Stat in Hstat. rewrite Hfull, lookup_abspath in Hstat by assumption.
    destruct (os.resolve (disk w) ns) as [nd|e]; [discriminate|].
    injection Hstat as <-. destruct e; try discriminate. reflexivity. }
  unfold Delete, bind. rewrite H.
  unfold storage_Remove, record_call, bind. cbv beta iota zeta.
  cbn [Remove LocalStorage_FileStorage].
  unfold localstorage.Remove, os_update, bind, get_disk, put_disk, ret.
  cbv beta iota zeta. cbn [disk]. rewrite Hd, Hfull.
  unfold os.RemoveAll. unfold abspath at 1. fold (abspath ns).
  rewrite endsWithDot_abspath, names_abspath by assumption.
  destruct (remove_at_absent _ _ Hres) as [-> | ->];
    eexists; (split; [reflexivity | reflexivity]).
Qed.

Lemma C6_delete_absent_is_success_witness :
  exists w',
    Delete Examples.uc255 "docs/nothing.txt" Examples.world_broken = (None, w') /\
    disk w' = disk Examples.world_broken.
Proof.
  assert (H0 : sanitizePath Examples.uc255 "docs/nothing.txt" Examples.world_broken
               = (Ok "docs/nothing.txt", base_read Examples.world_broken))
    by (vm_compute; reflexivity).
  assert (Habs : IsAbs (localstorage.basePath (storage Examples.uc255)) = true)
    by reflexivity.
  apply (@C6_delete_absent_is_success Examples.uc255 "docs/nothing.txt" "docs/nothing.txt"
           _ _ (Errno ENOENT) Habs H0); reflexivity.
Defined.

(** ** Confinement *)

(** C3.  With a validated configuration ([max_name_length] greater than
    zero) the sanitiser accepts the empty string, returns ["."], and
    resolving ["."] against the base directory gives the base directory
    itself. *)
Theorem C3_empty_path_is_base :
  forall (S : Type) (storage_impl : FileStorage S) (uc : @FileManagementUseCase S)
         (w : world),
    config.validatePositiveInt "file.max_name_length" (MaxNameLength uc) = None ->
    (exists w', sanitizePath uc [] w = (Ok ".", w')) /\
    Join [basePath uc; "."] = basePath uc.
Proof.
  intros S impl uc w Hmax.
  assert (Hjoin : Join [basePath uc; "."] = basePath uc).
  { unfold basePath. rewrite Join_pair by apply Clean_not_nil. apply Clean_dot_suffix. }
  split; [|exact Hjoin].
  apply (sanitizePath_accepts uc [] w).
  - unfold traversal_ok. change (Clean []) with ".". cbv zeta.
    match goal with
    | |- context [Join ?l] =>
        replace (Join l) with (basePath uc) by (symmetry; exact Hjoin)
    end.
    rewrite Rel_same. reflexivity.
  - unfold length_ok. change (len (Clean [])) with 1%Z.
    unfold config.validatePositiveInt in Hmax.
    destruct (Z.leb_spec (MaxNameLength uc) 0); [discriminate|].
    apply Z.leb_le. lia.
  - reflexivity.
Qed.

Lemma C3_empty_path_is_base_witness :
  basePath Examples.uc255 = "/storage" /\
  (exists w', sanitizePath Examples.uc255 [] Examples.world_empty = (Ok ".", w')) /\
  Join [basePath Examples.uc255; "."] = basePath Examples.uc255.
Proof.
  split; [reflexivity|].
  apply (@C3_empty_path_is_base _ _ Examples.uc255 Examples.world_empty). reflexivity.
Defined.

(** C1.  With an absolute base directory: when the sanitiser accepts an
    input [p], the path that its result resolves to against the base
    directory is the base directory followed by ordinary names (none of
    them [".."] or ["."]), so it stays inside the base directory; and an
    input [q] that is absolute, or whose relative path from the base
    directory to its resolved target starts with [".."], is rejected with
    [PathTraversal]. *)
Theorem C1_confinement :
  forall (S : Type) (storage_impl : FileStorage S) (uc : @FileManagementUseCase S)
         (p q clean : bytes) (w w' : world),
    IsAbs (GetAbsolutePath (storage uc) []) = true ->
    sanitizePath uc p w = (Ok clean, w') ->
    (IsAbs q = true \/
     exists rel, Rel (basePath uc) (Join [basePath uc; Clean q]) = Ok rel /\
                 strings.HasPrefix rel domain.PathTraversalPrefix = true) ->
    (exists base rest,
       names_ok base /\ names_ok rest /\
       basePath uc = abspath base /\
       Join [basePath uc; clean] = abspath (base ++ rest)) /\
    (exists e w'', sanitizePath uc q w = (Err e, w'') /\
                   errors.Is e ErrPathTraversal = true).
Proof.
  intros S impl uc p q clean w w' Habs Hp Hq. split.
  - apply sanitizePath_Ok_inv in Hp as (-> & Ht & _ & _).
    unfold traversal_ok in Ht. cbv zeta in Ht.
    apply andb_prop in Ht as [_ Ht].
    rewrite IsAbs_slashed in Habs.
    destruct (@Clean_rooted (GetAbsolutePath (storage uc) []) Habs) as (bs & Hbs & _ & Hbase).
    fold (basePath uc) in Hbase. rewrite Hbase in *.
    rewrite Join_pair in * by discriminate.
    destruct (@Clean_abspath_app bs (Clean p) Hbs) as (ms & Hms & _ & Hfull).
    rewrite Hfull in *.
    destruct (@Rel_abspath bs ms Hbs Hms) as (r & Hr & Hcase).
    rewrite Hr in Ht. apply negb_true_iff in Ht.
    pose proof (strip_common_prefix bs ms) as Hpre.
    destruct (fst (strip_common bs ms)) as [|b' bs'].
    + specialize (Hpre eq_refl). exists bs, (snd (strip_common bs ms)).
      rewrite <- Hpre. repeat split; auto.
      rewrite Hpre in Hms. now apply Forall_app in Hms as [_ ?].
    + unfold domain.PathTraversalPrefix in Ht. congruence.
  - destruct (traversal_error uc q w) as (e & He & His).
    + unfold traversal_ok. cbv zeta. destruct Hq as [Hq | (rel & -> & ->)].
      * now rewrite IsAbs_Clean, Hq.
      * apply andb_false_r.
    + destruct (sanitizePath_pair uc q w) as (w'' & Hrun).
      exists e, w''. rewrite Hrun, He. auto.
Qed.

Lemma C1_confinement_witness :
  (exists base rest,
     names_ok base /\ names_ok rest /\
     basePath Examples.uc255 = abspath base /\
     Join [basePath Examples.uc255; "../storage/docs/file.txt"] = abspath (base ++ rest)) /\
  (exists e w'', sanitizePath Examples.uc255 "docs/../../etc/passwd" Examples.world_empty
                 = (Err e, w'') /\ errors.Is e ErrPathTraversal = true).
Proof.
  assert (H0 : sanitizePath Examples.uc255 "../storage/./docs//file.txt" Examples.world_empty
               = (Ok "../storage/docs/file.txt", base_read Examples.world_empty))
    by (vm_compute; reflexivity).
  assert (Habs : IsAbs (GetAbsolutePath (storage Examples.uc255) []) = true)
    by (vm_compute; reflexivity).
  apply (@C1_confinement _ _ Examples.uc255 "../storage/./docs//file.txt"
           "docs/../../etc/passwd" _ _ _ Habs H0).
  right. exists "../etc/passwd". split; vm_compute; reflexivity.
Defined.

(** On the local storage the path that a storage call resolves is the one
    that the sanitiser has checked. *)
Lemma local_resolution_checked
    (uc : @FileManagementUseCase localstorage.LocalStorageService) (clean : bytes) :
  IsAbs (localstorage.basePath (storage uc)) = true ->
  GetAbsolutePath (storage uc) clean = Join [basePath uc; clean].
Proof.
  intros Habs. unfold basePath. cbn [GetAbsolutePath LocalStorage_FileStorage].
  unfold localstorage.GetAbsolutePath.
  pose proof (@IsAbs_not_nil _ Habs) as Hne.
  rewrite !Join_pair by (assumption || apply Clean_not_nil).
  rewrite IsAbs_slashed in Habs.
  assert (Hb : Clean (localstorage.basePath (storage uc) ++ Separator :: [])
               = Clean (localstorage.basePath (storage uc))).
  { destruct (@Clean_rooted (localstorage.basePath (storage uc)) Habs) as (ns & Hns & Hn & Hc).
    destruct (@Clean_rooted (localstorage.basePath (storage uc) ++ Separator :: []))
      as (ms & Hms & Hm & Hc').
    - now rewrite slashed_app.
    - rewrite split_app, norm_app, Hn in Hm. change (norm true (split []) (rev ns)) with (rev ns) in Hm.
      apply (f_equal (@rev bytes)) in Hm. rewrite !rev_involutive in Hm. congruence. }
  rewrite Hb. rewrite (@Clean_app_Clean (localstorage.basePath (storage uc)) clean Habs).
  destruct (@Clean_rooted (localstorage.basePath (storage uc)) Habs) as (ns & Hns & _ & ->).
  now rewrite Clean_abspath.
Qed.

(** ** The archive of a folder *)

Import WalkFacts.





(** * Paths, the file tree and the operations: further lemmas *)

(** ** Cleaning twice *)

Module CleanTwice.
Import filepath PathTheory PathFacts.

Lemma Clean_idem (p : bytes) : Clean (Clean p) = Clean p.
Proof.
  destruct (Clean_norm p) as (ns & k & Hns & Hk & _ & Hc).
  destruct (Nat.eqb_spec (length (out_of (slashed p) (ns ++ dots k))) 0) as [E|E].
  { rewrite Hc. reflexivity. }
  destruct (Clean_norm (Clean p)) as (ns' & k' & _ & _ & Hnorm' & Hc').
  assert (Hs : slashed (Clean p) = slashed p).
  { rewrite Hc. now apply render_slashed. }
  rewrite Hs in Hnorm', Hc'. rewrite Hc in Hnorm' at 1.
  rewrite norm_render in Hnorm' by assumption.
  rewrite Hc', <- Hnorm'.
  destruct (Nat.eqb_spec (length (out_of (slashed p) (ns ++ dots k))) 0); [contradiction|].
  now rewrite Hc.
Qed.

End CleanTwice.

(** ** The file tree under the operations of [os] *)

Module TreeFacts.
Import filepath PathTheory PathFacts OsFacts.

Lemma find_child_replace (n : bytes) (x : os.node) (es : list (bytes * os.node)) :
  os.find_child n es <> None -> os.find_child n (os.replace_child n x es) = Some x.
Proof.
  induction es as [|[m c] es IH]; [intros H; now contradiction H|].
  cbn [os.find_child os.replace_child].
  destruct (bytes_eqb m n) eqn:E; cbn [os.find_child]; rewrite E; [reflexivity | exact IH].
Qed.

Lemma find_child_insert (n : bytes) (x : os.node) (es : list (bytes * os.node)) :
  os.find_child n es = None -> os.find_child n (os.insert_child n x es) = Some x.
Proof.
  induction es as [|[m c] es IH]; cbn [os.find_child os.insert_child].
  - now rewrite bytes_eqb_refl.
  - destruct (bytes_eqb m n) eqn:E; [discriminate|]. intros H.
    destruct (os.bytes_leb n m); cbn [os.find_child].
    + now rewrite bytes_eqb_refl.
    + rewrite E. now apply IH.
Qed.

Lemma find_child_set (n : bytes) (x : os.node) (es : list (bytes * os.node)) :
  os.find_child n (os.set_child n x es) = Some x.
Proof.
  unfold os.set_child. destruct (os.find_child n es) eqn:E.
  - apply find_child_replace. congruence.
  - now apply find_child_insert.
Qed.

Lemma find_child_remove (n : bytes) (es : list (bytes * os.node)) :
  os.find_child n (os.remove_child n es) = None.
Proof.
  unfold os.remove_child. induction es as [|[m c] es IH]; [reflexivity|].
  cbn [filter fst]. destruct (bytes_eqb m n) eqn:E; cbn [negb]; [exact IH|].
  cbn [os.find_child]. now rewrite E.
Qed.

(** A file that [create_at] has written is found at its path. *)
Lemma create_at_resolve (data : bytes) (cs : list bytes) : forall (nd nd' : os.node),
  os.create_at cs data nd = (None, nd') -> os.resolve nd' cs = inl (os.File data).
Proof.
  induction cs as [|c cs IH]; intros nd nd' H; [discriminate|].
  destruct nd as [d|es|e]; cbn [os.create_at] in H; try discriminate.
  destruct cs as [|c' cs].
  - assert (Hnd : nd' = os.Dir (os.set_child c (os.File data) es)).
    { destruct (os.find_child c es) as [[d|es'|e]|]; congruence. }
    subst nd'. cbn [os.resolve]. now rewrite find_child_set.
  - destruct (os.find_child c es) as [ch|]; [|discriminate].
    destruct (os.create_at (c' :: cs) data ch) as [r ch'] eqn:E.
    injection H as -> <-. cbn [os.resolve]. rewrite find_child_set.
    exact (IH _ _ E).
Qed.

Lemma create_at_directory (data : bytes) (cs : list bytes) : forall (nd : os.node) es,
  os.resolve nd cs = inl (os.Dir es) -> os.create_at cs data nd = (Some EISDIR, nd).
Proof.
  induction cs as [|c cs IH]; intros nd es H; [reflexivity|].
  destruct nd as [d|es0|e0]; cbn [os.resolve] in H; try discriminate.
  destruct (os.find_child c es0) as [ch|] eqn:Ec; [|discriminate].
  cbn [os.create_at]. rewrite Ec. destruct cs as [|c' cs].
  - destruct ch; cbn [os.resolve] in H; try discriminate. reflexivity.
  - rewrite (IH _ _ H). now rewrite set_child_same.
Qed.

(** [mkdir_all] on a path that is a directory changes nothing. *)
Lemma mkdir_all_existing (cs : list bytes) : forall (nd : os.node) es,
  os.resolve nd cs = inl (os.Dir es) -> os.mkdir_all cs nd = (None, nd).
Proof.
  induction cs as [|c cs IH]; intros nd es H.
  - destruct nd; cbn [os.resolve] in H; try discriminate. reflexivity.
  - destruct nd as [d|es0|e0]; cbn [os.resolve] in H; try discriminate.
    destruct (os.find_child c es0) as [ch|] eqn:Ec; [|discriminate].
    cbn [os.mkdir_all]. rewrite Ec, (IH _ _ H). now rewrite set_child_same.
Qed.

(** After a successful [mkdir_all] the path is a directory. *)
Lemma mkdir_all_resolve (cs : list bytes) : forall (nd nd' : os.node),
  os.mkdir_all cs nd = (None, nd') -> exists es, os.resolve nd' cs = inl (os.Dir es).
Proof.
  induction cs as [|c cs IH]; intros nd nd' H.
  - destruct nd as [d|es|e]; cbn [os.mkdir_all] in H; try discriminate.
    injection H as <-. now exists es.
  - destruct nd as [d|es|e]; cbn [os.mkdir_all] in H; try discriminate.
    destruct (os.mkdir_all cs _) as [r ch'] eqn:E. injection H as -> <-.
    cbn [os.resolve]. rewrite find_child_set. exact (IH _ _ E).
Qed.

(** What [remove_at] has removed is not found any more. *)
Lemma remove_at_gone (cs : list bytes) : forall (nd nd' : os.node),
  os.remove_at cs nd = (None, nd') -> os.resolve nd' cs = inr ENOENT.
Proof.
  induction cs as [|c cs IH]; intros nd nd' H.
  - destruct nd; discriminate.
  - destruct nd as [d|es|e]; cbn [os.remove_at] in H; try discriminate.
    destruct (os.find_child c es) as [ch|] eqn:Ec.
    + destruct cs as [|c' cs].
      * destruct ch; try discriminate; injection H as <-; cbn [os.resolve];
          now rewrite find_child_remove.
      * destruct (os.remove_at (c' :: cs) ch) as [[e|] ch'] eqn:E; [discriminate|].
        injection H as <-. cbn [os.resolve]. rewrite find_child_set. exact (IH _ _ E).
    + injection H as <-. cbn [os.resolve]. now rewrite Ec.
Qed.

Lemma remove_at_ENOENT (cs : list bytes) : forall (nd nd' : os.node),
  os.remove_at cs nd = (Some ENOENT, nd') -> nd' = nd /\ os.resolve nd cs = inr ENOENT.
Proof.
  induction cs as [|c cs IH]; intros nd nd' H.
  - destruct nd; cbn [os.remove_at] in H; try discriminate. injection H as -> <-. now split.
  - destruct nd as [d|es|e]; cbn [os.remove_at] in H; try discriminate.
    + destruct (os.find_child c es) as [ch|] eqn:Ec; [|discriminate].
      cbn [os.resolve]. rewrite Ec. destruct cs as [|c' cs].
      * destruct ch; try discriminate. injection H as -> <-. now split.
      * destruct (os.remove_at (c' :: cs) ch) as [[e|] ch'] eqn:E; [|discriminate].
        injection H as -> <-. split; [reflexivity|]. now apply (IH _ _ E).
    + injection H as -> <-. now split.
Qed.

(** A path that resolves runs through directories. *)
Lemma resolve_parent (ms : list bytes) (n : bytes) : forall (d nd : os.node),
  os.resolve d (ms ++ [n]) = inl nd -> exists es, os.resolve d ms = inl (os.Dir es).
Proof.
  induction ms as [|m ms IH]; intros d nd H.
  - destruct d as [data|es|e]; cbn [app os.resolve] in *; try discriminate. now exists es.
  - destruct d as [data|es|e]; cbn [app os.resolve] in *; try discriminate.
    destruct (os.find_child m es) as [ch|]; [|discriminate]. exact (IH _ _ H).
Qed.

End TreeFacts.

(** ** What the operations leave alone *)

Module FrameFacts.
Import filepath PathTheory PathFacts usecases Spec SanitizeFacts OsFacts LocalFacts.
Import WalkFacts Checked.

Lemma same_store_refl (w : world) : same_store w w.
Proof. now repeat split. Qed.

Lemma same_store_trans (w1 w2 w3 : world) :
  same_store w1 w2 -> same_store w2 w3 -> same_store w1 w3.
Proof. intros (A & B & C) (A' & B' & C'). repeat split; congruence. Qed.

Lemma addFileToZip_store (fullPath filePath : bytes) (w : world) :
  same_store w (snd (addFileToZip fullPath filePath w)).
Proof.
  unfold addFileToZip. destruct (Rel fullPath filePath); [|apply same_store_refl].
  unfold bind, zip_Create, get_disk, modify_response. cbv beta iota zeta. cbn [disk].
  destruct (os.Open (disk w) filePath) as [nd|e]; [|now repeat split].
  destruct (os.read_all nd); now repeat split.
Qed.

Lemma zipWalkFunc_store (root file : bytes) (info : option os.FileInfo)
    (walkErr : option error) (w : world) :
  same_store w (snd (zipWalkFunc root file info walkErr w)).
Proof.
  unfold zipWalkFunc. destruct walkErr; [apply same_store_refl|].
  destruct info as [info|]; [|apply same_store_refl].
  destruct (shouldSkipFile info).
  - destruct (os.IsDir info); apply same_store_refl.
  - destruct (os.IsDir info); [apply same_store_refl | apply addFileToZip_store].
Qed.

Lemma walk_names_store (root path : bytes) (es : list (bytes * os.node)) :
  Forall (fun e => forall p info w,
            same_store w (snd (walk (zipWalkFunc root) p info (snd e) w))) es ->
  forall w, same_store w (snd (walk_names (walk (zipWalkFunc root)) (zipWalkFunc root) path es w)).
Proof.
  induction 1 as [|[n c] es Hc _ IH]; intros w; [apply same_store_refl|].
  cbn [walk_names snd] in *.
  destruct c as [data|es'|e].
  - unfold bind.
    pose proof (Hc (Join [path; n])
                   {| os.Name := os.basename (Join [path; n]);
                      os.IsDir := os.is_dir (os.File data) |} w) as Hw.
    destruct (walk _ _ _ _ w) as [r w1]. cbn [snd] in Hw.
    destruct r as [e'|].
    + destruct (negb _ || negb _); [exact Hw|].
      eapply same_store_trans; [exact Hw | apply IH].
    + eapply same_store_trans; [exact Hw | apply IH].
  - unfold bind.
    pose proof (Hc (Join [path; n])
                   {| os.Name := os.basename (Join [path; n]);
                      os.IsDir := os.is_dir (os.Dir es') |} w) as Hw.
    destruct (walk _ _ _ _ w) as [r w1]. cbn [snd] in Hw.
    destruct r as [e'|].
    + destruct (negb _ || negb _); [exact Hw|].
      eapply same_store_trans; [exact Hw | apply IH].
    + eapply same_store_trans; [exact Hw | apply IH].
  - unfold bind.
    pose proof (zipWalkFunc_store root (Join [path; n]) None (Some (Errno e)) w) as Hw.
    destruct (zipWalkFunc _ _ _ _ w) as [r w1]. cbn [snd] in Hw.
    destruct r as [e'|].
    + destruct (is_SkipDir e'); [|exact Hw].
      eapply same_store_trans; [exact Hw | apply IH].
    + eapply same_store_trans; [exact Hw | apply IH].
Qed.

Lemma walk_store (root : bytes) :
  forall (nd : os.node) (p : bytes) (info : os.FileInfo) (w : world),
  same_store w (snd (walk (zipWalkFunc root) p info nd w)).
Proof.
  apply (node_ind2 (fun nd => forall p info w,
           same_store w (snd (walk (zipWalkFunc root) p info nd w)))).
  - intros data p info w. apply zipWalkFunc_store.
  - intros e p info w. apply zipWalkFunc_store.
  - intros es IH p info w. cbn [walk]. unfold bind.
    pose proof (zipWalkFunc_store root p (Some info) None w) as Hw.
    destruct (zipWalkFunc _ _ _ _ w) as [r w1]. cbn [snd] in Hw.
    destruct r as [e|]; [exact Hw|].
    eapply same_store_trans; [exact Hw | now apply walk_names_store].
Qed.

Lemma createZipArchive_store (fullPath : bytes) (w : world) :
  same_store w (snd (createZipArchive fullPath w)).
Proof.
  unfold createZipArchive, Walk, bind, get_disk. cbv beta iota zeta.
  match goal with
  | |- same_store w (snd (let (_, _) := ?m in _)) =>
      assert (H : same_store w (snd m)); [|destruct m as [r w1]]
  end.
  { destruct (os.Lstat _ _); [destruct (os.lookup _ _)|];
      [apply walk_store | apply zipWalkFunc_store | apply zipWalkFunc_store]. }
  cbn [snd] in H. destruct r as [e|]; [destruct (is_SkipDir e)|]; exact H.
Qed.

End FrameFacts.

(** ** The trace of calls *)

Module CheckedFacts.
Import filepath PathTheory PathFacts usecases Spec SanitizeFacts OsFacts LocalFacts.
Import WalkFacts Checked CleanTwice FrameFacts.

Section Generic.

Context {S : Type} {storage_impl : FileStorage S}.
Variable uc : @FileManagementUseCase S.

Lemma sanitized_result (p c : bytes) (w w' : world) :
  sanitizePath uc p w = (Ok c, w') -> sanitized uc c = true.
Proof.
  intros H. destruct (sanitizePath_Ok_inv _ _ _ H) as (-> & Ht & Hl & Hn).
  unfold sanitized, traversal_ok, length_ok, name_ok in *. cbv zeta in *.
  rewrite !Clean_idem, bytes_eqb_refl, Ht, Hl, Hn. reflexivity.
Qed.

Lemma sanitized_accepted (c : bytes) (v : world) :
  sanitized uc c = true -> exists v', sanitizePath uc c v = (Ok c, v').
Proof.
  unfold sanitized. intros H.
  apply andb_prop in H as [H Hn]. apply andb_prop in H as [H Hl].
  apply andb_prop in H as [Hc Ht]. apply bytes_eqb_eq in Hc.
  destruct (sanitizePath_pair uc c v) as (v' & Hv). exists v'.
  rewrite Hv. f_equal. rewrite sanitizePath_result, Ht, Hl, Hn. cbn [negb]. now rewrite Hc.
Qed.

End Generic.

(** The methods of the local storage keep the trace of calls. *)
Lemma os_update_calls (f : os.node -> option error * os.node) (w : world) :
  calls (snd (os_update f w)) = calls w.
Proof.
  unfold os_update, bind, get_disk, put_disk, ret. cbv beta iota zeta.
  now destruct (f (disk w)).
Qed.

Lemma collect_infos_calls (l : list os.DirEntry) :
  forall files w, calls (snd (localstorage.collect_infos l files w)) = calls w.
Proof.
  induction l as [|e l IH]; intros files w; [reflexivity|].
  cbn [localstorage.collect_infos]. destruct (os.Info e); [apply IH|].
  unfold bind, log. cbv beta iota zeta. now rewrite IH.
Qed.

Lemma local_ReadDirectory_calls (s : localstorage.LocalStorageService) (rel : bytes) (w : world) :
  calls (snd (localstorage.ReadDirectory s rel w)) = calls w.
Proof.
  unfold localstorage.ReadDirectory, bind, get_disk. cbv beta iota zeta.
  destruct (os.ReadDir _ _) as [entries|e]; [|reflexivity].
  pose proof (collect_infos_calls entries [] w) as H.
  destruct (localstorage.collect_infos entries [] w). exact H.
Qed.

Lemma local_WriteFile_calls (s : localstorage.LocalStorageService) (rel file : bytes) (w : world) :
  calls (snd (localstorage.WriteFile s rel file w)) = calls w.
Proof.
  unfold localstorage.WriteFile, bind. cbv zeta.
  pose proof (os_update_calls
                (fun d => os.MkdirAll d (Dir (localstorage.GetAbsolutePath s rel))) w) as H.
  destruct (os_update _ w) as [r w1]. cbn [snd] in H.
  destruct r; [exact H|]. now rewrite os_update_calls.
Qed.

Section LocalCalls.

Variable uc : @FileManagementUseCase localstorage.LocalStorageService.

Local Abbreviation traced := (Checked.traced uc).

Lemma traced_sanitizer (w w' : world) : sanitizer_only w w' -> traced w w'.
Proof.
  intros (_ & _ & _ & n & H). exists (repeat (CallGetAbsolutePath []) n). split; [exact H|].
  clear H. induction n; [reflexivity | exact IHn].
Qed.

Lemma traced_step (w w1 w2 : world) (c : call) :
  traced w w1 -> call_ok uc c = true -> calls w2 = calls w1 ++ [c] -> traced w w2.
Proof.
  intros (l & H & Hl) Hc H2. exists (l ++ [c]). split.
  - now rewrite H2, H, app_assoc.
  - rewrite forallb_app, Hl. cbn. now rewrite Hc.
Qed.

Lemma traced_List (path : bytes) (w : world) : traced w (snd (List uc path w)).
Proof.
  destruct (sanitizePath uc path w) as [[sp|e] w1] eqn:H.
  - pose proof (traced_sanitizer (sanitizePath_world' _ _ _ H)) as Ht.
    eapply traced_step with (c := CallReadDirectory sp); [exact Ht | |].
    + exact (sanitized_result _ _ _ H).
    + unfold List, bind. rewrite H.
      unfold storage_ReadDirectory, record_call, bind. cbv beta iota zeta.
      cbn [ReadDirectory LocalStorage_FileStorage].
      match goal with
      | |- context [localstorage.ReadDirectory ?s ?r ?v] =>
          pose proof (local_ReadDirectory_calls s r v) as Hc;
          destruct (localstorage.ReadDirectory s r v) as [[files|err] w2]
      end; cbn [snd calls] in Hc.
      * exact Hc.
      * destruct (os.IsNotExist err); [exact Hc|]. destruct (os.IsPermission err); exact Hc.
  - rewrite (@abort_List _ _ uc _ _ _ _ H). apply traced_sanitizer, (sanitizePath_world' _ _ _ H).
Qed.

Lemma traced_UploadFile (path file : bytes) (w : world) :
  traced w (snd (UploadFile uc path file w)).
Proof.
  destruct (sanitizePath uc path w) as [[sp|e] w1] eqn:H.
  - pose proof (traced_sanitizer (sanitizePath_world' _ _ _ H)) as Ht.
    eapply traced_step with (c := CallWriteFile sp file); [exact Ht | |].
    + exact (sanitized_result _ _ _ H).
    + unfold UploadFile, bind. rewrite H.
      unfold storage_WriteFile, record_call, bind. cbv beta iota zeta.
      cbn [WriteFile LocalStorage_FileStorage].
      match goal with
      | |- context [localstorage.WriteFile ?s ?r ?f ?v] =>
          pose proof (local_WriteFile_calls s r f v) as Hc;
          destruct (localstorage.WriteFile s r f v) as [[err|] w2]
      end; exact Hc.
  - rewrite (@abort_UploadFile _ _ uc _ _ _ _ _ H).
    apply traced_sanitizer, (sanitizePath_world' _ _ _ H).
Qed.

Lemma traced_Delete (path : bytes) (w : world) : traced w (snd (Delete uc path w)).
Proof.
  destruct (sanitizePath uc path w) as [[sp|e] w1] eqn:H.
  - pose proof (traced_sanitizer (sanitizePath_world' _ _ _ H)) as Ht.
    eapply traced_step with (c := CallRemove sp); [exact Ht | |].
    + exact (sanitized_result _ _ _ H).
    + unfold Delete, bind. rewrite H.
      unfold storage_Remove, record_call, bind. cbv beta iota zeta.
      cbn [Remove LocalStorage_FileStorage]. unfold localstorage.Remove.
      match goal with
      | |- context [os_update ?f ?v] =>
          pose proof (os_update_calls f v) as Hc; destruct (os_update f v) as [[err|] w2]
      end; exact Hc.
  - rewrite (@abort_Delete _ _ uc _ _ _ _ H).
    apply traced_sanitizer, (sanitizePath_world' _ _ _ H).
Qed.

Lemma traced_CreateFolder (path : bytes) (w : world) :
  traced w (snd (CreateFolder uc path w)).
Proof.
  destruct (sanitizePath uc path w) as [[sp|e] w1] eqn:H.
  - pose proof (traced_sanitizer (sanitizePath_world' _ _ _ H)) as Ht.
    eapply traced_step with (c := CallCreateDirectory sp); [exact Ht | |].
    + exact (sanitized_result _ _ _ H).
    + unfold CreateFolder, bind. rewrite H.
      unfold storage_CreateDirectory, record_call, bind. cbv beta iota zeta.
      cbn [CreateDirectory LocalStorage_FileStorage]. unfold localstorage.CreateDirectory.
      match goal with
      | |- context [os_update ?f ?v] =>
          pose proof (os_update_calls f v) as Hc; destruct (os_update f v) as [[err|] w2]
      end; exact Hc.
  - rewrite (@abort_CreateFolder _ _ uc _ _ _ _ H).
    apply traced_sanitizer, (sanitizePath_world' _ _ _ H).
Qed.

Lemma traced_Rename (oldPath newPath : bytes) (w : world) :
  traced w (snd (Rename uc oldPath newPath w)).
Proof.
  destruct (sanitizePath uc oldPath w) as [[so|e] w1] eqn:H.
  - destruct (sanitizePath uc newPath w1) as [[sn|e] w2] eqn:H'.
    + assert (Ht : traced w w2).
      { apply traced_sanitizer.
        eapply sanitizer_only_trans; eapply sanitizePath_world'; eassumption. }
      eapply traced_step with (c := CallMove so sn); [exact Ht | |].
      * cbn [call_ok]. now rewrite (sanitized_result _ _ _ H), (sanitized_result _ _ _ H').
      * unfold Rename, bind. rewrite H, H'.
        unfold storage_Move, record_call, bind. cbv beta iota zeta.
        cbn [Move LocalStorage_FileStorage]. unfold localstorage.Move.
        destruct (bytes_eqb sn []); [reflexivity|].
        match goal with
        | |- context [os_update ?f ?v] =>
            pose proof (os_update_calls f v) as Hc; destruct (os_update f v) as [[err|] w3]
        end; exact Hc.
    + rewrite (@abort_Rename_new _ _ uc _ _ _ _ _ _ _ H H').
      apply traced_sanitizer. eapply sanitizer_only_trans; eapply sanitizePath_world'; eassumption.
  - rewrite (@abort_Rename_old _ _ uc _ _ _ _ _ H).
    apply traced_sanitizer, (sanitizePath_world' _ _ _ H).
Qed.

Lemma traced_ServeFile (path : bytes) (w : world) : traced w (snd (ServeFile uc path w)).
Proof.
  destruct (sanitizePath uc path w) as [[sp|e] w1] eqn:H.
  - pose proof (traced_sanitizer (sanitizePath_world' _ _ _ H)) as Ht.
    eapply traced_step with (c := CallGetAbsolutePath sp); [exact Ht | |].
    + cbn [call_ok]. rewrite (sanitized_result _ _ _ H). apply orb_true_r.
    + unfold ServeFile, bind. rewrite H.
      unfold storage_GetAbsolutePath, record_call, ret, get_disk, modify_response, bind.
      cbv beta iota zeta. cbn [disk].
      destruct (os.Stat _ _) as [info|err]; [reflexivity|].
      destruct (os.IsNotExist err); reflexivity.
  - rewrite (@abort_ServeFile _ _ uc _ _ _ _ H).
    apply traced_sanitizer, (sanitizePath_world' _ _ _ H).
Qed.

Lemma traced_ServeFolderAsZip (path : bytes) (w : world) :
  traced w (snd (ServeFolderAsZip uc path w)).
Proof.
  destruct (sanitizePath uc path w) as [[sp|e] w1] eqn:H.
  - pose proof (traced_sanitizer (sanitizePath_world' _ _ _ H)) as Ht.
    eapply traced_step with (c := CallGetAbsolutePath sp); [exact Ht | |].
    + cbn [call_ok]. rewrite (sanitized_result _ _ _ H). apply orb_true_r.
    + rewrite (@ServeFolderAsZip_accepted _ _ uc path sp w w1 H). cbv zeta.
      destruct (os.Stat _ _) as [info|err]; [|reflexivity].
      destruct (negb (os.IsDir info)); [reflexivity|].
      match goal with
      | |- context [createZipArchive ?p ?v] =>
          destruct (createZipArchive_store p v) as (_ & Hc & _);
          destruct (createZipArchive p v) as [[err|] w3]
      end; exact Hc.
  - rewrite (@abort_ServeFolderAsZip _ _ uc _ _ _ _ H).
    apply traced_sanitizer, (sanitizePath_world' _ _ _ H).
Qed.

(** The operations that only read. *)
Lemma List_disk (path : bytes) (w : world) : disk (snd (List uc path w)) = disk w.
Proof.
  destruct (sanitizePath uc path w) as [[sp|e] w1] eqn:H.
  - destruct (sanitizePath_world' _ _ _ H) as (Hd & _).
    unfold List, bind. rewrite H.
    unfold storage_ReadDirectory, record_call, bind. cbv beta iota zeta.
    cbn [ReadDirectory LocalStorage_FileStorage].
    unfold localstorage.ReadDirectory, bind, get_disk. cbv beta iota zeta. cbn [disk].
    destruct (os.ReadDir _ _) as [entries|err].
    + match goal with
      | |- context [localstorage.collect_infos ?l ?f ?v] =>
          pose proof (collect_infos_disk l f v) as Hc;
          destruct (localstorage.collect_infos l f v) as [files w2]
      end. unfold ret. cbn [snd disk] in *. congruence.
    + unfold ret. destruct (os.IsNotExist err); [exact Hd|].
      destruct (os.IsPermission err); exact Hd.
  - rewrite (@abort_List _ _ uc _ _ _ _ H). now destruct (sanitizePath_world' _ _ _ H).
Qed.

Lemma ServeFile_disk (path : bytes) (w : world) : disk (snd (ServeFile uc path w)) = disk w.
Proof.
  destruct (sanitizePath uc path w) as [[sp|e] w1] eqn:H.
  - destruct (sanitizePath_world' _ _ _ H) as (Hd & _).
    unfold ServeFile, bind. rewrite H.
    unfold storage_GetAbsolutePath, record_call, ret, get_disk, modify_response, bind.
    cbv beta iota zeta. cbn [disk].
    destruct (os.Stat _ _) as [info|err]; [exact Hd|].
    destruct (os.IsNotExist err); exact Hd.
  - rewrite (@abort_ServeFile _ _ uc _ _ _ _ H). now destruct (sanitizePath_world' _ _ _ H).
Qed.

Lemma ServeFolderAsZip_disk (path : bytes) (w : world) :
  disk (snd (ServeFolderAsZip uc path w)) = disk w.
Proof.
  destruct (sanitizePath uc path w) as [[sp|e] w1] eqn:H.
  - destruct (sanitizePath_world' _ _ _ H) as (Hd & _).
    rewrite (@ServeFolderAsZip_accepted _ _ uc path sp w w1 H). cbv zeta.
    destruct (os.Stat _ _) as [info|err]; [|exact Hd].
    destruct (negb (os.IsDir info)); [exact Hd|].
    match goal with
    | |- context [createZipArchive ?p ?v] =>
        destruct (createZipArchive_store p v) as (Hc & _ & _);
        destruct (createZipArchive p v) as [[err|] w3]
    end; cbn [snd disk] in *; congruence.
  - rewrite (@abort_ServeFolderAsZip _ _ uc _ _ _ _ H).
    now destruct (sanitizePath_world' _ _ _ H).
Qed.

End LocalCalls.

End CheckedFacts.

(** ** The operations on an accepted path *)

Module LocalOps.
Import filepath PathTheory PathFacts usecases Spec SanitizeFacts OsFacts LocalFacts.
Import WalkFacts Checked CleanTwice FrameFacts CheckedFacts TreeFacts.

Lemma os_update_eq (f : os.node -> option error * os.node) (w : world) :
  os_update f w =
  (fst (f (disk w)),
   {| disk := snd (f (disk w)); calls := calls w; logs := logs w; response := response w |}).
Proof.
  unfold os_update, bind, get_disk, put_disk, ret. cbv beta iota zeta.
  now destruct (f (disk w)).
Qed.

Section Generic.

Context {S : Type} {storage_impl : FileStorage S}.
Variable uc : @FileManagementUseCase S.

Lemma ServeFile_accepted (path sp : bytes) (w w1 : world) :
  sanitizePath uc path w = (Ok sp, w1) ->
  ServeFile uc path w =
  let fullPath := GetAbsolutePath (storage uc) sp in
  let w2 := called (CallGetAbsolutePath sp) w1 in
  match os.Stat (disk w) fullPath with
  | Err statErr =>
      (Some (if os.IsNotExist statErr
             then Errorf "file not found at '%s': %w" [ArgS sp] (Sentinel ErrFileNotFound)
             else Errorf "failed to stat file at '%s': %w" [ArgS sp] statErr), w2)
  | Ok _ =>
      let mimeType := mime.TypeByExtension (Ext fullPath) in
      (None,
       {| disk := disk w2; calls := calls w2; logs := logs w2;
          response :=
            {| http.Header :=
                 http.header_set "Content-Disposition" (attachment (Base fullPath))
                   (http.header_set "Content-Type"
                      (if bytes_eqb mimeType domain.PathEmpty
                       then domain.MIMEOctetStream else mimeType)
                      (http.Header (response w1)));
               http.served := Some fullPath;
               http.archive := http.archive (response w1) |} |})
  end.
Proof.
  intros H. destruct (sanitizePath_world' _ _ _ H) as (Hd & _).
  unfold ServeFile, bind. rewrite H.
  unfold storage_GetAbsolutePath, record_call, ret, get_disk, modify_response, bind, called.
  cbv beta iota zeta. cbn [disk calls logs response]. rewrite Hd.
  destruct (os.Stat _ _) as [info|err]; [reflexivity|].
  destruct (os.IsNotExist err); reflexivity.
Qed.

End Generic.

Section Local.

Variable uc : @FileManagementUseCase localstorage.LocalStorageService.

Lemma UploadFile_accepted (path sp file : bytes) (w w1 : world) :
  sanitizePath uc path w = (Ok sp, w1) ->
  UploadFile uc path file w =
  let (writeErr, w2) :=
    localstorage.WriteFile (storage uc) sp file (called (CallWriteFile sp file) w1) in
  (match writeErr with
   | Some e => Some (Errorf "failed to upload file to '%s': %w" [ArgS sp] e)
   | None => None
   end, w2).
Proof.
  intros H. unfold UploadFile, bind. rewrite H.
  unfold storage_WriteFile, record_call, bind. cbv beta iota zeta.
  cbn [WriteFile LocalStorage_FileStorage]. fold (called (CallWriteFile sp file) w1).
  destruct (localstorage.WriteFile _ _ _ _) as [[e|] w2]; reflexivity.
Qed.

Lemma List_accepted (path sp : bytes) (w w1 : world) :
  sanitizePath uc path w = (Ok sp, w1) ->
  List uc path w =
  let (r, w2) :=
    localstorage.ReadDirectory (storage uc) sp (called (CallReadDirectory sp) w1) in
  (match r with
   | Err err =>
       if os.IsNotExist err then
         Err (Errorf "could not read directory '%s': %w" [ArgS sp] (Sentinel ErrFileNotFound))
       else if os.IsPermission err then
         Err (Errorf "could not read directory '%s': %w" [ArgS sp]
                (Sentinel ErrPermissionDenied))
       else Err (Errorf "failed to list path '%s': %w" [ArgS sp] err)
   | Ok entries => Ok (map FileData_of entries)
   end, w2).
Proof.
  intros H. unfold List, bind. rewrite H.
  unfold storage_ReadDirectory, record_call, bind. cbv beta iota zeta.
  cbn [ReadDirectory LocalStorage_FileStorage]. fold (called (CallReadDirectory sp) w1).
  destruct (localstorage.ReadDirectory _ _ _) as [[files|err] w2]; [reflexivity|].
  destruct (os.IsNotExist err); [reflexivity|]. destruct (os.IsPermission err); reflexivity.
Qed.

Lemma local_ReadDirectory_error (s : localstorage.LocalStorageService) (rel : bytes)
    (w : world) (e : errno) :
  os.ReadDir (disk w) (localstorage.GetAbsolutePath s rel) = Err (Errno e) ->
  localstorage.ReadDirectory s rel w = (Err (Errno e), w).
Proof.
  intros H. unfold localstorage.ReadDirectory, bind, get_disk. cbv beta iota zeta.
  now rewrite H.
Qed.

Lemma Delete_accepted (path sp : bytes) (w w1 : world) :
  sanitizePath uc path w = (Ok sp, w1) ->
  Delete uc path w =
  let r := os.RemoveAll (disk w) (localstorage.GetAbsolutePath (storage uc) sp) in
  (match fst r with
   | Some e => Some (Errorf "could not delete file/folder '%s': %w" [ArgS sp] e)
   | None => None
   end,
   {| disk := snd r; calls := calls w1 ++ [CallRemove sp];
      logs := logs w1; response := response w1 |}).
Proof.
  intros H. destruct (sanitizePath_world' _ _ _ H) as (Hd & _).
  unfold Delete, bind. rewrite H.
  unfold storage_Remove, record_call, bind. cbv beta iota zeta.
  cbn [Remove LocalStorage_FileStorage]. unfold localstorage.Remove.
  rewrite os_update_eq. cbn [disk calls logs response fst snd]. rewrite Hd.
  destruct (fst (os.RemoveAll _ _)); reflexivity.
Qed.

Lemma CreateFolder_accepted (path sp : bytes) (w w1 : world) :
  sanitizePath uc path w = (Ok sp, w1) ->
  CreateFolder uc path w =
  let r := os.MkdirAll (disk w) (localstorage.GetAbsolutePath (storage uc) sp) in
  (match fst r with
   | Some e => Some (Errorf "could not create folder '%s': %w" [ArgS sp] e)
   | None => None
   end,
   {| disk := snd r; calls := calls w1 ++ [CallCreateDirectory sp];
      logs := logs w1; response := response w1 |}).
Proof.
  intros H. destruct (sanitizePath_world' _ _ _ H) as (Hd & _).
  unfold CreateFolder, bind. rewrite H.
  unfold storage_CreateDirectory, record_call, bind. cbv beta iota zeta.
  cbn [CreateDirectory LocalStorage_FileStorage]. unfold localstorage.CreateDirectory.
  rewrite os_update_eq. cbn [disk calls logs response fst snd]. rewrite Hd.
  destruct (fst (os.MkdirAll _ _)); reflexivity.
Qed.

Lemma CreateFolder_on_directory (path sp : bytes) (w w1 : world)
    (es : list (bytes * os.node)) :
  sanitizePath uc path w = (Ok sp, w1) ->
  os.lookup (disk w) (localstorage.GetAbsolutePath (storage uc) sp) = inl (os.Dir es) ->
  exists w', CreateFolder uc path w = (None, w') /\ disk w' = disk w.
Proof.
  intros Hs Hl. rewrite (@CreateFolder_accepted path sp w w1 Hs). cbv zeta.
  set (full := localstorage.GetAbsolutePath (storage uc) sp) in *.
  assert (Hm : os.MkdirAll (disk w) full = (None, disk w)).
  { unfold os.MkdirAll, os.lookup in *. destruct full as [|c p]; [discriminate|].
    now rewrite (mkdir_all_existing _ _ Hl). }
  rewrite Hm. cbn [fst snd]. eexists. split; reflexivity.
Qed.

Lemma local_WriteFile_stored (s : localstorage.LocalStorageService) (rel file : bytes)
    (w w' : world) :
  localstorage.WriteFile s rel file w = (None, w') ->
  os.lookup (disk w') (localstorage.GetAbsolutePath s rel) = inl (os.File file) /\
  response w' = response w.
Proof.
  unfold localstorage.WriteFile, bind. cbv zeta. rewrite os_update_eq.
  destruct (fst (os.MkdirAll _ _)); [discriminate|].
  rewrite os_update_eq. cbn [disk].
  set (d1 := snd (os.MkdirAll (disk w) _)).
  intros H. injection H as H <-. cbn [disk response]. split; [|reflexivity].
  unfold os.WriteFile in *. unfold os.lookup.
  destruct (localstorage.GetAbsolutePath s rel) as [|c p]; [discriminate|].
  destruct (os.create_at _ _ d1) as [[e|] d2] eqn:E; [discriminate|].
  cbn [snd]. exact (create_at_resolve _ _ _ E).
Qed.

End Local.

End LocalOps.


(** ** The parent of a path *)

Module DirFacts.
Import filepath PathTheory PathFacts OsFacts.

Lemma sepfree_rev (e : bytes) : sepfree e = true -> sepfree (rev e) = true.
Proof.
  unfold sepfree. rewrite !forallb_forall. intros H c Hc. apply H. now apply in_rev.
Qed.

Lemma Clean_abspath_slash (ms : list bytes) :
  names_ok ms -> Clean (abspath ms ++ [Separator]) = abspath ms.
Proof.
  intros H. destruct (@Clean_abspath_app ms [] H) as (ms' & _ & Hm & Hc).
  rewrite Hc. change (norm true (split []) (rev ms)) with (rev ms) in Hm.
  apply (f_equal (@rev bytes)) in Hm. rewrite !rev_involutive in Hm. now subst.
Qed.

(** [Dir] of a cleaned rooted path drops its last name. *)
Lemma Dir_abspath_snoc (ms : list bytes) (n : bytes) :
  names_ok ms -> is_name n = true -> Dir (abspath (ms ++ [n])) = abspath ms.
Proof.
  intros Hms Hn. unfold Dir. rewrite abspath_snoc.
  set (pre := match ms with [] => [] | _ :: _ => abspath ms end).
  rewrite rev_app_distr. cbn [rev]. rewrite <- app_assoc. cbn [app].
  destruct (is_name_inv _ Hn) as (_ & _ & _ & Hs).
  destruct (@element_app (rev n) (Separator :: rev pre)) as (_ & ->);
    [now apply sepfree_rev | reflexivity |].
  cbn [rev]. rewrite rev_involutive. subst pre.
  destruct ms as [|m ms]; [reflexivity|]. now apply Clean_abspath_slash.
Qed.

End DirFacts.

(** ** A walk that meets an unreadable entry *)

Module AbortFacts.
Import filepath PathTheory PathFacts usecases Spec OsFacts LocalFacts WalkFacts.

Lemma walk_names_app (rec : bytes -> os.FileInfo -> os.node -> M (option error))
    (walkFn : WalkFunc) (path : bytes) (l1 l2 : list (bytes * os.node)) :
  forall w,
    walk_names rec walkFn path (l1 ++ l2) w =
    let (r, w1) := walk_names rec walkFn path l1 w in
    match r with
    | Some e => (Some e, w1)
    | None => walk_names rec walkFn path l2 w1
    end.
Proof.
  induction l1 as [|[n c] l1 IH]; intros w; [reflexivity|].
  cbn [app walk_names]. destruct c as [data|es|e]; unfold bind.
  - destruct (rec _ _ _ w) as [[e'|] w1]; [|apply IH].
    destruct (negb _ || negb _); [reflexivity | apply IH].
  - destruct (rec _ _ _ w) as [[e'|] w1]; [|apply IH].
    destruct (negb _ || negb _); [reflexivity | apply IH].
  - destruct (walkFn _ _ _ w) as [[e'|] w1]; [|apply IH].
    destruct (is_SkipDir e'); [apply IH | reflexivity].
Qed.

Lemma find_child_app (n : bytes) (c : os.node) (l r : list (bytes * os.node)) :
  os.find_child n l = Some c -> os.find_child n (l ++ r) = Some c.
Proof.
  induction l as [|[m c'] l IH]; [discriminate|]. cbn [app os.find_child].
  destruct (bytes_eqb m n); [trivial | exact IH].
Qed.

(** The archive of a directory whose entries [before] can be read and
    are followed by an entry that cannot. *)
Lemma Walk_unreadable_entry (rs : list bytes) (before after : list (bytes * os.node))
    (name : bytes) (e : errno) (w : world) :
  names_ok rs ->
  os.lookup (disk w) (abspath rs) = inl (os.Dir (before ++ (name, os.Bad e) :: after)) ->
  wf_tree (os.Dir before) = true ->
  visible (os.basename (abspath rs)) = true ->
  createZipArchive (abspath rs) w =
  (Some (Errno e), add_entries (visible_files [] (os.Dir before)) w).
Proof.
  intros Hrs Hl Hwf Hvis.
  unfold createZipArchive, Walk, bind, get_disk, os.Lstat, os.Stat.
  cbv beta iota zeta. rewrite Hl. rewrite lookup_abspath in Hl by assumption.
  cbn [walk os.is_dir]. unfold bind. unfold zipWalkFunc at 1.
  unfold shouldSkipFile. cbn [os.Name os.IsDir].
  unfold visible in Hvis. apply negb_true_iff in Hvis. rewrite Hvis.
  unfold ret at 1. cbv beta iota.
  rewrite walk_names_app.
  pose proof (@walk_names_entries rs Hrs (before ++ (name, os.Bad e) :: after) []
                (Forall_nil _) before w) as Hrun.
  rewrite app_nil_r in Hrun. rewrite Hrun; [|clear Hrun|exact Hl].
  - cbn [walk_names]. unfold bind. unfold zipWalkFunc at 1. unfold ret. reflexivity.
  - cbn [wf_tree] in Hwf. apply wf_entries_distinct in Hwf.
    rewrite Forall_forall in *. intros x Hx.
    destruct (Hwf x Hx) as (H1 & H2 & H3).
    repeat split; try assumption.
    + now apply find_child_app.
    + now apply walked_all.
Qed.

End AbortFacts.

(** ** Relative paths of names *)

Module RelFacts.
Import filepath PathTheory PathFacts OsFacts DirFacts.

Lemma Join_names_not_nil (ms : list bytes) :
  names_ok ms -> ms <> [] -> strings.Join ms "/" <> [].
Proof.
  intros H Hne. destruct ms as [|m ms]; [congruence|].
  inversion H as [|? ? Hm' _]; subst.
  destruct (is_name_inv _ Hm') as (Hm & _).
  destruct m as [|c m]; [congruence|]. destruct ms; discriminate.
Qed.

Lemma names_headok (ms : list bytes) : names_ok ms -> Forall headok ms.
Proof. intros H. eapply Forall_impl; [|exact H]. apply name_headok. Qed.

(** A relative path whose elements fold to the names [ms] cleans to the
    names joined. *)
Lemma Clean_rel_norm (p : bytes) (ms : list bytes) :
  slashed p = false -> names_ok ms -> ms <> [] ->
  norm false (split p) [] = rev ms ->
  Clean p = strings.Join ms "/".
Proof.
  intros Hp Hms Hne Hn.
  destruct (Clean_norm p) as (ns & k & _ & _ & Hnorm & Hc).
  rewrite Hp in *. rewrite Hn in Hnorm. rewrite <- Hnorm in Hc.
  pose proof (rev_out_of false (rev ms)) as Hr. rewrite rev_involutive in Hr.
  cbn [app] in Hr.
  destruct (Nat.eqb_spec (length (out_of false (rev ms))) 0) as [E|E].
  - exfalso. apply (Join_names_not_nil Hms Hne). rewrite <- Hr.
    destruct (out_of false (rev ms)); [reflexivity | discriminate].
  - now rewrite Hc.
Qed.

Lemma Clean_relpath (ms : list bytes) :
  names_ok ms -> ms <> [] -> Clean (strings.Join ms "/") = strings.Join ms "/".
Proof.
  intros Hms Hne. apply Clean_rel_norm; try assumption.
  - apply Join_not_slashed. now apply names_headok.
  - rewrite split_Join by (assumption || now apply names_sepfree).
    rewrite norm_names by assumption. apply app_nil_r.
Qed.

Lemma Clean_relpath_slash (ms : list bytes) :
  names_ok ms -> ms <> [] ->
  Clean (strings.Join ms "/" ++ [Separator]) = strings.Join ms "/".
Proof.
  intros Hms Hne. apply Clean_rel_norm; try assumption.
  - rewrite slashed_app by now apply Join_names_not_nil.
    apply Join_not_slashed. now apply names_headok.
  - rewrite split_app, norm_app.
    rewrite split_Join by (assumption || now apply names_sepfree).
    rewrite (@norm_names false ms []) by assumption. now rewrite app_nil_r.
Qed.

(** [Dir] of names joined drops the last name. *)
Lemma Dir_relpath_snoc (ms : list bytes) (n : bytes) :
  names_ok ms -> is_name n = true ->
  Dir (strings.Join (ms ++ [n]) "/") = match ms with [] => "." | _ :: _ => strings.Join ms "/" end.
Proof.
  intros Hms Hn. unfold Dir.
  destruct (is_name_inv _ Hn) as (_ & _ & _ & Hs).
  destruct ms as [|m ms].
  - cbn [app strings.Join]. rewrite <- (app_nil_r (rev n)).
    destruct (@element_app (rev n) []) as (_ & ->); [now apply sepfree_rev | reflexivity|].
    reflexivity.
  - rewrite (@Join_snoc (m :: ms)) by discriminate.
    rewrite rev_app_distr. cbn [app rev]. rewrite <- app_assoc. cbn [app].
    match goal with
    | |- context [after_element (rev n ++ ?c :: ?X)] =>
        destruct (@element_app (rev n) (c :: X)) as (_ & ->);
          [now apply sepfree_rev | reflexivity |]
    end.
    cbn [rev]. rewrite rev_involutive.
    apply (@Clean_relpath_slash (m :: ms)); [assumption | discriminate].
Qed.

(** [Join] of names joined and one more name. *)
Lemma Join_relpath_child (ms : list bytes) (n : bytes) :
  names_ok ms -> is_name n = true ->
  Join [strings.Join ms "/"; n] = strings.Join (ms ++ [n]) "/".
Proof.
  intros Hms Hn.
  assert (Hn' : names_ok [n]) by (now constructor).
  destruct ms as [|m ms].
  - cbn [strings.Join app Join].
    destruct (is_name_inv _ Hn) as (Hne & _).
    destruct n as [|c n]; [congruence|]. exact (@Clean_relpath [c :: n] Hn' ltac:(discriminate)).
  - pose proof (@Join_names_not_nil (m :: ms) Hms ltac:(discriminate)) as Hne.
    cbn [Join]. destruct (strings.Join (m :: ms) "/") as [|c p] eqn:E; [congruence|].
    rewrite <- E. change (strings.Join [strings.Join (m :: ms) "/"; n] "/")
      with (strings.Join (m :: ms) "/" ++ "/" ++ n).
    rewrite <- (@Join_snoc (m :: ms)) by discriminate.
    apply Clean_relpath; [|now destruct ms].
    apply Forall_app. now split.
Qed.

End RelFacts.

(** ** The handlers *)

Module HandlerFacts.
Import filepath PathTheory PathFacts usecases Spec SanitizeFacts Checked LocalOps.

Section Rejected.

Context {S : Type} {storage_impl : FileStorage S}.
Variable uc : @FileManagementUseCase S.

(** Every error of the sanitiser is a bad request for the handlers. *)
Lemma sanitizer_error_class (path : bytes) (w w' : world) (e : error) :
  sanitizePath uc path w = (Err e, w') -> server.getErrorType e = server.errorTypeBadRequest.
Proof.
  intros H. pose proof (sanitizePath_result uc path w) as Hr. rewrite H in Hr.
  cbn [fst] in Hr.
  destruct (negb (traversal_ok uc path)).
  - destruct (IsAbs (Clean path)); [injection Hr as ->; reflexivity|].
    destruct (Rel _ _); injection Hr as ->; reflexivity.
  - destruct (negb (length_ok uc path)); [injection Hr as ->; reflexivity|].
    destruct (negb (name_ok uc path)); [injection Hr as ->; reflexivity | discriminate].
Qed.

End Rejected.

Section Replies.

Context {U : Type} {uc_impl : management.FileManagement U}.
Variable h : @server.Handler U.

Lemma handleError_bad_request (err : error) (message : bytes) (x : server.exchange) :
  server.getErrorType err = server.errorTypeBadRequest ->
  server.handleError h err message x
  = server.answered (server.inner x) server.StatusBadRequest
      (server.InternalError (server.messages h)) err x.
Proof. intros H. unfold server.handleError. now rewrite H. Qed.

Lemma handleError_not_found (err : error) (message : bytes) (x : server.exchange) :
  server.getErrorType err = server.errorTypeNotFound ->
  server.handleError h err message x
  = server.answered (server.inner x) server.StatusNotFound
      (server.InternalError (server.messages h)) err x.
Proof. intros H. unfold server.handleError. now rewrite H. Qed.

Lemma handleError_forbidden (err : error) (message : bytes) (x : server.exchange) :
  server.getErrorType err = server.errorTypeForbidden ->
  server.handleError h err message x
  = server.answered (server.inner x) server.StatusForbidden
      (server.ForbiddenFile (server.messages h)) err x.
Proof. intros H. unfold server.handleError. now rewrite H. Qed.

Lemma handleError_internal (err : error) (message : bytes) (x : server.exchange) :
  server.getErrorType err = server.errorTypeInternal ->
  server.handleError h err message x
  = server.answered (server.inner x) server.StatusInternalServerError message err x.
Proof. intros H. unfold server.handleError. now rewrite H. Qed.

End Replies.

End HandlerFacts.


(** ** The sanitiser on paths of plain names *)

Module PlainFacts.
Import filepath PathTheory PathFacts usecases Spec SanitizeFacts OsFacts LocalFacts.
Import WalkFacts DirFacts RelFacts.

Lemma Base_relpath_snoc (ms : list bytes) (n : bytes) :
  is_name n = true -> Base (strings.Join (ms ++ [n]) "/") = n.
Proof.
  intros Hn. destruct (last_byte_name _ Hn) as (c & r & Hr & Hc & Hrs & _).
  destruct (is_name_inv _ Hn) as (Hne & _ & _ & Hs).
  assert (Hrev : exists X, rev (strings.Join (ms ++ [n]) "/") = rev n ++ X /\
                           at_end_or_sep X = true).
  { destruct ms as [|m ms].
    - exists []. cbn [app strings.Join]. now rewrite app_nil_r.
    - rewrite (@Join_snoc (m :: ms)) by discriminate.
      exists (Separator :: rev (strings.Join (m :: ms) "/")).
      rewrite rev_app_distr. cbn [app rev]. rewrite <- app_assoc. split; reflexivity. }
  destruct Hrev as (X & HX & Hend).
  unfold Base. destruct (strings.Join (ms ++ [n]) "/") as [|c0 p] eqn:E.
  { apply (f_equal (@length ascii)) in HX. cbn [rev length] in HX.
    rewrite length_app, length_rev in HX.
    destruct n; [congruence | simpl in HX; lia]. }
  rewrite HX. rewrite Hr. cbn [app]. rewrite strip_seps_nonsep by assumption.
  change (c :: r ++ X) with ((c :: r) ++ X). rewrite <- Hr.
  destruct (@element_app (rev n) X) as (-> & _); [now apply sepfree_rev | assumption |].
  rewrite rev_involutive. destruct n; [congruence | reflexivity].
Qed.

Section Plain.

Context {S : Type} {storage_impl : FileStorage S}.
Variable uc : @FileManagementUseCase S.
Hypothesis base_abs : IsAbs (GetAbsolutePath (storage uc) []) = true.

(** With an absolute base directory, what the checks of the sanitiser
    see for names [ms] joined: the path is clean, it resolves to the
    names of the base directory followed by [ms], and the traversal
    check looks at the first two bytes of the first name only. *)
Lemma plain_path_checks (ms : list bytes) :
  names_ok ms -> ms <> [] ->
  Clean (strings.Join ms "/") = strings.Join ms "/" /\
  (exists bs, names_ok bs /\ basePath uc = abspath bs /\
              Join [basePath uc; strings.Join ms "/"] = abspath (bs ++ ms)) /\
  traversal_ok uc (strings.Join ms "/")
  = negb (strings.HasPrefix (strings.Join ms "/") "..").
Proof.
  intros Hms Hne. pose proof (Clean_relpath Hms Hne) as Hclean.
  pose proof base_abs as Habs. rewrite IsAbs_slashed in Habs.
  destruct (@Clean_rooted (GetAbsolutePath (storage uc) []) Habs) as (bs & Hbs & _ & Hbase).
  fold (basePath uc) in Hbase.
  assert (Hfull : Join [basePath uc; strings.Join ms "/"] = abspath (bs ++ ms)).
  { rewrite Hbase. rewrite Join_pair by discriminate.
    destruct (@Clean_abspath_app bs (strings.Join ms "/") Hbs) as (ms' & Hms' & Hn & ->).
    rewrite split_Join in Hn by (assumption || now apply names_sepfree).
    rewrite norm_names in Hn by assumption. rewrite <- rev_app_distr in Hn.
    apply (f_equal (@rev bytes)) in Hn. rewrite !rev_involutive in Hn. now subst. }
  split; [exact Hclean|]. split; [now exists bs|].
  unfold traversal_ok. cbv zeta. rewrite Hclean, Hfull, Hbase.
  rewrite (@Rel_below bs Hbs ms Hms Hne).
  assert (Hrel : IsAbs (strings.Join ms "/") = false).
  { rewrite IsAbs_slashed. apply Join_not_slashed. now apply names_headok. }
  now rewrite Hrel.
Qed.

End Plain.

End PlainFacts.

(** ** Folders that an upload creates *)

Module FreshFacts.
Import filepath PathTheory PathFacts usecases Spec OsFacts LocalFacts WalkFacts TreeFacts.





End FreshFacts.

(** ** What a change of the tree leaves alone *)

Module ApartFacts.
Import filepath PathTheory PathFacts OsFacts TreeFacts.

Lemma find_child_replace_other (c d : bytes) (x : os.node) (es : list (bytes * os.node)) :
  c <> d -> os.find_child d (os.replace_child c x es) = os.find_child d es.
Proof.
  intros Hcd. induction es as [|[m ch] es IH]; [reflexivity|].
  cbn [os.replace_child]. destruct (bytes_eqb m c) eqn:E; cbn [os.find_child].
  - apply bytes_eqb_eq in E. subst m.
    apply bytes_eqb_neq in Hcd. now rewrite Hcd.
  - now rewrite IH.
Qed.

Lemma find_child_insert_other (c d : bytes) (x : os.node) (es : list (bytes * os.node)) :
  c <> d -> os.find_child d (os.insert_child c x es) = os.find_child d es.
Proof.
  intros Hcd. pose proof Hcd as Hb. apply bytes_eqb_neq in Hb.
  induction es as [|[m ch] es IH]; cbn [os.insert_child os.find_child].
  - now rewrite Hb.
  - destruct (os.bytes_leb c m); cbn [os.find_child]; [now rewrite Hb|].
    now rewrite IH.
Qed.

Lemma find_child_set_other (c d : bytes) (x : os.node) (es : list (bytes * os.node)) :
  c <> d -> os.find_child d (os.set_child c x es) = os.find_child d es.
Proof.
  intros Hcd. unfold os.set_child. destruct (os.find_child c es).
  - now apply find_child_replace_other.
  - now apply find_child_insert_other.
Qed.

Lemma find_child_remove_other (c d : bytes) (es : list (bytes * os.node)) :
  c <> d -> os.find_child d (os.remove_child c es) = os.find_child d es.
Proof.
  intros Hcd. unfold os.remove_child. induction es as [|[m ch] es IH]; [reflexivity|].
  cbn [filter fst]. destruct (bytes_eqb m c) eqn:E; cbn [negb os.find_child].
  - apply bytes_eqb_eq in E. subst m. apply bytes_eqb_neq in Hcd. now rewrite Hcd.
  - now rewrite IH.
Qed.

Lemma resolve_Dir_cons (es : list (bytes * os.node)) (d : bytes) (ds : list bytes) :
  os.resolve (os.Dir es) (d :: ds)
  = match os.find_child d es with Some ch => os.resolve ch ds | None => inr ENOENT end.
Proof. reflexivity. Qed.

(** [mkdir_all] changes what is found on the way to its path only. *)
Lemma mkdir_all_apart (cs : list bytes) : forall (nd : os.node) (ds : list bytes),
  os.is_prefix ds cs = false ->
  os.resolve (snd (os.mkdir_all cs nd)) ds = os.resolve nd ds.
Proof.
  induction cs as [|c cs IH]; intros nd ds Hp.
  - destruct nd; reflexivity.
  - destruct ds as [|d ds]; [discriminate|].
    destruct nd as [data|es|e]; [reflexivity| |reflexivity].
    cbn [os.mkdir_all].
    destruct (os.mkdir_all cs _) as [r ch'] eqn:E. cbn [snd].
    rewrite !resolve_Dir_cons. cbn [os.is_prefix] in Hp.
    destruct (bytes_eqb d c) eqn:Edc.
    + apply bytes_eqb_eq in Edc. subst d. cbn [andb] in Hp.
      rewrite find_child_set.
      pose proof (IH (match os.find_child c es with Some ch => ch | None => os.Dir [] end)
                     ds Hp) as Hres.
      rewrite E in Hres. cbn [snd] in Hres. rewrite Hres.
      destruct (os.find_child c es); [reflexivity|].
      destruct ds; [discriminate | reflexivity].
    + apply bytes_eqb_neq in Edc.
      rewrite find_child_set_other by congruence. reflexivity.
Qed.

(** [create_at] changes what is found on its path only. *)
Lemma create_at_apart (data : bytes) (cs : list bytes) : forall (nd : os.node) (ds : list bytes),
  os.is_prefix ds cs = false -> os.is_prefix cs ds = false ->
  os.resolve (snd (os.create_at cs data nd)) ds = os.resolve nd ds.
Proof.
  induction cs as [|c cs IH]; intros nd ds Hp Hq; [discriminate|].
  destruct ds as [|d ds]; [discriminate|].
  destruct nd as [dt|es|e]; [reflexivity| |reflexivity].
  cbn [os.create_at]. cbn [os.is_prefix] in Hp, Hq.
  destruct (bytes_eqb d c) eqn:Edc.
  - apply bytes_eqb_eq in Edc. subst d. rewrite bytes_eqb_refl in Hq. cbn [andb] in Hp, Hq.
    destruct cs as [|c' cs]; [discriminate|].
    destruct (os.find_child c es) as [ch|] eqn:Ec; [|reflexivity].
    destruct (os.create_at (c' :: cs) data ch) as [r ch'] eqn:E. cbn [snd].
    rewrite !resolve_Dir_cons, find_child_set, Ec.
    pose proof (IH ch ds Hp Hq) as Hres. now rewrite E in Hres.
  - apply bytes_eqb_neq in Edc.
    assert (Hother : forall x, os.resolve (os.Dir (os.set_child c x es)) (d :: ds)
                               = os.resolve (os.Dir es) (d :: ds)).
    { intros x. rewrite !resolve_Dir_cons. now rewrite find_child_set_other by congruence. }
    destruct cs as [|c' cs].
    + destruct (os.find_child c es) as [[dt|es'|e]|]; cbn [snd];
        try reflexivity; apply Hother.
    + destruct (os.find_child c es) as [ch|]; [|reflexivity].
      destruct (os.create_at (c' :: cs) data ch) as [r ch']. cbn [snd]. apply Hother.
Qed.

(** [remove_at] changes what is found at its path and below it only. *)
Lemma remove_at_apart (cs : list bytes) : forall (nd : os.node) (ds : list bytes),
  os.is_prefix ds cs = false -> os.is_prefix cs ds = false ->
  os.resolve (snd (os.remove_at cs nd)) ds = os.resolve nd ds.
Proof.
  induction cs as [|c cs IH]; intros nd ds Hp Hq; [discriminate|].
  destruct ds as [|d ds]; [discriminate|].
  destruct nd as [dt|es|e]; [reflexivity| |reflexivity].
  cbn [os.remove_at]. cbn [os.is_prefix] in Hp, Hq.
  destruct (os.find_child c es) as [ch|] eqn:Ec; [|reflexivity].
  destruct (bytes_eqb d c) eqn:Edc.
  - apply bytes_eqb_eq in Edc. subst d. rewrite bytes_eqb_refl in Hq. cbn [andb] in Hp, Hq.
    destruct cs as [|c' cs]; [discriminate|].
    destruct (os.remove_at (c' :: cs) ch) as [[e|] ch'] eqn:E; [reflexivity|].
    cbn [snd]. rewrite !resolve_Dir_cons, find_child_set, Ec.
    pose proof (IH ch ds Hp Hq) as Hres. now rewrite E in Hres.
  - apply bytes_eqb_neq in Edc. destruct cs as [|c' cs].
    + destruct ch; cbn [snd]; try reflexivity;
        rewrite !resolve_Dir_cons; now rewrite find_child_remove_other by congruence.
    + destruct (os.remove_at (c' :: cs) ch) as [[e|] ch']; [reflexivity|].
      cbn [snd]. rewrite !resolve_Dir_cons. now rewrite find_child_set_other by congruence.
Qed.

(** [place_at] changes what is found at its path and below it only. *)
Lemma place_at_apart (src : os.node) (cs : list bytes) : forall (nd : os.node) (ds : list bytes),
  os.is_prefix ds cs = false -> os.is_prefix cs ds = false ->
  os.resolve (snd (os.place_at cs src nd)) ds = os.resolve nd ds.
Proof.
  induction cs as [|c cs IH]; intros nd ds Hp Hq; [discriminate|].
  destruct ds as [|d ds]; [discriminate|].
  destruct nd as [dt|es|e]; [reflexivity| |reflexivity].
  cbn [os.place_at]. cbn [os.is_prefix] in Hp, Hq.
  destruct (bytes_eqb d c) eqn:Edc.
  - apply bytes_eqb_eq in Edc. subst d. rewrite bytes_eqb_refl in Hq. cbn [andb] in Hp, Hq.
    destruct cs as [|c' cs]; [discriminate|].
    destruct (os.find_child c es) as [ch|] eqn:Ec; [|reflexivity].
    destruct (os.place_at (c' :: cs) src ch) as [r ch'] eqn:E. cbn [snd].
    rewrite !resolve_Dir_cons, find_child_set, Ec.
    pose proof (IH ch ds Hp Hq) as Hres. now rewrite E in Hres.
  - apply bytes_eqb_neq in Edc.
    assert (Hother : forall x, os.resolve (os.Dir (os.set_child c x es)) (d :: ds)
                               = os.resolve (os.Dir es) (d :: ds)).
    { intros x. rewrite !resolve_Dir_cons. now rewrite find_child_set_other by congruence. }
    destruct cs as [|c' cs]; [apply Hother|].
    destruct (os.find_child c es) as [ch|]; [|reflexivity].
    destruct (os.place_at (c' :: cs) src ch) as [r ch']. cbn [snd]. apply Hother.
Qed.

(** [remove_at] of what is there succeeds. *)
Lemma remove_at_present (cs : list bytes) : forall (nd src : os.node),
  cs <> [] -> os.resolve nd cs = inl src -> fst (os.remove_at cs nd) = None.
Proof.
  induction cs as [|c cs IH]; intros nd src Hne H; [congruence|].
  destruct nd as [dt|es|e]; cbn [os.resolve] in H; try discriminate.
  cbn [os.remove_at]. destruct (os.find_child c es) as [ch|] eqn:Ec; [|discriminate].
  destruct cs as [|c' cs].
  - destruct ch; cbn [os.resolve] in H; try discriminate; reflexivity.
  - pose proof (IH ch src ltac:(discriminate) H) as Hr.
    destruct (os.remove_at (c' :: cs) ch) as [[e|] ch']; [discriminate | reflexivity].
Qed.

(** Above a path that resolves there are directories that are not empty. *)
Lemma resolve_above (ncs : list bytes) : forall (ocs : list bytes) (d src : os.node),
  os.is_prefix ncs ocs = true -> os.is_prefix ocs ncs = false ->
  os.resolve d ocs = inl src ->
  exists e es, os.resolve d ncs = inl (os.Dir (e :: es)).
Proof.
  induction ncs as [|x ncs IH]; intros ocs d src Hp Hq H.
  - destruct ocs as [|y ocs]; [discriminate|].
    destruct d as [dt|es|e]; cbn [os.resolve] in *; try discriminate.
    destruct es as [|e es]; [discriminate|]. now exists e, es.
  - destruct ocs as [|y ocs]; [discriminate|]. cbn [os.is_prefix] in Hp, Hq.
    apply andb_prop in Hp as [E Hp]. apply bytes_eqb_eq in E. subst y.
    rewrite bytes_eqb_refl in Hq. cbn [andb] in Hq.
    destruct d as [dt|es|e]; cbn [os.resolve] in *; try discriminate.
    destruct (os.find_child x es) as [ch|]; [|discriminate].
    exact (IH ocs ch src Hp Hq H).
Qed.

Lemma is_prefix_app (a b : list bytes) : os.is_prefix a (a ++ b) = true.
Proof. induction a as [|x a IH]; [reflexivity|]. cbn. now rewrite bytes_eqb_refl. Qed.

Lemma is_prefix_trans (a b c : list bytes) :
  os.is_prefix a b = true -> os.is_prefix b c = true -> os.is_prefix a c = true.
Proof.
  revert b c. induction a as [|x a IH]; intros [|y b] [|z c] H1 H2; try discriminate;
    try reflexivity.
  cbn [os.is_prefix] in *. apply andb_prop in H1 as [E1 H1]. apply andb_prop in H2 as [E2 H2].
  apply bytes_eqb_eq in E1, E2. subst. rewrite bytes_eqb_refl. cbn [andb]. now apply (IH b c).
Qed.

End ApartFacts.

(** ** Moving a node *)

Module MoveFacts.
Import filepath PathTheory PathFacts usecases Spec SanitizeFacts OsFacts LocalFacts.
Import Checked TreeFacts LocalOps ApartFacts.

Lemma place_at_resolve (src : os.node) (cs : list bytes) : forall (nd nd' : os.node),
  (forall e, src <> os.Bad e) ->
  os.place_at cs src nd = (None, nd') -> os.resolve nd' cs = inl src.
Proof.
  induction cs as [|c cs IH]; intros nd nd' Hsrc H; [discriminate|].
  destruct nd as [d|es|e]; cbn [os.place_at] in H; try discriminate.
  destruct cs as [|c' cs].
  - injection H as <-. cbn [os.resolve]. rewrite find_child_set.
    destruct src; try reflexivity. now contradiction (Hsrc e).
  - destruct (os.find_child c es) as [ch|]; [|discriminate].
    destruct (os.place_at (c' :: cs) src ch) as [r ch'] eqn:E.
    injection H as -> <-. cbn [os.resolve]. rewrite find_child_set.
    exact (IH _ _ Hsrc E).
Qed.

Lemma is_prefix_antisym (a : list bytes) : forall b,
  os.is_prefix a b = true -> os.is_prefix b a = true -> a = b.
Proof.
  induction a as [|x a IH]; intros [|y b] H1 H2; try discriminate; [reflexivity|].
  cbn [os.is_prefix] in *. apply andb_prop in H1 as [E H1]. apply andb_prop in H2 as [_ H2].
  apply bytes_eqb_eq in E. subst. f_equal. now apply IH.
Qed.

(** A successful [Rename] of [os] is a successful system call. *)
Lemma os_Rename_syscall (d d' : os.node) (oldpath newpath : bytes) :
  os.Rename d oldpath newpath = (None, d') ->
  os.syscall_Rename d oldpath newpath = (None, d').
Proof.
  unfold os.Rename.
  destruct (os.Lstat d newpath) as [fi|e]; [|trivial].
  destruct (os.IsDir fi); [|trivial].
  destruct (os.Lstat d oldpath) as [ofi|e]; [|discriminate].
  destruct (bytes_eqb newpath oldpath || negb (os.same_file oldpath newpath));
    [discriminate | trivial].
Qed.

(** After a successful [Rename] of [os] the new path holds the node that
    the old path held. *)
Lemma os_Rename_moved (d d' : os.node) (oldpath newpath : bytes) :
  os.Rename d oldpath newpath = (None, d') ->
  exists src, os.lookup d oldpath = inl src /\ os.lookup d' newpath = inl src.
Proof.
  intros H0. apply os_Rename_syscall in H0. revert H0.
  unfold os.syscall_Rename. cbv zeta.
  destruct (os.lookup d oldpath) as [src|e] eqn:Hl; [|discriminate].
  destruct newpath as [|c np]; [discriminate|].
  destruct (os.names oldpath) as [|o ocs] eqn:Ho; [discriminate|].
  intros H. exists src. split; [reflexivity|]. unfold os.lookup.
  assert (Hsrc : os.resolve d (o :: ocs) = inl src).
  { unfold os.lookup in Hl. destruct oldpath; [discriminate|]. now rewrite Ho in Hl. }
  destruct (os.is_prefix (o :: ocs) (os.names (c :: np))) eqn:P1.
  - destruct (os.is_prefix (os.names (c :: np)) (o :: ocs)) eqn:P2; [|discriminate].
    injection H as <-. rewrite <- (is_prefix_antisym _ _ P1 P2). exact Hsrc.
  - match type of H with
    | match ?clash with _ => _ end = _ => destruct clash; [discriminate|]
    end.
    destruct (os.place_at _ _ _) as [[e|] d2] eqn:E; [discriminate|].
    injection H as <-. apply (place_at_resolve _ _ (resolve_not_Bad _ _ Hsrc) E).
Qed.

(** After a successful [Rename] of [os] to another path, nothing is
    found at the old path. *)
Lemma os_Rename_left (d d' : os.node) (oldpath newpath : bytes) :
  os.Rename d oldpath newpath = (None, d') ->
  os.names oldpath <> os.names newpath ->
  os.lookup d' oldpath = inr ENOENT.
Proof.
  intros H0. apply os_Rename_syscall in H0. revert H0.
  unfold os.syscall_Rename. cbv zeta.
  destruct (os.lookup d oldpath) as [src|e] eqn:Hl; [|discriminate].
  destruct newpath as [|c np]; [discriminate|].
  destruct (os.names oldpath) as [|o ocs] eqn:Ho; [discriminate|].
  intros H Hdiff.
  assert (Hsrc : os.resolve d (o :: ocs) = inl src).
  { unfold os.lookup in Hl. destruct oldpath; [discriminate|]. now rewrite Ho in Hl. }
  assert (Hlook : forall x, os.lookup x oldpath = os.resolve x (o :: ocs)).
  { intros x. unfold os.lookup. destruct oldpath; [discriminate|]. now rewrite Ho. }
  rewrite Hlook.
  destruct (os.is_prefix (o :: ocs) (os.names (c :: np))) eqn:P1.
  - destruct (os.is_prefix (os.names (c :: np)) (o :: ocs)) eqn:P2; [|discriminate].
    now contradiction Hdiff; apply is_prefix_antisym.
  - assert (P2 : os.is_prefix (os.names (c :: np)) (o :: ocs) = false).
    { destruct (os.is_prefix (os.names (c :: np)) (o :: ocs)) eqn:P2; [|reflexivity].
      destruct (resolve_above _ _ _ P2 P1 Hsrc) as (e & es & Hn).
      rewrite Hn in H. destruct src; [discriminate | discriminate |].
      now contradiction (@resolve_not_Bad _ _ _ Hsrc e0). }
    match type of H with
    | match ?clash with _ => _ end = _ => destruct clash; [discriminate|]
    end.
    destruct (os.place_at _ _ _) as [[e|] d2] eqn:E; [discriminate|].
    injection H as <-.
    pose proof (place_at_apart src (os.names (c :: np)) (snd (os.remove_at (o :: ocs) d))
                  (o :: ocs) P1 P2) as Hap.
    rewrite E in Hap. cbn [snd] in Hap. rewrite Hap.
    pose proof (@remove_at_present (o :: ocs) d src ltac:(discriminate) Hsrc) as Hrm.
    destruct (os.remove_at (o :: ocs) d) as [r d1] eqn:Er. cbn [fst snd] in *. subst r.
    exact (remove_at_gone _ _ Er).
Qed.

Section Local.

Variable uc : @FileManagementUseCase localstorage.LocalStorageService.

Lemma Rename_accepted (oldPath newPath so sn : bytes) (w w1 w2 : world) :
  sanitizePath uc oldPath w = (Ok so, w1) ->
  sanitizePath uc newPath w1 = (Ok sn, w2) ->
  Rename uc oldPath newPath w =
  let r := os.Rename (disk w) (localstorage.GetAbsolutePath (storage uc) so)
                     (localstorage.GetAbsolutePath (storage uc) sn) in
  (match fst r with
   | Some e => Some (Errorf "could not rename '%s' to '%s': %w" [ArgS so; ArgS sn] e)
   | None => None
   end,
   {| disk := snd r; calls := calls w2 ++ [CallMove so sn];
      logs := logs w2; response := response w2 |}).
Proof.
  intros H1 H2. destruct (sanitizePath_world' _ _ _ H1) as (Hd1 & _).
  destruct (sanitizePath_world' _ _ _ H2) as (Hd2 & _).
  unfold Rename, bind. rewrite H1, H2.
  unfold storage_Move, record_call, bind. cbv beta iota zeta.
  cbn [Move LocalStorage_FileStorage]. unfold localstorage.Move.
  assert (Hsn : bytes_eqb sn [] = false).
  { apply bytes_eqb_neq. destruct (sanitizePath_Ok_inv _ _ _ H2) as (-> & _).
    apply Clean_not_nil. }
  rewrite Hsn, os_update_eq. cbn [disk calls logs response fst snd].
  rewrite Hd2, Hd1. destruct (fst (os.Rename _ _ _)); reflexivity.
Qed.

End Local.

End MoveFacts.


(** * Further properties of the operations *)

Import OsFacts LocalFacts Checked CleanTwice TreeFacts FrameFacts CheckedFacts.
Import LocalOps DirFacts.
Import AbortFacts MoveFacts FreshFacts ApartFacts.

(** ** The sanitiser and the storage calls *)

(** A path that [sanitizePath] returns is accepted again, in any world,
    and returned as it is: the sanitiser is idempotent on its results. *)
Theorem sanitizePath_fixed_point :
  forall (S : Type) (storage_impl : FileStorage S) (uc : @FileManagementUseCase S)
         (path clean : bytes) (w w' v : world),
    sanitizePath uc path w = (Ok clean, w') ->
    exists v', sanitizePath uc clean v = (Ok clean, v').
Proof.
  intros S impl uc path clean w w' v H.
  apply sanitized_accepted. exact (sanitized_result _ _ _ H).
Qed.

Lemma sanitizePath_fixed_point_witness :
  exists v', sanitizePath Examples.uc255 "docs/file.txt" Examples.world_project
             = (Ok "docs/file.txt", v').
Proof.
  assert (H : sanitizePath Examples.uc255 "docs/./x/..//file.txt" Examples.world_empty
              = (Ok "docs/file.txt", base_read Examples.world_empty))
    by (vm_compute; reflexivity).
  exact (@sanitizePath_fixed_point _ _ _ _ _ _ _ Examples.world_project H).
Defined.

(** On the local storage every call that an operation makes on the
    storage interface carries sanitised paths only (the sanitiser's own
    request for the base directory apart); in particular [Move] never
    receives an empty destination and no method receives an absolute
    path. *)
Theorem storage_calls_are_sanitized :
  forall (uc : @FileManagementUseCase localstorage.LocalStorageService)
         (path other file : bytes) (w : world),
    traced uc w (snd (List uc path w)) /\
    traced uc w (snd (UploadFile uc path file w)) /\
    traced uc w (snd (Delete uc path w)) /\
    traced uc w (snd (Rename uc path other w)) /\
    traced uc w (snd (CreateFolder uc path w)) /\
    traced uc w (snd (ServeFile uc path w)) /\
    traced uc w (snd (ServeFolderAsZip uc path w)) /\
    (forall c, sanitized uc c = true -> c <> [] /\ IsAbs c = false).
Proof.
  intros uc path other file w.
  split; [apply traced_List|]. split; [apply traced_UploadFile|].
  split; [apply traced_Delete|]. split; [apply traced_Rename|].
  split; [apply traced_CreateFolder|]. split; [apply traced_ServeFile|].
  split; [apply traced_ServeFolderAsZip|].
  intros c Hc. unfold sanitized in Hc.
  apply andb_prop in Hc as [Hc _]. apply andb_prop in Hc as [Hc _].
  apply andb_prop in Hc as [Hc Ht]. apply bytes_eqb_eq in Hc.
  split.
  - rewrite <- Hc. apply Clean_not_nil.
  - unfold traversal_ok in Ht. cbv zeta in Ht. apply andb_prop in Ht as [Ht _].
    rewrite Hc in Ht. now apply negb_true_iff in Ht.
Qed.

(** [List], [ServeFile] and [ServeFolderAsZip] on the local storage never
    change the file system, whatever the path and whatever they return. *)
Theorem reading_operations_keep_disk :
  forall (uc : @FileManagementUseCase localstorage.LocalStorageService)
         (path : bytes) (w : world),
    disk (snd (List uc path w)) = disk w /\
    disk (snd (ServeFile uc path w)) = disk w /\
    disk (snd (ServeFolderAsZip uc path w)) = disk w.
Proof.
  intros uc path w.
  split; [apply List_disk|]. split; [apply ServeFile_disk | apply ServeFolderAsZip_disk].
Qed.

(** ** The operations on the local storage *)

(** A file that [UploadFile] has stored is found at the resolved path
    with the uploaded content, and [ServeFile] of the same path then
    serves that file. *)
Theorem upload_then_serve :
  forall (uc : @FileManagementUseCase localstorage.LocalStorageService)
         (path file : bytes) (w w' : world),
    UploadFile uc path file w = (None, w') ->
    exists sp fullPath,
      fst (sanitizePath uc path w) = Ok sp /\
      fullPath = localstorage.GetAbsolutePath (storage uc) sp /\
      os.lookup (disk w') fullPath = inl (os.File file) /\
      exists w'',
        ServeFile uc path w' = (None, w'') /\
        http.served (response w'') = Some fullPath /\
        disk w'' = disk w'.
Proof.
  intros uc path file w w' H.
  destruct (sanitizePath uc path w) as [[sp|e] w1] eqn:Hs.
  2:{ rewrite (@abort_UploadFile _ _ uc _ _ _ _ _ Hs) in H. discriminate. }
  rewrite (@UploadFile_accepted uc path sp file w w1 Hs) in H.
  destruct (localstorage.WriteFile _ _ _ _) as [[e|] w2] eqn:Hw; [discriminate|].
  injection H as ->.
  destruct (@local_WriteFile_stored _ _ _ _ _ Hw) as (Hl & _).
  exists sp, (localstorage.GetAbsolutePath (storage uc) sp).
  split; [reflexivity|]. split; [reflexivity|]. split; [exact Hl|].
    assert (Hp : fst (sanitizePath uc path w') = Ok sp).
  { rewrite sanitizePath_result. rewrite <- (sanitizePath_result uc path w). now rewrite Hs. }
  destruct (sanitizePath_pair uc path w') as (v' & Hv'). rewrite Hp in Hv'.
  rewrite (@ServeFile_accepted _ _ uc path sp w' v' Hv'). cbv zeta.
  cbn [GetAbsolutePath LocalStorage_FileStorage]. unfold os.Stat. rewrite Hl.
  eexists. split; [reflexivity|]. cbn [response http.served disk called].
  split; [reflexivity|]. now destruct (sanitizePath_world' _ _ _ Hv').
Qed.

Lemma upload_then_serve_witness :
  exists w'',
    ServeFile Examples.uc255 "docs/a.txt"
      (snd (UploadFile Examples.uc255 "docs/a.txt" "hello" Examples.world_empty))
    = (None, w'') /\
    http.served (response w'') = Some "/storage/docs/a.txt".
Proof.
  assert (H : UploadFile Examples.uc255 "docs/a.txt" "hello" Examples.world_empty
              = (None, snd (UploadFile Examples.uc255 "docs/a.txt" "hello" Examples.world_empty)))
    by (vm_compute; reflexivity).
  destruct (@upload_then_serve _ _ _ _ _ H)
    as (sp & full & Hsp & Hfull & _ & w'' & Hserve & Hserved & _).
  exists w''. split; [exact Hserve|]. rewrite Hserved, Hfull.
  assert (E : fst (sanitizePath Examples.uc255 "docs/a.txt" Examples.world_empty)
              = Ok "docs/a.txt") by (vm_compute; reflexivity).
  rewrite E in Hsp. injection Hsp as <-. vm_compute. reflexivity.
Defined.

(** After a successful [Delete] the target does not exist. *)
Theorem delete_removes_target :
  forall (uc : @FileManagementUseCase localstorage.LocalStorageService)
         (path : bytes) (w w' : world),
    Delete uc path w = (None, w') ->
    exists sp statErr,
      fst (sanitizePath uc path w) = Ok sp /\
      os.Stat (disk w') (localstorage.GetAbsolutePath (storage uc) sp) = Err statErr /\
      os.IsNotExist statErr = true.
Proof.
  intros uc path w w' H.
  destruct (sanitizePath uc path w) as [[sp|e] w1] eqn:Hs.
  2:{ rewrite (@abort_Delete _ _ uc _ _ _ _ Hs) in H. discriminate. }
  rewrite (@Delete_accepted uc path sp w w1 Hs) in H. cbv zeta in H.
  exists sp, (Errno ENOENT). split; [reflexivity|]. split; [|reflexivity].
  set (full := localstorage.GetAbsolutePath (storage uc) sp) in *.
  assert (Hl : os.lookup (snd (os.RemoveAll (disk w) full)) full = inr ENOENT).
  { destruct (fst (os.RemoveAll (disk w) full)) eqn:Hr; [discriminate|].
    unfold os.RemoveAll in *. unfold os.lookup.
    destruct full as [|c p]; [reflexivity|].
    destruct (os.endsWithDot (c :: p)); [discriminate|].
    destruct (os.remove_at (os.names (c :: p)) (disk w)) as [[e|] d'] eqn:E.
    - destruct e; try discriminate. cbn [snd].
      destruct (remove_at_ENOENT _ _ E) as (-> & Hres). exact Hres.
    - cbn [snd]. exact (remove_at_gone _ _ E). }
  injection H as _ <-. cbn [disk]. unfold os.Stat. now rewrite Hl.
Qed.

Lemma delete_removes_target_witness :
  exists statErr,
    os.Stat (disk (snd (Delete Examples.uc255 "project/sub" Examples.world_project)))
            "/storage/project/sub" = Err statErr /\
    os.IsNotExist statErr = true /\
    os.Stat (disk Examples.world_project) "/storage/project/sub"
    = Ok {| os.Name := "sub"; os.IsDir := true |}.
Proof.
  assert (H : Delete Examples.uc255 "project/sub" Examples.world_project
              = (None, snd (Delete Examples.uc255 "project/sub" Examples.world_project)))
    by (vm_compute; reflexivity).
  destruct (@delete_removes_target _ _ _ _ H) as (sp & statErr & Hsp & Hstat & Hne).
  assert (E : fst (sanitizePath Examples.uc255 "project/sub" Examples.world_project)
              = Ok "project/sub") by (vm_compute; reflexivity).
  rewrite E in Hsp. injection Hsp as <-.
  exists statErr. split; [exact Hstat|]. split; [exact Hne|]. vm_compute. reflexivity.
Defined.

(** [CreateFolder] on the local storage is idempotent: on a path that is
    a directory already it succeeds and changes nothing in the file
    system; and after a successful [CreateFolder] the target is a
    directory, so that a second [CreateFolder] of the same path succeeds
    without changing the file system. *)
Theorem create_folder_idempotent :
  forall (uc : @FileManagementUseCase localstorage.LocalStorageService)
         (path : bytes) (w : world),
    (forall sp w1 es,
       sanitizePath uc path w = (Ok sp, w1) ->
       os.lookup (disk w) (localstorage.GetAbsolutePath (storage uc) sp) = inl (os.Dir es) ->
       exists w', CreateFolder uc path w = (None, w') /\ disk w' = disk w) /\
    (forall w',
       CreateFolder uc path w = (None, w') ->
       exists sp info w'',
         fst (sanitizePath uc path w) = Ok sp /\
         os.Stat (disk w') (localstorage.GetAbsolutePath (storage uc) sp) = Ok info /\
         os.IsDir info = true /\
         CreateFolder uc path w' = (None, w'') /\ disk w'' = disk w').
Proof.
  intros uc path w. split.
  { intros sp w1 es Hs Hl. exact (@CreateFolder_on_directory uc path sp w w1 es Hs Hl). }
  intros w' H.
  destruct (sanitizePath uc path w) as [[sp|e] w1] eqn:Hs.
  2:{ rewrite (@abort_CreateFolder _ _ uc _ _ _ _ Hs) in H. discriminate. }
  rewrite (@CreateFolder_accepted uc path sp w w1 Hs) in H. cbv zeta in H.
  set (full := localstorage.GetAbsolutePath (storage uc) sp) in *.
  assert (Hl : exists es, os.lookup (snd (os.MkdirAll (disk w) full)) full = inl (os.Dir es)).
  { destruct (fst (os.MkdirAll (disk w) full)) eqn:Hr; [discriminate|].
    unfold os.MkdirAll in *. unfold os.lookup.
    destruct full as [|c p]; [discriminate|].
    destruct (os.mkdir_all (os.names (c :: p)) (disk w)) as [[e|] d'] eqn:E; [discriminate|].
    cbn [snd]. exact (mkdir_all_resolve _ _ E). }
  destruct Hl as (es & Hl).
  assert (Hd : disk w' = snd (os.MkdirAll (disk w) full)) by (now injection H as _ <-).
  rewrite <- Hd in Hl.
  destruct (sanitizePath_pair uc path w') as (v' & Hv').
  assert (Hp : fst (sanitizePath uc path w') = Ok sp).
  { rewrite sanitizePath_result. rewrite <- (sanitizePath_result uc path w). now rewrite Hs. }
  rewrite Hp in Hv'.
  destruct (@CreateFolder_on_directory uc path sp w' v' es Hv' Hl) as (w'' & Hrun & Hsame).
  exists sp, {| os.Name := os.basename full; os.IsDir := true |}, w''.
  split; [reflexivity|]. unfold os.Stat. fold full. rewrite Hl. auto.
Qed.

Lemma create_folder_idempotent_witness :
  (exists w', CreateFolder Examples.uc255 "project/sub" Examples.world_project = (None, w') /\
              disk w' = disk Examples.world_project) /\
  (exists info w'',
     os.Stat (disk (snd (CreateFolder Examples.uc255 "a/b" Examples.world_empty)))
             "/storage/a/b" = Ok info /\
     os.IsDir info = true /\
     CreateFolder Examples.uc255 "a/b"
       (snd (CreateFolder Examples.uc255 "a/b" Examples.world_empty)) = (None, w'') /\
     disk w'' = disk (snd (CreateFolder Examples.uc255 "a/b" Examples.world_empty))).
Proof.
  split.
  - assert (Hs : sanitizePath Examples.uc255 "project/sub" Examples.world_project
                 = (Ok "project/sub", base_read Examples.world_project))
      by (vm_compute; reflexivity).
    destruct (@create_folder_idempotent Examples.uc255 "project/sub" Examples.world_project)
      as (H & _).
    apply (H _ _ [(".x", os.File "X"); ("b.txt", os.File "B")] Hs).
    vm_compute. reflexivity.
  - assert (H : CreateFolder Examples.uc255 "a/b" Examples.world_empty
                = (None, snd (CreateFolder Examples.uc255 "a/b" Examples.world_empty)))
      by (vm_compute; reflexivity).
    destruct (@create_folder_idempotent Examples.uc255 "a/b" Examples.world_empty)
      as (_ & Hsecond).
    destruct (Hsecond _ H) as (sp & info & w'' & Hsp & Hstat & Hdir & Hrun & Hsame).
    assert (E : fst (sanitizePath Examples.uc255 "a/b" Examples.world_empty) = Ok "a/b")
      by (vm_compute; reflexivity).
    rewrite E in Hsp. injection Hsp as <-.
    exists info, w''. split; [exact Hstat|]. split; [exact Hdir|]. split; assumption.
Defined.

(** [UploadFile] on a path that is a directory fails with [EISDIR] and
    leaves the file system as it was: an upload never replaces a
    directory. *)
Theorem upload_onto_directory_fails :
  forall (uc : @FileManagementUseCase localstorage.LocalStorageService)
         (path sp file : bytes) (w w1 : world) (es : list (bytes * os.node)),
    IsAbs (localstorage.basePath (storage uc)) = true ->
    sanitizePath uc path w = (Ok sp, w1) ->
    os.lookup (disk w) (localstorage.GetAbsolutePath (storage uc) sp) = inl (os.Dir es) ->
    exists w',
      UploadFile uc path file w
      = (Some (Errorf "failed to upload file to '%s': %w" [ArgS sp] (Errno EISDIR)), w') /\
      disk w' = disk w.
Proof.
  intros uc path sp file w w1 es Habs Hs Hl.
  destruct (sanitizePath_world' _ _ _ Hs) as (Hd & _).
  rewrite (@UploadFile_accepted uc path sp file w w1 Hs).
  destruct (@local_abspath (storage uc) sp Habs) as (ns & Hns & Hfull).
  unfold localstorage.WriteFile, bind. cbv zeta. rewrite !os_update_eq.
  cbn [disk called calls logs response]. rewrite Hfull in *. rewrite Hd.
  rewrite lookup_abspath in Hl by assumption.
  assert (Hm : os.MkdirAll (disk w) (Dir (abspath ns)) = (None, disk w)).
  { destruct (names_ok_snoc Hns) as [-> | (ms & n & -> & Hms & Hn)].
    - cbn in Hl. vm_compute Dir. unfold os.MkdirAll. cbn [os.names].
      change (os.names "/") with (@nil bytes).
      destruct (disk w); cbn in Hl; try discriminate. reflexivity.
    - rewrite Dir_abspath_snoc by assumption.
      destruct (resolve_parent _ _ _ Hl) as (es' & Hp).
      unfold os.MkdirAll. unfold abspath at 1. rewrite names_abspath by assumption.
      now rewrite (mkdir_all_existing _ _ Hp). }
  rewrite Hm. cbn [fst snd disk].
  assert (Hc : os.WriteFile (disk w) (abspath ns) file = (Some (Errno EISDIR), disk w)).
  { unfold os.WriteFile. unfold abspath at 1. rewrite names_abspath by assumption.
    now rewrite (create_at_directory _ _ _ Hl). }
  rewrite os_update_eq. cbn [disk]. rewrite Hc. cbn [fst snd]. eexists. split; reflexivity.
Qed.

Lemma upload_onto_directory_fails_witness :
  exists w',
    UploadFile Examples.uc255 [] "data" Examples.world_project
    = (Some (Errorf "failed to upload file to '%s': %w" [ArgS "."] (Errno EISDIR)), w') /\
    disk w' = disk Examples.world_project.
Proof.
  assert (Habs : IsAbs (localstorage.basePath (storage Examples.uc255)) = true)
    by reflexivity.
  assert (Hs : sanitizePath Examples.uc255 [] Examples.world_project
               = (Ok ".", base_read Examples.world_project)) by (vm_compute; reflexivity).
  apply (@upload_onto_directory_fails Examples.uc255 [] "." "data" Examples.world_project _
           [("project", os.Dir Examples.project)] Habs Hs).
  vm_compute. reflexivity.
Defined.

(** The failures of [List] on the local storage: a directory that does
    not exist is [FileNotFound], one that may not be read is
    [PermissionDenied], and a path that is a regular file gives the error
    of the system ([ENOTDIR]) wrapped, which is none of the errors of the
    domain. *)
Theorem list_failure_classes :
  forall (uc : @FileManagementUseCase localstorage.LocalStorageService)
         (path sp : bytes) (w w1 : world),
    sanitizePath uc path w = (Ok sp, w1) ->
    (os.lookup (disk w) (localstorage.GetAbsolutePath (storage uc) sp) = inr ENOENT ->
     exists e w', List uc path w = (Err e, w') /\ errors.Is e ErrFileNotFound = true) /\
    (os.lookup (disk w) (localstorage.GetAbsolutePath (storage uc) sp) = inr EACCES ->
     exists e w', List uc path w = (Err e, w') /\ errors.Is e ErrPermissionDenied = true) /\
    (forall data,
       os.lookup (disk w) (localstorage.GetAbsolutePath (storage uc) sp)
       = inl (os.File data) ->
       exists w',
         List uc path w
         = (Err (Errorf "failed to list path '%s': %w" [ArgS sp] (Errno ENOTDIR)), w') /\
         forall target,
           errors.Is (Errorf "failed to list path '%s': %w" [ArgS sp] (Errno ENOTDIR)) target
           = false).
Proof.
  intros uc path sp w w1 Hs.
  destruct (sanitizePath_world' _ _ _ Hs) as (Hd & _).
  rewrite (@List_accepted uc path sp w w1 Hs).
  assert (Hdisk : disk (called (CallReadDirectory sp) w1) = disk w) by exact Hd.
  split; [|split].
  - intros Hl. rewrite (@local_ReadDirectory_error _ _ _ ENOENT).
    + eexists. eexists. split; reflexivity.
    + unfold os.ReadDir. now rewrite Hdisk, Hl.
  - intros Hl. rewrite (@local_ReadDirectory_error _ _ _ EACCES).
    + eexists. eexists. split; reflexivity.
    + unfold os.ReadDir. now rewrite Hdisk, Hl.
  - intros data Hl. rewrite (@local_ReadDirectory_error _ _ _ ENOTDIR).
    + eexists. split; reflexivity.
    + unfold os.ReadDir. now rewrite Hdisk, Hl.
Qed.

Lemma list_failure_classes_witness :
  (exists e w', List Examples.uc255 "project/a.txt" Examples.world_project = (Err e, w') /\
                forall target, errors.Is e target = false) /\
  os.lookup (disk Examples.world_project) "/storage/project/a.txt" = inl (os.File "A").
Proof.
  assert (Hs : sanitizePath Examples.uc255 "project/a.txt" Examples.world_project
               = (Ok "project/a.txt", base_read Examples.world_project))
    by (vm_compute; reflexivity).
  destruct (@list_failure_classes Examples.uc255 _ _ _ _ Hs) as (_ & _ & H).
  destruct (H "A") as (w' & Hrun & Hnone); [vm_compute; reflexivity|].
  split; [|vm_compute; reflexivity].
  eexists. exists w'. split; [exact Hrun | exact Hnone].
Defined.

(** [ServeFolderAsZip] on a directory with an entry that cannot be read,
    hidden or not: the walk stops there, the operation fails with the
    error of the system wrapped, and the archive holds the files of the
    entries before it only. *)
Theorem archive_stops_at_unreadable_entry :
  forall (uc : @FileManagementUseCase localstorage.LocalStorageService)
         (path sp : bytes) (w w1 : world)
         (before after : list (bytes * os.node)) (name : bytes) (e : errno),
    IsAbs (localstorage.basePath (storage uc)) = true ->
    sanitizePath uc path w = (Ok sp, w1) ->
    os.lookup (disk w) (localstorage.GetAbsolutePath (storage uc) sp)
    = inl (os.Dir (before ++ (name, os.Bad e) :: after)) ->
    wf_tree (os.Dir before) = true ->
    visible (os.basename (localstorage.GetAbsolutePath (storage uc) sp)) = true ->
    exists w',
      ServeFolderAsZip uc path w
      = (Some (Errorf "failed to create zip for folder '%s': %w" [ArgS sp] (Errno e)), w') /\
      http.archive (response w')
      = http.archive (response w) ++ visible_files [] (os.Dir before) /\
      disk w' = disk w.
Proof.
  intros uc path sp w w1 before after name e Habs Hs Hl Hwf Hvis.
  destruct (sanitizePath_world' _ _ _ Hs) as (Hd & _ & Hr & _).
  destruct (@local_abspath (storage uc) sp Habs) as (rs & Hrs & Hfull).
  rewrite (@ServeFolderAsZip_accepted _ _ uc path sp w w1 Hs). cbv zeta.
  cbn [GetAbsolutePath LocalStorage_FileStorage]. rewrite Hfull in *.
  unfold os.Stat. rewrite Hl. cbn [os.is_dir os.IsDir negb].
  rewrite (@Walk_unreadable_entry rs before after name e); try assumption.
  2:{ cbn [disk]. now rewrite Hd. }
  eexists. split; [reflexivity|].
  cbn [response http.archive add_entries disk]. rewrite Hr. split; [reflexivity | exact Hd].
Qed.

Lemma archive_stops_at_unreadable_entry_witness :
  exists w',
    ServeFolderAsZip Examples.uc255 "docs" Examples.world_broken
    = (Some (Errorf "failed to create zip for folder '%s': %w" [ArgS "docs"] (Errno ENOENT)),
       w') /\
    http.archive (response w') = [("a.txt", "A")].
Proof.
  assert (Habs : IsAbs (localstorage.basePath (storage Examples.uc255)) = true)
    by reflexivity.
  assert (Hs : sanitizePath Examples.uc255 "docs" Examples.world_broken
               = (Ok "docs", base_read Examples.world_broken)) by (vm_compute; reflexivity).
  destruct (@archive_stops_at_unreadable_entry Examples.uc255 "docs" "docs"
              Examples.world_broken _ [("a.txt", os.File "A")] [("sub", os.Dir [])]
              "link" ENOENT Habs Hs)
    as (w' & Hrun & Harch & _); try (vm_compute; reflexivity).
  exists w'. split; [exact Hrun | exact Harch].
Defined.


(** After a successful [Rename] on the local storage, what was at the
    old path is at the new path, and, with an absolute base directory and
    two paths that resolve differently, nothing is left at the old path. *)
Theorem rename_moves_content :
  forall (uc : @FileManagementUseCase localstorage.LocalStorageService)
         (oldPath newPath : bytes) (w w' : world),
    Rename uc oldPath newPath w = (None, w') ->
    exists so sn src,
      fst (sanitizePath uc oldPath w) = Ok so /\
      fst (sanitizePath uc newPath w) = Ok sn /\
      os.lookup (disk w) (localstorage.GetAbsolutePath (storage uc) so) = inl src /\
      os.lookup (disk w') (localstorage.GetAbsolutePath (storage uc) sn) = inl src /\
      (IsAbs (localstorage.basePath (storage uc)) = true ->
       localstorage.GetAbsolutePath (storage uc) so
       <> localstorage.GetAbsolutePath (storage uc) sn ->
       os.lookup (disk w') (localstorage.GetAbsolutePath (storage uc) so) = inr ENOENT).
Proof.
  intros uc oldPath newPath w w' H.
  destruct (sanitizePath uc oldPath w) as [[so|e] w1] eqn:H1.
  2:{ rewrite (@abort_Rename_old _ _ uc _ _ _ _ _ H1) in H. discriminate. }
  destruct (sanitizePath uc newPath w1) as [[sn|e] w2] eqn:H2.
  2:{ rewrite (@abort_Rename_new _ _ uc _ _ _ _ _ _ _ H1 H2) in H. discriminate. }
  rewrite (@Rename_accepted uc _ _ _ _ _ _ _ H1 H2) in H. cbv zeta in H.
  destruct (os.Rename (disk w) _ _) as [[e|] d'] eqn:E; [discriminate|].
  cbn [fst snd] in H. injection H as <-. cbn [disk].
  destruct (os_Rename_moved _ _ _ E) as (src & Hold & Hnew).
  exists so, sn, src. split; [reflexivity|]. split; [|split; [|split]]; try assumption.
  - rewrite sanitizePath_result. rewrite <- (sanitizePath_result uc newPath w1).
    now rewrite H2.
  - intros Habs Hdiff. apply (@os_Rename_left _ _ _ _ E).
    destruct (@local_abspath (storage uc) so Habs) as (ns & Hns & Hso).
    destruct (@local_abspath (storage uc) sn Habs) as (ms & Hms & Hsn).
    rewrite Hso, Hsn in *. rewrite !names_abspath by assumption. congruence.
Qed.

Lemma rename_moves_content_witness :
  os.lookup (disk (snd (Rename Examples.uc255 "project/a.txt" "project/sub/c.txt"
                          Examples.world_project)))
            "/storage/project/sub/c.txt" = inl (os.File "A") /\
  os.lookup (disk (snd (Rename Examples.uc255 "project/a.txt" "project/sub/c.txt"
                          Examples.world_project)))
            "/storage/project/a.txt" = inr ENOENT.
Proof.
  assert (H : Rename Examples.uc255 "project/a.txt" "project/sub/c.txt" Examples.world_project
              = (None, snd (Rename Examples.uc255 "project/a.txt" "project/sub/c.txt"
                              Examples.world_project))) by (vm_compute; reflexivity).
  destruct (@rename_moves_content _ _ _ _ _ H)
    as (so & sn & src & Hso & Hsn & Hold & Hnew & Hgone).
  assert (E1 : fst (sanitizePath Examples.uc255 "project/a.txt" Examples.world_project)
               = Ok "project/a.txt") by (vm_compute; reflexivity).
  assert (E2 : fst (sanitizePath Examples.uc255 "project/sub/c.txt" Examples.world_project)
               = Ok "project/sub/c.txt") by (vm_compute; reflexivity).
  rewrite E1 in Hso. rewrite E2 in Hsn. injection Hso as <-. injection Hsn as <-.
  assert (E3 : os.lookup (disk Examples.world_project)
                 (localstorage.GetAbsolutePath (storage Examples.uc255) "project/a.txt")
               = inl (os.File "A")) by (vm_compute; reflexivity).
  rewrite E3 in Hold. injection Hold as <-. split; [exact Hnew|].
  apply Hgone; [reflexivity | vm_compute; discriminate].
Defined.





(** [UploadFile], [Delete] and [CreateFolder] on the local storage,
    whatever they return, change nothing outside their target: every
    path that neither leads to the target nor lies below it resolves
    after the operation as it did before. *)
Theorem changes_stay_at_the_target :
  forall (uc : @FileManagementUseCase localstorage.LocalStorageService)
         (path file sp : bytes) (w w1 : world) (ns ds : list bytes),
    sanitizePath uc path w = (Ok sp, w1) ->
    names_ok ns -> localstorage.GetAbsolutePath (storage uc) sp = abspath ns ->
    names_ok ds -> apart ns ds = true ->
    os.lookup (disk (snd (UploadFile uc path file w))) (abspath ds)
    = os.lookup (disk w) (abspath ds) /\
    os.lookup (disk (snd (Delete uc path w))) (abspath ds)
    = os.lookup (disk w) (abspath ds) /\
    os.lookup (disk (snd (CreateFolder uc path w))) (abspath ds)
    = os.lookup (disk w) (abspath ds).
Proof.
  intros uc path file sp w w1 ns ds Hs Hns Hfull Hds Hap.
  destruct (sanitizePath_world' _ _ _ Hs) as (Hd & _).
  unfold apart in Hap. apply andb_prop in Hap as [Hp Hq].
  apply negb_true_iff in Hp, Hq.
  rewrite !lookup_abspath by assumption.
  split; [|split].
  - rewrite (@UploadFile_accepted uc path sp file w w1 Hs).
    unfold localstorage.WriteFile, bind. cbv zeta. rewrite !os_update_eq.
    cbn [disk called calls logs response]. rewrite Hfull, Hd.
    destruct (names_ok_snoc Hns) as [-> | (ms & n & -> & Hms & Hn)]; [discriminate|].
    rewrite Dir_abspath_snoc by assumption.
    assert (Hqm : os.is_prefix ds ms = false).
    { destruct (os.is_prefix ds ms) eqn:E; [|reflexivity].
      rewrite (is_prefix_trans _ _ _ E (is_prefix_app ms [n])) in Hq. discriminate. }
    assert (Hm : os.resolve (snd (os.MkdirAll (disk w) (abspath ms))) ds
                 = os.resolve (disk w) ds).
    { unfold os.MkdirAll. unfold abspath at 1. rewrite names_abspath by assumption.
      destruct (os.mkdir_all ms (disk w)) as [r d1] eqn:E. cbn [snd].
      pose proof (mkdir_all_apart ms (disk w) ds Hqm) as H. now rewrite E in H. }
    destruct (fst (os.MkdirAll (disk w) (abspath ms))); cbn [snd disk]; [exact Hm|].
    rewrite os_update_eq. cbn [snd disk fst].
    unfold os.WriteFile. unfold abspath at 1. rewrite names_abspath by assumption.
    match goal with
    | |- context [os.create_at ?cs ?f ?d] =>
        pose proof (create_at_apart f cs d ds Hq Hp) as H;
        destruct (os.create_at cs f d) as [r d2]
    end. cbn [snd] in *. now rewrite H.
  - rewrite (@Delete_accepted uc path sp w w1 Hs). cbv zeta. cbn [snd disk].
    rewrite Hfull. unfold os.RemoveAll. unfold abspath at 1. fold (abspath ns).
    rewrite endsWithDot_abspath, names_abspath by assumption.
    pose proof (remove_at_apart ns (disk w) ds Hq Hp) as H.
    destruct (os.remove_at ns (disk w)) as [[[]|] d']; cbn [snd] in *; exact H.
  - rewrite (@CreateFolder_accepted uc path sp w w1 Hs). cbv zeta. cbn [snd disk].
    rewrite Hfull. unfold os.MkdirAll. unfold abspath at 1. rewrite names_abspath by assumption.
    pose proof (mkdir_all_apart ns (disk w) ds Hq) as H.
    destruct (os.mkdir_all ns (disk w)) as [r d']. cbn [snd] in *. exact H.
Qed.

Lemma changes_stay_at_the_target_witness :
  os.lookup (disk (snd (Delete Examples.uc255 "project/sub" Examples.world_project)))
            (abspath ["storage"; "project"; "a.txt"])
  = inl (os.File "A") /\
  os.lookup (disk (snd (Delete Examples.uc255 "project/sub" Examples.world_project)))
            (abspath ["storage"; "project"; "sub"])
  = inr ENOENT.
Proof.
  assert (Hs : sanitizePath Examples.uc255 "project/sub" Examples.world_project
               = (Ok "project/sub", base_read Examples.world_project))
    by (vm_compute; reflexivity).
  assert (Hns : names_ok ["storage"; "project"; "sub"]) by (repeat constructor).
  assert (Hds : names_ok ["storage"; "project"; "a.txt"]) by (repeat constructor).
  destruct (@changes_stay_at_the_target Examples.uc255 "project/sub" [] "project/sub"
              Examples.world_project _ ["storage"; "project"; "sub"]
              ["storage"; "project"; "a.txt"] Hs Hns eq_refl Hds eq_refl) as (_ & Hdel & _).
  split; [|vm_compute; reflexivity].
  rewrite Hdel. vm_compute. reflexivity.
Defined.

(** * Properties of the handlers *)

Import HandlerFacts RelFacts.


(** The handlers that take the path from the query ([Browse], [Delete],
    [Download], [DownloadFolder]) answer a path that the sanitiser rejects
    with status 400 and the general message; the error goes to the log
    only, and the file system is as it was. *)
Theorem rejected_path_is_bad_request :
  forall (S : Type) (storage_impl : FileStorage S)
         (h : @server.Handler (@FileManagementUseCase S))
         (mapLower : bytes -> bytes) (Template : Type)
         (ParseFiles : bytes -> M (Result Template))
         (Execute : Template -> server.browseData -> bytes * option error)
         (r : server.Request) (x : server.exchange) (e : error) (w1 : world),
    sanitizePath (server.uc h) (server.getPathFromQuery r) (server.inner x) = (Err e, w1) ->
    server.Browse ParseFiles Execute h r x
    = server.answered w1 400 (server.InternalError (server.messages h)) e x /\
    server.Delete h r x
    = server.answered w1 400 (server.InternalError (server.messages h)) e x /\
    (server.isForbidden mapLower h (Base (server.getPathFromQuery r)) = false ->
     server.Download mapLower h r x
     = server.answered w1 400 (server.InternalError (server.messages h)) e x /\
     server.DownloadFolder mapLower h r x
     = server.answered w1 400 (server.InternalError (server.messages h)) e x) /\
    disk w1 = disk (server.inner x).
Proof.
  intros S impl h mapLower Template ParseFiles Execute r x e w1 H.
  pose proof (sanitizer_error_class _ _ _ H) as Hc.
  split; [|split; [|split]].
  - unfold server.Browse, server.lift. cbv zeta.
    cbn [management.List UseCase_FileManagement].
    fold (server.getPathFromQuery r).
    rewrite (@abort_List _ _ (server.uc h) _ _ _ _ H).
    now rewrite handleError_bad_request.
  - unfold server.Delete, server.lift. cbv zeta.
    cbn [management.Delete UseCase_FileManagement].
    rewrite (@abort_Delete _ _ (server.uc h) _ _ _ _ H).
    now rewrite handleError_bad_request.
  - intros Hf. unfold server.Download, server.DownloadFolder, server.serve, server.lift.
    rewrite Hf. cbn [management.ServeFile management.ServeFolderAsZip UseCase_FileManagement].
    rewrite (@abort_ServeFile _ _ (server.uc h) _ _ _ _ H).
    rewrite (@abort_ServeFolderAsZip _ _ (server.uc h) _ _ _ _ H).
    now rewrite !handleError_bad_request.
  - now destruct (sanitizePath_world' _ _ _ H).
Qed.


Lemma rejected_path_is_bad_request_witness :
  server.sent
    (server.Delete ServerExamples.handler
       (ServerExamples.request "GET" [("path", "../../etc/passwd")] [])
       (ServerExamples.start Examples.world_project))
  = [server.HttpError "Internal error" 400] /\
  disk (server.inner
          (server.Delete ServerExamples.handler
             (ServerExamples.request "GET" [("path", "../../etc/passwd")] [])
             (ServerExamples.start Examples.world_project)))
  = disk Examples.world_project.
Proof.
  assert (H : sanitizePath (server.uc ServerExamples.handler)
                (server.getPathFromQuery
                   (ServerExamples.request "GET" [("path", "../../etc/passwd")] []))
                (server.inner (ServerExamples.start Examples.world_project))
              = (Err (Errorf "path traversal detected: %w" [] (Sentinel ErrPathTraversal)),
                 base_read Examples.world_project)) by (vm_compute; reflexivity).
  destruct (@rejected_path_is_bad_request _ _ ServerExamples.handler ServerExamples.mapLower
              unit (fun _ => ret (Ok tt)) (fun _ _ => ([], None)) _ _ _ _ H)
    as (_ & Hdel & _ & Hdisk).
  rewrite Hdel. split; [reflexivity | exact Hdisk].
Defined.

(** The handlers of the forms ([CreateFolder], [Rename], [Upload]), on a
    POST request whose path the sanitiser rejects, answer with status 400
    and the general message, and the file system is as it was. *)
Theorem rejected_form_path_is_bad_request :
  forall (S : Type) (storage_impl : FileStorage S)
         (h : @server.Handler (@FileManagementUseCase S))
         (mapLower : bytes -> bytes)
         (r : server.Request) (x : server.exchange) (e : error) (w1 : world),
    server.Method r = server.MethodPost ->
    (sanitizePath (server.uc h)
       (server.buildFullPath (server.Get server.FormParamPath (server.Form r))
                             (server.Get server.FormParamName (server.Form r)))
       (server.inner x) = (Err e, w1) ->
     server.CreateFolder h r x
     = server.answered w1 400 (server.InternalError (server.messages h)) e x) /\
    (sanitizePath (server.uc h) (server.Get server.FormParamOld (server.Form r))
       (server.inner x) = (Err e, w1) ->
     server.Rename h r x
     = server.answered w1 400 (server.InternalError (server.messages h)) e x) /\
    (forall file header,
       (server.ContentLength r <= server.maxUploadSize h)%Z ->
       server.FormFile r (server.maxUploadSize h) server.FormParamFile = Ok (file, header) ->
       (server.Size header <= server.maxUploadSize h)%Z ->
       server.isForbidden mapLower h (server.Filename header) = false ->
       sanitizePath (server.uc h)
         (server.buildFullPath (server.Get server.FormParamPath (server.Form r))
                               (server.Filename header))
         (server.inner x) = (Err e, w1) ->
       server.Upload mapLower h r x
       = server.answered w1 400 (server.InternalError (server.messages h)) e x).
Proof.
  intros S impl h mapLower r x e w1 Hm.
  assert (Hpost : negb (bytes_eqb (server.Method r) server.MethodPost) = false).
  { rewrite Hm. now rewrite bytes_eqb_refl. }
  split; [|split].
  - intros H. pose proof (sanitizer_error_class _ _ _ H) as Hc.
    unfold server.CreateFolder, server.handlePost, server.lift. rewrite Hpost. cbv zeta.
    cbn [management.CreateFolder UseCase_FileManagement].
    rewrite (@abort_CreateFolder _ _ (server.uc h) _ _ _ _ H).
    now rewrite handleError_bad_request.
  - intros H. pose proof (sanitizer_error_class _ _ _ H) as Hc.
    unfold server.Rename, server.handlePost, server.lift. rewrite Hpost. cbv zeta.
    cbn [management.Rename UseCase_FileManagement].
    rewrite (@abort_Rename_old _ _ (server.uc h) _ _ _ _ _ H).
    now rewrite handleError_bad_request.
  - intros file header Hlen Hfile Hsize Hforb H.
    pose proof (sanitizer_error_class _ _ _ H) as Hc.
    unfold server.Upload, server.handlePost, server.lift. rewrite Hpost. cbv zeta.
    rewrite gtb_leb. apply Z.leb_le in Hlen. rewrite Hlen. cbn [negb].
    rewrite Hfile. rewrite gtb_leb. apply Z.leb_le in Hsize. rewrite Hsize. cbn [negb].
    rewrite Hforb. cbn [management.UploadFile UseCase_FileManagement].
    rewrite (@abort_UploadFile _ _ (server.uc h) _ _ _ _ _ H).
    now rewrite handleError_bad_request.
Qed.

Lemma rejected_form_path_is_bad_request_witness :
  server.sent
    (server.Upload ServerExamples.mapLower ServerExamples.handler
       (ServerExamples.upload "a.txt" "hello" [("path", "../..")])
       (ServerExamples.start Examples.world_project))
  = [server.HttpError "Internal error" 400].
Proof.
  assert (Hm : server.Method (ServerExamples.upload "a.txt" "hello" [("path", "../..")])
               = server.MethodPost) by reflexivity.
  destruct (@rejected_form_path_is_bad_request _ _ ServerExamples.handler
              ServerExamples.mapLower
              (ServerExamples.upload "a.txt" "hello" [("path", "../..")])
              (ServerExamples.start Examples.world_project)
              (Errorf "path traversal detected: %w" [] (Sentinel ErrPathTraversal))
              (base_read Examples.world_project) Hm) as (_ & _ & Hup).
  rewrite (Hup "hello" {| server.Filename := "a.txt"; server.Size := 5 |});
    try reflexivity; try (vm_compute; congruence).
Defined.

(** [Upload], [CreateFolder] and [Rename] on a request that is not a POST
    only redirect to the root listing: no use case runs, nothing is
    logged, whatever the form holds. *)
Theorem other_methods_only_redirect :
  forall (U : Type) (uc_impl : management.FileManagement U) (h : @server.Handler U)
         (mapLower : bytes -> bytes) (r : server.Request) (x : server.exchange),
    server.Method r <> server.MethodPost ->
    server.Upload mapLower h r x = server.send (server.HttpRedirect "/?path=" 302) x /\
    server.CreateFolder h r x = server.send (server.HttpRedirect "/?path=" 302) x /\
    server.Rename h r x = server.send (server.HttpRedirect "/?path=" 302) x.
Proof.
  intros U impl h mapLower r x Hm.
  assert (Hpost : negb (bytes_eqb (server.Method r) server.MethodPost) = true).
  { apply negb_true_iff. now apply bytes_eqb_neq. }
  unfold server.Upload, server.CreateFolder, server.Rename, server.handlePost.
  rewrite Hpost. repeat split; reflexivity.
Qed.

Lemma other_methods_only_redirect_witness :
  server.Rename ServerExamples.handler
    (ServerExamples.request "GET" [] [("old", "project/a.txt"); ("new", "b.txt")])
    (ServerExamples.start Examples.world_project)
  = {| server.inner := Examples.world_project;
       server.sent := [server.HttpRedirect "/?path=" 302];
       server.journal := [] |}.
Proof.
  destruct (@other_methods_only_redirect _ _ ServerExamples.handler ServerExamples.mapLower
              (ServerExamples.request "GET" [] [("old", "project/a.txt"); ("new", "b.txt")])
              (ServerExamples.start Examples.world_project)) as (_ & _ & H).
  - discriminate.
  - rewrite H. reflexivity.
Defined.

(** A download of a name that is on the list of forbidden extensions, by
    its extension compared without regard to case or by its beginning, is
    refused with status 403 before any use case runs; so is an upload of
    a file with such a name. *)
Theorem forbidden_names_are_refused :
  forall (U : Type) (uc_impl : management.FileManagement U) (h : @server.Handler U)
         (mapLower : bytes -> bytes) (r : server.Request) (x : server.exchange)
         (forbidden : bytes),
    In forbidden (server.forbiddenExt h) ->
    (server.ToLower mapLower (Ext (Base (server.getPathFromQuery r))) = forbidden \/
     strings.HasPrefix (Base (server.getPathFromQuery r)) forbidden = true ->
     server.Download mapLower h r x
     = server.send (server.HttpError (server.ForbiddenFile (server.messages h)) 403) x /\
     server.DownloadFolder mapLower h r x
     = server.send (server.HttpError (server.ForbiddenFile (server.messages h)) 403) x) /\
    (forall file header,
       server.Method r = server.MethodPost ->
       (server.ContentLength r <= server.maxUploadSize h)%Z ->
       server.FormFile r (server.maxUploadSize h) server.FormParamFile = Ok (file, header) ->
       (server.Size header <= server.maxUploadSize h)%Z ->
       server.ToLower mapLower (Ext (server.Filename header)) = forbidden \/
       strings.HasPrefix (server.Filename header) forbidden = true ->
       server.Upload mapLower h r x
       = server.answered (server.inner x) 403 (server.ForbiddenFile (server.messages h))
           (Sentinel ErrUnsupportedOperation) x).
Proof.
  intros U impl h mapLower r x forbidden Hin.
  assert (Hforb : forall name,
            server.ToLower mapLower (Ext name) = forbidden \/
            strings.HasPrefix name forbidden = true ->
            server.isForbidden mapLower h name = true).
  { intros name Hn. unfold server.isForbidden. cbv zeta. apply existsb_exists.
    exists forbidden. split; [exact Hin|].
    destruct Hn as [<- | ->]; [now rewrite bytes_eqb_refl | apply orb_true_r]. }
  split.
  - intros Hn. unfold server.Download, server.DownloadFolder, server.serve.
    rewrite (Hforb _ Hn). split; reflexivity.
  - intros file header Hm Hlen Hfile Hsize Hn.
    unfold server.Upload, server.handlePost. rewrite Hm, bytes_eqb_refl. cbn [negb].
    rewrite gtb_leb. apply Z.leb_le in Hlen. rewrite Hlen. cbn [negb].
    rewrite Hfile. rewrite gtb_leb. apply Z.leb_le in Hsize. rewrite Hsize. cbn [negb].
    rewrite (Hforb _ Hn). now rewrite handleError_forbidden.
Qed.

Lemma forbidden_names_are_refused_witness :
  server.Download ServerExamples.mapLower ServerExamples.handler
    (ServerExamples.request "GET" [("path", "project/CONFIG.ENV")] [])
    (ServerExamples.start Examples.world_project)
  = {| server.inner := Examples.world_project;
       server.sent := [server.HttpError "Forbidden" 403];
       server.journal := [] |}.
Proof.
  destruct (@forbidden_names_are_refused _ _ ServerExamples.handler ServerExamples.mapLower
              (ServerExamples.request "GET" [("path", "project/CONFIG.ENV")] [])
              (ServerExamples.start Examples.world_project) ".env") as (H & _).
  - now left.
  - destruct H as (H & _); [left; vm_compute; reflexivity|]. rewrite H. reflexivity.
Defined.

(** [handleError] sends one reply and logs one line; the status is 400,
    403, 404 or 500 by the class of the error, the message is one of the
    configured messages (the message of the operation for 500 only), so
    the text of the error never reaches the client; and wrapping an error
    with [%w] does not change its class. *)
Theorem error_replies :
  forall (U : Type) (h : @server.Handler U) (err : error) (message : bytes)
         (x : server.exchange),
    (exists code clientMessage,
       server.handleError h err message x
       = server.answered (server.inner x) code clientMessage err x /\
       (code = 400%Z /\ clientMessage = server.InternalError (server.messages h) /\
        (errors.Is err ErrPathTraversal || errors.Is err ErrInvalidName
         || errors.Is err ErrPathTooLong) = true
        \/
        code = 403%Z /\ clientMessage = server.ForbiddenFile (server.messages h) /\
        (errors.Is err ErrUnsupportedOperation || errors.Is err ErrPermissionDenied) = true
        \/
        code = 404%Z /\ clientMessage = server.InternalError (server.messages h) /\
        errors.Is err ErrFileNotFound = true
        \/
        code = 500%Z /\ clientMessage = message /\
        forall target, errors.Is err target = false)) /\
    (forall format args,
       server.getErrorType (Errorf format args err) = server.getErrorType err).
Proof.
  intros U h err message x. split; [|reflexivity].
  unfold server.handleError, server.getErrorType.
  destruct (errors.Is err ErrPathTraversal || errors.Is err ErrInvalidName
            || errors.Is err ErrPathTooLong) eqn:E1.
  { eexists. eexists. split; [reflexivity|]. left. auto. }
  destruct (errors.Is err ErrUnsupportedOperation || errors.Is err ErrPermissionDenied) eqn:E2.
  { eexists. eexists. split; [reflexivity|]. right. left. auto. }
  destruct (errors.Is err ErrFileNotFound) eqn:E3.
  { eexists. eexists. split; [reflexivity|]. right. right. left. auto. }
  eexists. eexists. split; [reflexivity|]. right. right. right.
  split; [reflexivity|]. split; [reflexivity|].
  apply orb_false_elim in E1 as [E1 E1c]. apply orb_false_elim in E1 as [E1a E1b].
  apply orb_false_elim in E2 as [E2a E2b].
  intros []; assumption.
Qed.

(** The answers of [Download] and [DownloadFolder] for a path that the
    sanitiser accepts and whose name is not forbidden: a file that does
    not exist is status 404, any other failure of [Stat] on a download is
    status 500 with the message of the operation, a folder that does not
    exist or is not a directory is status 404; when [Stat] succeeds
    [Download] hands the resolved path to [http.ServeFile] and sends
    nothing itself. *)
Theorem download_answers :
  forall (S : Type) (storage_impl : FileStorage S)
         (h : @server.Handler (@FileManagementUseCase S))
         (mapLower : bytes -> bytes)
         (r : server.Request) (x : server.exchange) (sp : bytes) (w1 : world),
    sanitizePath (server.uc h) (server.getPathFromQuery r) (server.inner x) = (Ok sp, w1) ->
    server.isForbidden mapLower h (Base (server.getPathFromQuery r)) = false ->
    (os.Stat (disk (server.inner x)) (GetAbsolutePath (storage (server.uc h)) sp)
     = Err (Errno ENOENT) ->
     server.Download mapLower h r x
     = server.answered (called (CallGetAbsolutePath sp) w1) 404
         (server.InternalError (server.messages h))
         (Errorf "file not found at '%s': %w" [ArgS sp] (Sentinel ErrFileNotFound)) x) /\
    (forall e,
       os.Stat (disk (server.inner x)) (GetAbsolutePath (storage (server.uc h)) sp)
       = Err (Errno e) ->
       e <> ENOENT ->
       server.Download mapLower h r x
       = server.answered (called (CallGetAbsolutePath sp) w1) 500
           (server.CannotServe (server.messages h))
           (Errorf "failed to stat file at '%s': %w" [ArgS sp] (Errno e)) x) /\
    ((exists statErr,
        os.Stat (disk (server.inner x)) (GetAbsolutePath (storage (server.uc h)) sp)
        = Err statErr) \/
     (exists info,
        os.Stat (disk (server.inner x)) (GetAbsolutePath (storage (server.uc h)) sp)
        = Ok info /\ os.IsDir info = false) ->
     server.DownloadFolder mapLower h r x
     = server.answered (called (CallGetAbsolutePath sp) w1) 404
         (server.InternalError (server.messages h))
         (Errorf "could not stat folder '%s': %w" [ArgS sp] (Sentinel ErrFileNotFound)) x) /\
    (forall info,
       os.Stat (disk (server.inner x)) (GetAbsolutePath (storage (server.uc h)) sp)
       = Ok info ->
       server.sent (server.Download mapLower h r x) = server.sent x /\
       http.served (response (server.inner (server.Download mapLower h r x)))
       = Some (GetAbsolutePath (storage (server.uc h)) sp)).
Proof.
  intros S impl h mapLower r x sp w1 Hs Hf.
  unfold server.Download, server.DownloadFolder, server.serve, server.lift. rewrite Hf.
  cbn [management.ServeFile management.ServeFolderAsZip UseCase_FileManagement].
  rewrite (@ServeFile_accepted _ _ (server.uc h) _ sp _ w1 Hs).
  rewrite (@ServeFolderAsZip_accepted _ _ (server.uc h) _ sp _ w1 Hs). cbv zeta.
  split; [|split; [|split]].
  - intros ->. cbn [os.IsNotExist]. now rewrite handleError_not_found.
  - intros e -> He. assert (Hn : os.IsNotExist (Errno e) = false) by (now destruct e).
    rewrite Hn. now rewrite handleError_internal.
  - intros [(statErr & ->) | (info & -> & Hd)].
    + now rewrite handleError_not_found.
    + rewrite Hd. cbn [negb]. now rewrite handleError_not_found.
  - intros info ->. split; reflexivity.
Qed.

Lemma download_answers_witness :
  server.sent
    (server.Download ServerExamples.mapLower ServerExamples.handler
       (ServerExamples.request "GET" [("path", "project/missing.txt")] [])
       (ServerExamples.start Examples.world_project))
  = [server.HttpError "Internal error" 404] /\
  server.sent
    (server.DownloadFolder ServerExamples.mapLower ServerExamples.handler
       (ServerExamples.request "GET" [("path", "project/missing.txt")] [])
       (ServerExamples.start Examples.world_project))
  = [server.HttpError "Internal error" 404].
Proof.
  assert (Hs : sanitizePath (server.uc ServerExamples.handler)
                 (server.getPathFromQuery
                    (ServerExamples.request "GET" [("path", "project/missing.txt")] []))
                 (server.inner (ServerExamples.start Examples.world_project))
               = (Ok "project/missing.txt", base_read Examples.world_project))
    by (vm_compute; reflexivity).
  destruct (@download_answers _ _ ServerExamples.handler ServerExamples.mapLower _ _ _ _ Hs)
    as (Hfile & _ & Hfolder & _); [vm_compute; reflexivity|].
  rewrite Hfile by (vm_compute; reflexivity).
  rewrite Hfolder by (left; eexists; vm_compute; reflexivity).
  split; reflexivity.
Defined.

(** The answers of [Browse] on the local storage for a path that the
    sanitiser accepts: a directory that does not exist is status 404, one
    that may not be read is status 403, a regular file is status 500 with
    the message of the listing; a directory whose entries can all be read
    is rendered with its entries in their order and with the parent that
    [normalizePath] gives for [Dir] of the path (empty for the empty
    path). *)
Theorem browse_answers :
  forall (h : @server.Handler (@FileManagementUseCase localstorage.LocalStorageService))
         (Template : Type) (ParseFiles : bytes -> M (Result Template))
         (Execute : Template -> server.browseData -> bytes * option error)
         (r : server.Request) (x : server.exchange) (sp : bytes) (w1 : world),
    sanitizePath (server.uc h) (server.getPathFromQuery r) (server.inner x) = (Ok sp, w1) ->
    (os.lookup (disk (server.inner x))
       (localstorage.GetAbsolutePath (storage (server.uc h)) sp) = inr ENOENT ->
     server.Browse ParseFiles Execute h r x
     = server.answered (called (CallReadDirectory sp) w1) 404
         (server.InternalError (server.messages h))
         (Errorf "could not read directory '%s': %w" [ArgS sp] (Sentinel ErrFileNotFound))
         x) /\
    (os.lookup (disk (server.inner x))
       (localstorage.GetAbsolutePath (storage (server.uc h)) sp) = inr EACCES ->
     server.Browse ParseFiles Execute h r x
     = server.answered (called (CallReadDirectory sp) w1) 403
         (server.ForbiddenFile (server.messages h))
         (Errorf "could not read directory '%s': %w" [ArgS sp]
            (Sentinel ErrPermissionDenied)) x) /\
    (forall data,
       os.lookup (disk (server.inner x))
         (localstorage.GetAbsolutePath (storage (server.uc h)) sp) = inl (os.File data) ->
       server.Browse ParseFiles Execute h r x
       = server.answered (called (CallReadDirectory sp) w1) 500
           (server.CannotListDirectory (server.messages h))
           (Errorf "failed to list path '%s': %w" [ArgS sp] (Errno ENOTDIR)) x) /\
    (forall es,
       os.lookup (disk (server.inner x))
         (localstorage.GetAbsolutePath (storage (server.uc h)) sp) = inl (os.Dir es) ->
       Forall info_ok es ->
       server.Browse ParseFiles Execute h r x
       = server.renderTemplate ParseFiles Execute h
           {| server.Path := server.getPathFromQuery r;
              server.Parent :=
                if bytes_eqb (server.getPathFromQuery r) [] then []
                else server.normalizePath (Dir (server.getPathFromQuery r));
              server.Files := map FileData_of_entry es |}
           {| server.inner := called (CallReadDirectory sp) w1;
              server.sent := server.sent x; server.journal := server.journal x |}).
Proof.
  intros h Template ParseFiles Execute r x sp w1 Hs.
  destruct (sanitizePath_world' _ _ _ Hs) as (Hd & _).
  assert (Hdisk : disk (called (CallReadDirectory sp) w1) = disk (server.inner x))
    by exact Hd.
  unfold server.Browse, server.lift. cbv zeta.
  cbn [management.List UseCase_FileManagement]. fold (server.getPathFromQuery r).
  rewrite (@List_accepted (server.uc h) _ sp _ w1 Hs).
  split; [|split; [|split]].
  - intros Hl. rewrite (@local_ReadDirectory_error _ _ _ ENOENT).
    + cbn [os.IsNotExist]. now rewrite handleError_not_found.
    + unfold os.ReadDir. now rewrite Hdisk, Hl.
  - intros Hl. rewrite (@local_ReadDirectory_error _ _ _ EACCES).
    + cbn [os.IsNotExist os.IsPermission]. now rewrite handleError_forbidden.
    + unfold os.ReadDir. now rewrite Hdisk, Hl.
  - intros data Hl. rewrite (@local_ReadDirectory_error _ _ _ ENOTDIR).
    + cbn [os.IsNotExist os.IsPermission]. now rewrite handleError_internal.
    + unfold os.ReadDir. now rewrite Hdisk, Hl.
  - intros es Hl Hok.
    unfold localstorage.ReadDirectory, bind, get_disk. cbv beta iota zeta.
    unfold os.ReadDir. rewrite Hdisk, Hl.
    pose proof (@LocalFacts.collect_infos_ok es [] (called (CallReadDirectory sp) w1) Hok [])
      as Hc.
    rewrite app_nil_r in Hc. change (map (fun e => _) es) with (map entry_of es).
    rewrite Hc. cbn [localstorage.collect_infos app]. unfold ret.
    rewrite map_map. unfold domain.PathEmpty.
    destruct (bytes_eqb (server.getPathFromQuery r) []); reflexivity.
Qed.

Lemma browse_answers_witness :
  server.sent
    (server.Browse (fun _ => ret (Ok tt)) (fun _ _ => ([], None)) ServerExamples.handler
       (ServerExamples.request "GET" [("path", "project/a.txt")] [])
       (ServerExamples.start Examples.world_project))
  = [server.HttpError "Cannot list" 500].
Proof.
  assert (Hs : sanitizePath (server.uc ServerExamples.handler)
                 (server.getPathFromQuery
                    (ServerExamples.request "GET" [("path", "project/a.txt")] []))
                 (server.inner (ServerExamples.start Examples.world_project))
               = (Ok "project/a.txt", base_read Examples.world_project))
    by (vm_compute; reflexivity).
  destruct (@browse_answers ServerExamples.handler unit (fun _ => ret (Ok tt))
              (fun _ _ => ([], None)) _ _ _ _ Hs) as (_ & _ & Hfile & _).
  rewrite (Hfile "A") by (vm_compute; reflexivity). reflexivity.
Defined.

(** The paths that the handlers build, for a folder given by its names
    and a plain name: [buildFullPath] puts the name in the folder, the
    parent of that path is the folder again (empty for the root, never
    ["."]), the redirect after a deletion goes to that parent, and the
    new path of a rename lies in the folder of the old one. *)
Theorem form_paths_stay_in_folder :
  forall (ms : list bytes) (n m : bytes),
    names_ok ms -> is_name n = true -> is_name m = true ->
    server.buildFullPath (strings.Join ms "/") n = strings.Join (ms ++ [n]) "/" /\
    server.normalizeParentPath (strings.Join (ms ++ [n]) "/") = strings.Join ms "/" /\
    server.normalizePath (server.normalizeParentPath (strings.Join (ms ++ [n]) "/"))
    = strings.Join ms "/" /\
    Join [server.normalizeParentPath (strings.Join (ms ++ [n]) "/"); m]
    = strings.Join (ms ++ [m]) "/".
Proof.
  intros ms n m Hms Hn Hm.
  assert (Hparent : server.normalizeParentPath (strings.Join (ms ++ [n]) "/")
                    = strings.Join ms "/").
  { unfold server.normalizeParentPath. cbv zeta. rewrite Dir_relpath_snoc by assumption.
    destruct ms as [|a ms]; [reflexivity|].
    assert (Hneq : strings.Join (a :: ms) "/" <> domain.PathCurrent).
    { intros E. pose proof (@split_Join (a :: ms)) as Hsp.
      rewrite E in Hsp. specialize (Hsp ltac:(discriminate) (names_sepfree Hms)).
      cbn in Hsp. injection Hsp as <- <-. inversion Hms; subst. discriminate. }
    apply bytes_eqb_neq in Hneq. now rewrite Hneq. }
  split; [|split; [exact Hparent|split]].
  - unfold server.buildFullPath. destruct ms as [|a ms]; [reflexivity|].
    assert (Hne : strings.Join (a :: ms) "/" <> domain.PathEmpty)
      by (apply Join_names_not_nil; [assumption | discriminate]).
    apply bytes_eqb_neq in Hne. rewrite Hne. cbn [negb].
    now apply Join_relpath_child.
  - rewrite Hparent. unfold server.normalizePath.
    destruct ms as [|a ms]; [reflexivity|].
    assert (H1 : strings.Join (a :: ms) "/" <> domain.PathCurrent).
    { intros E. pose proof (@split_Join (a :: ms)) as Hsp.
      rewrite E in Hsp. specialize (Hsp ltac:(discriminate) (names_sepfree Hms)).
      cbn in Hsp. injection Hsp as <- <-. inversion Hms; subst. discriminate. }
    assert (H2 : strings.Join (a :: ms) "/" <> domain.PathRoot).
    { intros E. pose proof (Join_not_slashed (names_headok Hms)) as Hsl.
      rewrite E in Hsl. discriminate. }
    apply bytes_eqb_neq in H1, H2. now rewrite H1, H2.
  - rewrite Hparent. now apply Join_relpath_child.
Qed.

Lemma form_paths_stay_in_folder_witness :
  server.buildFullPath "docs/2024" "report.txt" = "docs/2024/report.txt" /\
  server.normalizeParentPath "docs/2024/report.txt" = "docs/2024" /\
  Join [server.normalizeParentPath "docs/2024/report.txt"; "final.txt"]
  = "docs/2024/final.txt".
Proof.
  destruct (@form_paths_stay_in_folder ["docs"; "2024"] "report.txt" "final.txt")
    as (H1 & H2 & _ & H4); try reflexivity.
  - repeat constructor.
  - split; [exact H1|]. split; [exact H2 | exact H4].
Defined.

(** * The sanitiser on plain paths *)

Import PlainFacts.

(** With an absolute base directory the sanitiser accepts every relative
    path of ordinary names that does not begin with two dots, is not
    longer than [MaxNameLength] and whose last name matches the pattern,
    and returns it unchanged. *)
Theorem plain_paths_are_accepted :
  forall (S : Type) (storage_impl : FileStorage S) (uc : @FileManagementUseCase S)
         (ms : list bytes) (n : bytes) (w : world),
    IsAbs (GetAbsolutePath (storage uc) []) = true ->
    names_ok (ms ++ [n]) ->
    strings.HasPrefix (strings.Join (ms ++ [n]) "/") ".." = false ->
    (len (strings.Join (ms ++ [n]) "/") <= MaxNameLength uc)%Z ->
    regexp.MatchString (validName uc) n = true ->
    exists w',
      sanitizePath uc (strings.Join (ms ++ [n]) "/") w
      = (Ok (strings.Join (ms ++ [n]) "/"), w').
Proof.
  intros S impl uc ms n w Habs Hms Hdots Hlen Hmatch.
  assert (Hne : ms ++ [n] <> []) by (now destruct ms).
  destruct (@plain_path_checks _ _ uc Habs (ms ++ [n]) Hms Hne) as (Hclean & _ & Ht).
  assert (Hn : is_name n = true).
  { apply Forall_app in Hms as [_ Hn]. now inversion Hn. }
  destruct (@sanitizePath_accepts _ _ uc (strings.Join (ms ++ [n]) "/") w) as (w' & Hrun).
  - rewrite Ht, Hdots. reflexivity.
  - unfold length_ok. rewrite Hclean. now apply Z.leb_le.
  - unfold name_ok. cbv zeta. rewrite Hclean, Base_relpath_snoc by assumption.
    rewrite Hmatch. apply orb_true_r.
  - exists w'. now rewrite Hclean in Hrun.
Qed.

Lemma plain_paths_are_accepted_witness :
  exists w',
    sanitizePath Examples.uc255 "docs/2024/report v2.txt" Examples.world_empty
    = (Ok "docs/2024/report v2.txt", w').
Proof.
  assert (Habs : IsAbs (GetAbsolutePath (storage Examples.uc255) []) = true)
    by (vm_compute; reflexivity).
  apply (@plain_paths_are_accepted _ _ Examples.uc255 ["docs"; "2024"] "report v2.txt"
           Examples.world_empty Habs).
  - repeat constructor.
  - reflexivity.
  - vm_compute. discriminate.
  - reflexivity.
Defined.

(** With an absolute base directory the sanitiser rejects with
    [PathTraversal] every relative path of ordinary names that begins
    with two dots, such as ["..data/file.txt"], although the path
    resolves inside the base directory: the traversal check compares the
    first two bytes of the relative path only. *)
Theorem name_with_leading_dots_is_rejected :
  forall (S : Type) (storage_impl : FileStorage S) (uc : @FileManagementUseCase S)
         (ms : list bytes) (w : world),
    IsAbs (GetAbsolutePath (storage uc) []) = true ->
    names_ok ms ->
    strings.HasPrefix (strings.Join ms "/") ".." = true ->
    (exists bs, names_ok bs /\ basePath uc = abspath bs /\
                Join [basePath uc; Clean (strings.Join ms "/")] = abspath (bs ++ ms)) /\
    (exists e w', sanitizePath uc (strings.Join ms "/") w = (Err e, w') /\
                  errors.Is e ErrPathTraversal = true).
Proof.
  intros S impl uc ms w Habs Hms Hdots.
  assert (Hne : ms <> []) by (intros ->; discriminate).
  destruct (@plain_path_checks _ _ uc Habs ms Hms Hne) as (Hclean & Hres & Ht).
  split; [now rewrite Hclean|].
  destruct (@traversal_error _ _ uc (strings.Join ms "/") w) as (e & He & His).
  - rewrite Ht, Hdots. reflexivity.
  - destruct (sanitizePath_pair uc (strings.Join ms "/") w) as (w' & Hrun).
    exists e, w'. rewrite Hrun, He. auto.
Qed.

Lemma name_with_leading_dots_is_rejected_witness :
  exists e w',
    sanitizePath Examples.uc255 "..data/file.txt" Examples.world_empty = (Err e, w') /\
    errors.Is e ErrPathTraversal = true /\
    Join [basePath Examples.uc255; Clean "..data/file.txt"] = "/storage/..data/file.txt".
Proof.
  assert (Habs : IsAbs (GetAbsolutePath (storage Examples.uc255) []) = true)
    by (vm_compute; reflexivity).
  destruct (@name_with_leading_dots_is_rejected _ _ Examples.uc255 ["..data"; "file.txt"]
              Examples.world_empty Habs) as (_ & e & w' & Hrun & His).
  - repeat constructor.
  - reflexivity.
  - exists e, w'. split; [exact Hrun|]. split; [exact His | vm_compute; reflexivity].
Defined.

(** * The validated configuration *)

(** [validateConfig] accepts a configuration exactly when the base path,
    the static path, the template file and the name pattern are not
    empty, the port lies between 1 and 65535, and the maximal upload size
    and the maximal name length are positive.  The checks run in this
    order: an empty base path is reported whatever else is wrong, and a
    port out of range is reported, with the port in decimal, when the
    four strings are present. *)
Theorem validateConfig_accepts_exactly :
  forall (cfg : validation.Config),
    (validation.validateConfig cfg = None <->
     validation.BasePath (validation.Storage cfg) <> [] /\
     validation.Path (validation.Static cfg) <> [] /\
     validation.TemplateFile (validation.Static cfg) <> [] /\
     config.ValidNameRegex (validation.File cfg) <> [] /\
     (1 <= validation.Port (validation.Server cfg) <= 65535)%Z /\
     (0 < validation.MaxUploadSize (validation.Server cfg))%Z /\
     (0 < config.MaxNameLength (validation.File cfg))%Z) /\
    (validation.BasePath (validation.Storage cfg) = [] ->
     validation.validateConfig cfg = Some (New "storage.base_path: is required")) /\
    (validation.BasePath (validation.Storage cfg) <> [] ->
     validation.Path (validation.Static cfg) <> [] ->
     validation.TemplateFile (validation.Static cfg) <> [] ->
     config.ValidNameRegex (validation.File cfg) <> [] ->
     (validation.Port (validation.Server cfg) <= 0
      \/ 65535 < validation.Port (validation.Server cfg))%Z ->
     validation.validateConfig cfg
     = Some (New ("server.port: must be between 1 and 65535, got "
                  ++ validation.itoa (validation.Port (validation.Server cfg))))).
Proof.
  intros cfg. unfold validation.validateConfig. cbn [validation.first_error].
  unfold validation.validateRequiredString, validation.validatePort,
    validation.validatePositiveInt64, config.validatePositiveInt.
  split; [|split].
  - split.
    + intros H.
      destruct (bytes_eqb (validation.BasePath _) []) eqn:E1; [discriminate|].
      destruct (bytes_eqb (validation.Path _) []) eqn:E2; [discriminate|].
      destruct (bytes_eqb (validation.TemplateFile _) []) eqn:E3; [discriminate|].
      destruct (bytes_eqb (config.ValidNameRegex _) []) eqn:E4; [discriminate|].
      destruct ((validation.Port _ <=? 0)%Z || (validation.Port _ >? 65535)%Z) eqn:E5;
        [discriminate|].
      destruct (validation.MaxUploadSize _ <=? 0)%Z eqn:E6; [discriminate|].
      destruct (config.MaxNameLength _ <=? 0)%Z eqn:E7; [discriminate|].
      apply bytes_eqb_neq in E1, E2, E3, E4.
      apply orb_false_elim in E5 as [E5 E5']. rewrite gtb_leb in E5'.
      apply negb_false_iff in E5'. apply Z.leb_gt in E5, E6, E7. apply Z.leb_le in E5'.
      repeat split; (assumption || lia).
    + intros (H1 & H2 & H3 & H4 & H5 & H6 & H7).
      apply bytes_eqb_neq in H1, H2, H3, H4. rewrite H1, H2, H3, H4.
      assert (E5 : ((validation.Port (validation.Server cfg) <=? 0)%Z
                    || (validation.Port (validation.Server cfg) >? 65535)%Z) = false).
      { rewrite gtb_leb. apply orb_false_intro; [apply Z.leb_gt; lia|].
        apply negb_false_iff. apply Z.leb_le. lia. }
      rewrite E5.
      assert (E6 : (validation.MaxUploadSize (validation.Server cfg) <=? 0)%Z = false)
        by (apply Z.leb_gt; lia).
      assert (E7 : (config.MaxNameLength (validation.File cfg) <=? 0)%Z = false)
        by (apply Z.leb_gt; lia).
      now rewrite E6, E7.
  - intros ->. reflexivity.
  - intros H1 H2 H3 H4 H5.
    apply bytes_eqb_neq in H1, H2, H3, H4. rewrite H1, H2, H3, H4.
    assert (E5 : ((validation.Port (validation.Server cfg) <=? 0)%Z
                  || (validation.Port (validation.Server cfg) >? 65535)%Z) = true).
    { rewrite gtb_leb. apply orb_true_iff. destruct H5 as [H5|H5].
      - left. apply Z.leb_le. lia.
      - right. apply negb_true_iff. apply Z.leb_gt. lia. }
    now rewrite E5.
Qed.

Lemma validateConfig_accepts_exactly_witness :
  validation.validateConfig
    {| validation.Server := {| validation.Port := 70000; validation.MaxUploadSize := 0 |};
       validation.Storage := {| validation.BasePath := "/storage" |};
       validation.Static := {| validation.Path := "/static";
                               validation.TemplateFile := "index.html" |};
       validation.File := config.File (Examples.config_with 255);
       validation.Messages := ServerExamples.messages |}
  = Some (New "server.port: must be between 1 and 65535, got 70000").
Proof.
  destruct (validateConfig_accepts_exactly
    {| validation.Server := {| validation.Port := 70000; validation.MaxUploadSize := 0 |};
       validation.Storage := {| validation.BasePath := "/storage" |};
       validation.Static := {| validation.Path := "/static";
                               validation.TemplateFile := "index.html" |};
       validation.File := config.File (Examples.config_with 255);
       validation.Messages := ServerExamples.messages |}) as (_ & _ & H).
  rewrite H; try discriminate; [reflexivity | right; reflexivity].
Defined.

(** ** The path that the storage resolves *)

Lemma local_resolution_checked_witness :
  IsAbs (localstorage.basePath (usecases.storage Examples.uc255)) = true /\
  GetAbsolutePath (usecases.storage Examples.uc255) "docs/../file.txt"
  = filepath.Join [Spec.basePath Examples.uc255; "docs/../file.txt"].
Proof.
  split; [reflexivity|].
  apply (@local_resolution_checked Examples.uc255 "docs/../file.txt"). reflexivity.
Defined.
